(** * Subscription renewal service: a shallow embedding and its properties

    The development follows the Python sources of the service:

    - [app/config.py]   : the [Config] record;
    - [app/models.py]   : the [Subscriptions] row;
    - [app/db_utils.py] : [get_session], [read_from_table],
                          [update_table], [delete_from_table];
    - [app/subs_db.py]  : [fetch_expiring_subscriptions];
    - [app/scheduler.py]: the job of the scheduler;
    - [app/ns.py]       : the remote client ([refresh_access_token],
                          [update_subscription], [get_token],
                          [create_subscription]);
    - [app/main.py]     : [check_and_update_subscriptions], [start],
                          [setup_new_subscription].

    The code is asynchronous but runs one coroutine at a time; it is
    embedded as functions of a state-and-exception monad over a [World]
    made of the table, the exchanges with the remote platform, the
    readings of the clock and the history of the committed table states.
    The remote platform, the clock and the iteration order of a Python
    set are parameters of a run ([Env]).

    Timestamps are the values of Python's [datetime] class: a record of
    calendar fields, compared field by field, moved by a [timedelta]
    through the proleptic Gregorian ordinal, and rendered by
    [strftime("%Y-%m-%d %H:%M:%S")].

    Outside the model: failures of the transport itself (an unreachable
    database or platform, a body that is not a JSON object), the log
    output, the deletion of a subscription on the platform and the
    command-line utility.  Two simplifications: an error raised for a
    refused token request bears the fixed part of its message, without
    the text of the response that the source appends to it; and the
    sequence behind [id] advances with the inserts that commit, not
    with those that are rolled back.

    Plan of the file:
    - Parts I to IV: the embedding of the sources;
    - Parts V and VI: the vocabulary of the statements and the concrete
      scenarios;
    - Parts VII and VIII: calendar arithmetic and the engine step by
      step;
    - Part IX: the properties of the specification, C1 to C10;
    - Part X: further properties of the code, X1 to X20. *)

From Stdlib Require Import ZArith List String Ascii Bool Lia.
Import ListNotations.

Local Open Scope Z_scope.

(* ================================================================== *)
(** * Part I.  Calendar time *)
(* ================================================================== *)

Module Datetime.

(** ** The [datetime] value *)

Record datetime : Type := mkdatetime {
  year : Z;
  month : Z;
  day : Z;
  hour : Z;
  minute : Z;
  second : Z;
  microsecond : Z
}.

(** A [timedelta] is normalised by Python to days, seconds and
    microseconds; it is kept here as its total number of microseconds. *)
Definition timedelta : Type := Z.

Definition US_PER_SECOND : Z := 1000000.
Definition US_PER_DAY : Z := 86400 * US_PER_SECOND.

Definition timedelta_seconds (n : Z) : timedelta := n * US_PER_SECOND.
Definition timedelta_minutes (n : Z) : timedelta := n * 60 * US_PER_SECOND.
Definition timedelta_days (n : Z) : timedelta := n * US_PER_DAY.

(** ** Gregorian ordinals (the helpers of the [datetime] module) *)

Definition MINYEAR : Z := 1.
Definition MAXYEAR : Z := 9999.
Definition MAXORDINAL : Z := 3652059.

Definition DAYS_IN_MONTH : list Z :=
  [-1; 31; 28; 31; 30; 31; 30; 31; 31; 30; 31; 30; 31].

Definition DAYS_BEFORE_MONTH : list Z :=
  [-1; 0; 31; 59; 90; 120; 151; 181; 212; 243; 273; 304; 334].

Definition table (t : list Z) (i : Z) : Z := nth (Z.to_nat i) t 0.

Definition is_leap (y : Z) : bool :=
  (y mod 4 =? 0) && (negb (y mod 100 =? 0) || (y mod 400 =? 0)).

Definition days_before_year (y : Z) : Z :=
  let y' := y - 1 in
  y' * 365 + y' / 4 - y' / 100 + y' / 400.

Definition days_in_month (y m : Z) : Z :=
  if (m =? 2) && is_leap y then 29 else table DAYS_IN_MONTH m.

Definition days_before_month (y m : Z) : Z :=
  table DAYS_BEFORE_MONTH m + (if (2 <? m) && is_leap y then 1 else 0).

Definition ymd2ord (y m d : Z) : Z :=
  days_before_year y + days_before_month y m + d.

Definition DI400Y : Z := 146097.
Definition DI100Y : Z := 36524.
Definition DI4Y : Z := 1461.

Definition ord2ymd (n : Z) : Z * Z * Z :=
  let n := n - 1 in
  let n400 := n / DI400Y in
  let n := n mod DI400Y in
  let y := n400 * 400 + 1 in
  let n100 := n / DI100Y in
  let n := n mod DI100Y in
  let n4 := n / DI4Y in
  let n := n mod DI4Y in
  let n1 := n / 365 in
  let n := n mod 365 in
  let y := y + n100 * 100 + n4 * 4 + n1 in
  if (n1 =? 4) || (n100 =? 4) then (y - 1, 12, 31)
  else
    let leapyear := (n1 =? 3) && (negb (n4 =? 24) || (n100 =? 3)) in
    let m := Z.shiftr (n + 50) 5 in
    let preceding :=
      table DAYS_BEFORE_MONTH m + (if (2 <? m) && leapyear then 1 else 0) in
    if n <? preceding then
      let m := m - 1 in
      let preceding :=
        preceding
        - (table DAYS_IN_MONTH m + (if (m =? 2) && leapyear then 1 else 0)) in
      (y, m, n - preceding + 1)
    else (y, m, n - preceding + 1).

(** ** Well-formed values *)

Definition valid_date (y m d : Z) : Prop :=
  MINYEAR <= y <= MAXYEAR /\ 1 <= m <= 12 /\ 1 <= d <= days_in_month y m.

Definition valid_time (h mi s us : Z) : Prop :=
  0 <= h < 24 /\ 0 <= mi < 60 /\ 0 <= s < 60 /\ 0 <= us < US_PER_SECOND.

Definition valid (t : datetime) : Prop :=
  valid_date (year t) (month t) (day t)
  /\ valid_time (hour t) (minute t) (second t) (microsecond t).

Definition validb (t : datetime) : bool :=
  (MINYEAR <=? year t) && (year t <=? MAXYEAR)
  && (1 <=? month t) && (month t <=? 12)
  && (1 <=? day t) && (day t <=? days_in_month (year t) (month t))
  && (0 <=? hour t) && (hour t <? 24)
  && (0 <=? minute t) && (minute t <? 60)
  && (0 <=? second t) && (second t <? 60)
  && (0 <=? microsecond t) && (microsecond t <? US_PER_SECOND).

(** The years that [%Y] renders with exactly four digits. *)
Definition four_digit_year (t : datetime) : Prop := 1000 <= year t <= 9999.

(** ** Chronological order: the comparison of the field tuples *)

Definition lex (c1 c2 : comparison) : comparison :=
  match c1 with Eq => c2 | _ => c1 end.

Definition dt_compare (a b : datetime) : comparison :=
  lex (year a ?= year b)
 (lex (month a ?= month b)
 (lex (day a ?= day b)
 (lex (hour a ?= hour b)
 (lex (minute a ?= minute b)
 (lex (second a ?= second b)
      (microsecond a ?= microsecond b)))))).

Definition dt_leb (a b : datetime) : bool :=
  match dt_compare a b with Gt => false | _ => true end.

Definition dt_ltb (a b : datetime) : bool :=
  match dt_compare a b with Lt => true | _ => false end.

(** The value with its sub-second part dropped. *)
Definition whole_second (t : datetime) : datetime :=
  mkdatetime (year t) (month t) (day t) (hour t) (minute t) (second t) 0.

(** ** [datetime.__add__] *)

Definition to_microseconds (t : datetime) : Z :=
  ((ymd2ord (year t) (month t) (day t) * 86400
    + hour t * 3600 + minute t * 60 + second t) * US_PER_SECOND)
  + microsecond t.

Definition of_microseconds (u : Z) : option datetime :=
  let days := u / US_PER_DAY in
  let r := u mod US_PER_DAY in
  let secs := r / US_PER_SECOND in
  let us := r mod US_PER_SECOND in
  let h := secs / 3600 in
  let rem := secs mod 3600 in
  if (0 <? days) && (days <=? MAXORDINAL) then
    let '(y, m, d) := ord2ymd days in
    Some (mkdatetime y m d h (rem / 60) (rem mod 60) us)
  else None.

(** [None] stands for Python's [OverflowError]. *)
Definition dt_add (t : datetime) (delta : timedelta) : option datetime :=
  of_microseconds (to_microseconds t + delta).

(** ** [strftime("%Y-%m-%d %H:%M:%S")] *)

Definition digit (n : Z) : ascii := ascii_of_nat (48 + Z.to_nat (n mod 10)).

Definition pad2 (n : Z) : string :=
  String (digit (n / 10)) (String (digit n) EmptyString).

(** [%Y] prints the plain decimal number (the C library does not pad a
    year below 1000); from 1000 to 9999 that is four digits.  A number
    has no more decimal digits than binary ones, which bounds the
    recursion. *)
Fixpoint decimal (fuel : nat) (n : Z) (acc : string) : string :=
  match fuel with
  | O => acc
  | S fuel' =>
      let acc' := String (digit n) acc in
      if n <? 10 then acc' else decimal fuel' (n / 10) acc'
  end.

Definition str_of_Z (n : Z) : string :=
  decimal (S (Z.to_nat (Z.log2 n))) n EmptyString.

Definition strftime (t : datetime) : string :=
  (str_of_Z (year t) ++ "-" ++ pad2 (month t) ++ "-" ++ pad2 (day t)
   ++ " " ++ pad2 (hour t) ++ ":" ++ pad2 (minute t) ++ ":" ++ pad2 (second t))%string.

End Datetime.

Import Datetime.
Local Open Scope string_scope.
Local Open Scope list_scope.
Local Open Scope Z_scope.

(* ================================================================== *)
(** * Part II.  Python values, configuration and the table row *)
(* ================================================================== *)

(** The dynamically typed values that travel through JSON bodies and
    the generic persistence helpers: [None], [str] and [int]. *)
Inductive pyval : Type :=
| PNone
| PStr (s : string)
| PInt (z : Z).

Definition pyval_eqb (a b : pyval) : bool :=
  match a, b with
  | PNone, PNone => true
  | PStr s, PStr t => String.eqb s t
  | PInt x, PInt y => Z.eqb x y
  | _, _ => false
  end.

(** Python truthiness. *)
Definition truthy (v : pyval) : bool :=
  match v with
  | PNone => false
  | PStr s => negb (String.eqb s "")
  | PInt z => negb (z =? 0)
  end.

(** [str(v)] *)
Definition str (v : pyval) : string :=
  match v with
  | PNone => "None"
  | PStr s => s
  | PInt z => if z <? 0 then ("-" ++ str_of_Z (- z))%string else str_of_Z z
  end.

(** A [dict] with string keys, in insertion order. *)
Definition dict : Type := list (string * pyval).

Fixpoint dict_lookup (k : string) (d : dict) : option pyval :=
  match d with
  | [] => None
  | (k', v) :: d' => if String.eqb k k' then Some v else dict_lookup k d'
  end.

(** [d.get(k)] and [d.get(k, default)] *)
Definition dict_get (k : string) (d : dict) : pyval :=
  match dict_lookup k d with Some v => v | None => PNone end.

Definition dict_get_default (k : string) (default : pyval) (d : dict) : pyval :=
  match dict_lookup k d with Some v => v | None => default end.

(** [d[k] = v] *)
Fixpoint dict_set (k : string) (v : pyval) (d : dict) : dict :=
  match d with
  | [] => [(k, v)]
  | (k', v') :: d' =>
      if String.eqb k k' then (k, v) :: d' else (k', v') :: dict_set k v d'
  end.

(** [{**a, **b}] *)
Definition dict_merge (a b : dict) : dict :=
  fold_left (fun acc kv => dict_set (fst kv) (snd kv) acc) b a.

(** [a or b] *)
Definition py_or (a b : pyval) : pyval := if truthy a then a else b.

(** ** [app/config.py] *)

Record Config : Type := mkConfig {
  SUBSCRIPTION_DURATION : timedelta;
  RENEWAL_INTERVAL : Z;
  TIME_BEFORE_EXPIRATION : timedelta
}.

(** [int(get_env_variable(KEY, default) or default)]: an unset or empty
    variable is [None] here. *)
Definition env_int (v : option Z) (default : Z) : Z :=
  match v with Some n => n | None => default end.

Definition load_config (SUBSCRIPTION_DURATION_env RENEWAL_INTERVAL_env : option Z)
  : Config :=
  {| SUBSCRIPTION_DURATION := timedelta_days (env_int SUBSCRIPTION_DURATION_env 1);
     RENEWAL_INTERVAL := env_int RENEWAL_INTERVAL_env 3600;
     TIME_BEFORE_EXPIRATION := timedelta_minutes 5 |}.

(** ** [app/models.py] *)

(** A row of the [subscriptions] table.  [row_id] is the integer primary
    key [id]; [created_at] is assigned by the database server and is
    neither read nor written by the service, so the row does not carry
    it. *)
Record Subscriptions : Type := mkSubscriptions {
  row_id : Z;
  last_updated : option string;
  domain : string;
  model : string;
  expires : string;
  subscription_id : string;
  post_url : string;
  user : string;
  oauth_token : string;
  refresh_token : string
}.

(** The body of a creation request; the fields bear the prefix [rq_]
    because [domain], [model], [post_url] and [user] name the columns
    of the row. *)
Record SubscriptionRequest : Type := mkSubscriptionRequest {
  rq_domain : string;
  rq_model : string;
  rq_post_url : string;
  rq_user : string;
  rq_username : string;
  rq_password : string
}.

(** The attributes of the mapped class that the generic helpers can be
    handed by name: its columns.  (The class has a few more attributes,
    such as [metadata]; the service never names them.) *)
Definition is_attribute (k : string) : bool :=
  existsb (String.eqb k)
    ["id"; "created_at"; "last_updated"; "domain"; "model"; "expires";
     "subscription_id"; "post_url"; "user"; "oauth_token"; "refresh_token"].

(** The value of a column of a row, [None] when the name is no column
    of the model ([created_at] is not represented). *)
Definition get_column (k : string) (r : Subscriptions) : option pyval :=
  if String.eqb k "id" then Some (PInt (row_id r))
  else if String.eqb k "last_updated" then
    Some (match last_updated r with Some s => PStr s | None => PNone end)
  else if String.eqb k "domain" then Some (PStr (domain r))
  else if String.eqb k "model" then Some (PStr (model r))
  else if String.eqb k "expires" then Some (PStr (expires r))
  else if String.eqb k "subscription_id" then Some (PStr (subscription_id r))
  else if String.eqb k "post_url" then Some (PStr (post_url r))
  else if String.eqb k "user" then Some (PStr (user r))
  else if String.eqb k "oauth_token" then Some (PStr (oauth_token r))
  else if String.eqb k "refresh_token" then Some (PStr (refresh_token r))
  else None.

(** The outcome of [setattr(row, k, v)] on a row of the table, once the
    session is flushed. *)
Inductive setattr_result : Type :=
| Stored (r : Subscriptions)   (* a column took the value *)
| Transient                    (* a plain Python attribute: nothing to flush *)
| Rejected.                    (* NOT NULL or type violation at flush *)

Definition set_str (v : pyval) (f : string -> Subscriptions) : setattr_result :=
  match v with PStr s => Stored (f s) | _ => Rejected end.

Definition setattr (r : Subscriptions) (k : string) (v : pyval) : setattr_result :=
  let '(mkSubscriptions i lu d m e sid p u ot rt) := r in
  if String.eqb k "id" then
    match v with PInt z => Stored (mkSubscriptions z lu d m e sid p u ot rt)
               | _ => Rejected end
  else if String.eqb k "created_at" then
    (* NOT NULL, and no value of [pyval] is a [datetime] *)
    Rejected
  else if String.eqb k "last_updated" then
    match v with
    | PNone => Stored (mkSubscriptions i None d m e sid p u ot rt)
    | PStr s => Stored (mkSubscriptions i (Some s) d m e sid p u ot rt)
    | PInt _ => Rejected
    end
  else if String.eqb k "domain" then
    set_str v (fun s => mkSubscriptions i lu s m e sid p u ot rt)
  else if String.eqb k "model" then
    set_str v (fun s => mkSubscriptions i lu d s e sid p u ot rt)
  else if String.eqb k "expires" then
    set_str v (fun s => mkSubscriptions i lu d m s sid p u ot rt)
  else if String.eqb k "subscription_id" then
    set_str v (fun s => mkSubscriptions i lu d m e s p u ot rt)
  else if String.eqb k "post_url" then
    set_str v (fun s => mkSubscriptions i lu d m e sid s u ot rt)
  else if String.eqb k "user" then
    set_str v (fun s => mkSubscriptions i lu d m e sid p s ot rt)
  else if String.eqb k "oauth_token" then
    set_str v (fun s => mkSubscriptions i lu d m e sid p u s rt)
  else if String.eqb k "refresh_token" then
    set_str v (fun s => mkSubscriptions i lu d m e sid p u ot s)
  else Transient.

(** [for key, value in update_data.items(): setattr(row, key, value)];
    [None] when the flush of the row is refused. *)
Fixpoint apply_update (update_data : dict) (r : Subscriptions) : option Subscriptions :=
  match update_data with
  | [] => Some r
  | (k, v) :: rest =>
      match setattr r k v with
      | Stored r' => apply_update rest r'
      | Transient => apply_update rest r
      | Rejected => None
      end
  end.

(** The column sizes of the model: [String(255)], and [String(30)] for
    [last_updated]. *)
Definition fits (n : nat) (s : string) : bool := Nat.leb (String.length s) n.

Definition row_fits (r : Subscriptions) : bool :=
  match last_updated r with Some s => fits 30 s | None => true end
  && fits 255 (domain r) && fits 255 (model r) && fits 255 (expires r)
  && fits 255 (subscription_id r) && fits 255 (post_url r)
  && fits 255 (user r) && fits 255 (oauth_token r)
  && fits 255 (refresh_token r).

Fixpoint distinct {A : Type} (eqb : A -> A -> bool) (l : list A) : bool :=
  match l with
  | [] => true
  | x :: l' => negb (existsb (eqb x) l') && distinct eqb l'
  end.

(** What the database checks when a transaction commits: the column
    sizes, the primary key and the UNIQUE constraint on
    [subscription_id].  (A table that the database holds satisfies them
    already, so checking every row checks the rows just written.) *)
Definition constraints_hold (rows : list Subscriptions) : bool :=
  forallb row_fits rows
  && distinct Z.eqb (map row_id rows)
  && distinct String.eqb (map subscription_id rows).

(** The selection [select(model).filter_by] of the rows that agree with
    every filter.  A filter that names no column, or that compares a
    column with a value of another type, makes the statement fail.  A
    filter with the value [None] reads [IS NULL]: it is well formed for
    every column, and no row has a NULL [id] or [created_at]. *)
Definition filter_ok (kv : string * pyval) : bool :=
  let '(k, v) := kv in
  if String.eqb k "id" then
    match v with PStr _ => false | _ => true end
  else if String.eqb k "created_at" then
    match v with PNone => true | _ => false end
  else is_attribute k && match v with PInt _ => false | _ => true end.

Definition matchesb (filters : dict) (r : Subscriptions) : bool :=
  forallb (fun kv => match get_column (fst kv) r with
                     | Some c => pyval_eqb c (snd kv)
                     | None => false
                     end) filters.

Definition select_filter_by (filters : dict) (rows : list Subscriptions)
  : option (list Subscriptions) :=
  if forallb filter_ok filters then Some (filter (matchesb filters) rows)
  else None.

(** The constructor call of the model on the keywords [data], followed
    by the flush of the new row: the constructor refuses a keyword that
    is no attribute of the class; the flush needs every NOT NULL
    column.  The INSERT leaves out an [id] or a [created_at] that is
    [None], so that the sequence and the default of the server give the
    value. *)
Inductive construct_result : Type :=
| Constructed (r : Subscriptions)
| BadKeyword                   (* TypeError of the constructor *)
| NotInsertable.               (* IntegrityError or DataError at flush *)

Definition required_columns : list string :=
  ["domain"; "model"; "expires"; "subscription_id"; "post_url"; "user";
   "oauth_token"; "refresh_token"].

Definition server_side (kv : string * pyval) : bool :=
  match snd kv with
  | PNone => String.eqb (fst kv) "id" || String.eqb (fst kv) "created_at"
  | _ => false
  end.

Definition construct (next : Z) (data : dict) : construct_result :=
  if negb (forallb (fun kv => is_attribute (fst kv)) data) then BadKeyword
  else if negb (forallb (fun c => match dict_lookup c data with
                                  | Some (PStr _) => true
                                  | _ => false
                                  end) required_columns)
  then NotInsertable
  else
    match apply_update (filter (fun kv => negb (server_side kv)) data)
            (mkSubscriptions next None "" "" "" "" "" "" "" "") with
    | Some r => Constructed r
    | None => NotInsertable
    end.

(* ================================================================== *)
(** * Part III.  The world the service runs in *)
(* ================================================================== *)

(** ** Exceptions *)

Inductive exn : Type :=
| Exception (msg : string)
| HTTPException (status_code : Z) (detail : string)
| TypeError
| IndexError
| OverflowError.

Definition exn_str (e : exn) : string :=
  match e with
  | Exception msg => msg
  | HTTPException _ detail => detail
  | TypeError => "TypeError"
  | IndexError => "list index out of range"
  | OverflowError => "date value out of range"
  end.

(** ** The remote platform *)

(** The requests of [app/ns.py], with the values the service puts in
    them. *)
Inductive RemoteCall : Type :=
| PostToken (username password : string)
| PostRefresh (refresh_token : string)
| PostSubscription (model post_url domain user : string) (token : pyval)
| PutSubscription (new_expire subscription_id token domain : string).

Record Response : Type := mkResponse {
  status_code : Z;
  json : dict
}.

Definition Event : Type := (RemoteCall * Response)%type.

(** ** The environment of a run

    - [config]: the values of [Config];
    - [platform]: the answer of the remote platform to a request, given
      the exchanges so far;
    - [clock]: the successive readings of [datetime.now(timezone.utc)];
    - [set_order]: the order in which Python iterates the set of
      domains (unspecified by the language);
    - [fromisoformat]: [datetime.fromisoformat], [None] on a
      [ValueError]. *)
Record Env : Type := mkEnv {
  config : Config;
  platform : list Event -> RemoteCall -> Response;
  clock : nat -> datetime;
  set_order : list string -> list string;
  fromisoformat : string -> option datetime
}.

(** A faithful [set_order] lists every element once. *)
Definition set_order_ok (order : list string -> list string) : Prop :=
  forall l, NoDup (order l) /\ (forall x, In x (order l) <-> In x l).

(** ** The state *)

Record World : Type := mkWorld {
  db : list Subscriptions;          (* the committed rows of the table *)
  next_id : Z;                      (* the sequence behind [id] *)
  exchanges : list Event;           (* the remote requests, oldest first *)
  ticks : nat;                      (* readings of the clock so far *)
  commits : list (list Subscriptions)  (* the table after each write commit *)
}.

Definition set_db (rows : list Subscriptions) (next : Z) (w : World) : World :=
  mkWorld rows next (exchanges w) (ticks w) (commits w ++ [rows]).

(** ** The monad of the service: state and exceptions *)

Inductive Result (A : Type) : Type :=
| Ok (a : A)
| Raise (e : exn).
Arguments Ok {A} a.
Arguments Raise {A} e.

Definition M (A : Type) : Type := World -> Result A * World.

Definition ret {A} (a : A) : M A := fun w => (Ok a, w).

Definition raise {A} (e : exn) : M A := fun w => (Raise e, w).

Definition bind {A B} (m : M A) (k : A -> M B) : M B :=
  fun w => match m w with
           | (Ok a, w') => k a w'
           | (Raise e, w') => (Raise e, w')
           end.

(** [try: m except Exception as e: h e] *)
Definition try_except {A} (m : M A) (h : exn -> M A) : M A :=
  fun w => match m w with
           | (Ok a, w') => (Ok a, w')
           | (Raise e, w') => h e w'
           end.

Declare Scope service_scope.
Delimit Scope service_scope with service.
Notation "x <- m ;; k" := (bind m (fun x => k))
  (at level 61, m at next level, right associativity) : service_scope.
Notation "m ;;; k" := (bind m (fun _ => k))
  (at level 61, right associativity) : service_scope.
Local Open Scope service_scope.

(** [for x in l: body x] *)
Fixpoint for_each {A} (l : list A) (body : A -> M unit) : M unit :=
  match l with
  | [] => ret tt
  | x :: l' => body x ;;; for_each l' body
  end.

Definition of_option {A} (e : exn) (o : option A) : M A :=
  match o with Some a => ret a | None => raise e end.

(** [datetime.now(timezone.utc)] *)
Definition datetime_now (env : Env) : M datetime :=
  fun w => (Ok (clock env (ticks w)),
            mkWorld (db w) (next_id w) (exchanges w) (S (ticks w)) (commits w)).

(** One request to the platform, recorded with its response. *)
Definition http (env : Env) (c : RemoteCall) : M Response :=
  fun w => let r := platform env (exchanges w) c in
           (Ok r, mkWorld (db w) (next_id w) (exchanges w ++ [(c, r)])
                          (ticks w) (commits w)).

(** [asyncio.sleep]: time passes on the clock only. *)
Definition sleep (seconds : Z) : M unit := ret tt.

(* ================================================================== *)
(** * Part IV.  The service *)
(* ================================================================== *)

(** ** [app/db_utils.py] *)

(** What [get_session] turns a failure inside the session into. *)
Definition session_error : exn := HTTPException 500 "Database session error".
Definition unexpected_session_error : exn :=
  HTTPException 500 "Unexpected database session error".

Definition read_from_table (filters : dict) : M (list Subscriptions) :=
  fun w => match select_filter_by filters (db w) with
           | Some rows => (Ok rows, w)
           | None => (Raise session_error, w)
           end.

(** The rows of the table after every selected row took [update_data];
    [None] when the flush is refused for one of them. *)
Fixpoint update_rows (filters update_data : dict) (rows : list Subscriptions)
  : option (list Subscriptions) :=
  match rows with
  | [] => Some []
  | r :: rows' =>
      match (if matchesb filters r then apply_update update_data r else Some r),
            update_rows filters update_data rows' with
      | Some r', Some rest => Some (r' :: rest)
      | _, _ => None
      end
  end.

(** The transaction commits or is rolled back whole. *)
Definition commit (rows : list Subscriptions) (next : Z) : M unit :=
  fun w => if constraints_hold rows then (Ok tt, set_db rows next w)
           else (Raise session_error, w).

Definition update_table (filters update_data : dict) : M unit :=
  fun w =>
    match select_filter_by filters (db w) with
    | None => (Raise session_error, w)
    | Some [] =>
        (* no record found: insert *)
        let data := dict_merge filters update_data in
        match construct (next_id w) data with
        | BadKeyword => (Raise unexpected_session_error, w)
        | NotInsertable => (Raise session_error, w)
        | Constructed r =>
            let next := match dict_lookup "id" data with
                        | Some (PInt _) => next_id w
                        | _ => next_id w + 1
                        end in
            commit (db w ++ [r]) next w
        end
    | Some (_ :: _) =>
        (* update all matching rows *)
        match update_rows filters update_data (db w) with
        | Some rows' => commit rows' (next_id w) w
        | None => (Raise session_error, w)
        end
    end.

(** What is raised inside a session: an error of the database layer
    (an [SQLAlchemyError]) or any other exception. *)
Inductive session_exn : Type :=
| SQLAlchemyError
| OtherException (e : exn).

(** [async with get_session() as session: body].  The body is given the
    rows of the table; it returns its result with the rows as its
    writes leave them, or it raises.  When the body returns, the session
    commits.  When the body raises, or the commit is refused, the
    transaction is rolled back and an [HTTPException] of status 500
    takes the place of the exception: [Database session error] for an
    [SQLAlchemyError], [Unexpected database session error] for any
    other. *)
Definition get_session {A}
  (body : list Subscriptions -> (A * list Subscriptions) + session_exn) : M A :=
  fun w =>
    match body (db w) with
    | inl (a, rows) =>
        (* await session.commit() *)
        if constraints_hold rows then (Ok a, set_db rows (next_id w) w)
        else (Raise session_error, w)
    | inr SQLAlchemyError => (Raise session_error, w)
    | inr (OtherException _) => (Raise unexpected_session_error, w)
    end.

(** [delete_from_table].  The rows that the filters select are deleted
    (each by its primary key, which tells the rows of a table apart);
    when there is none, the function raises [HTTPException(404)] inside
    the session.  Its own [except SQLAlchemyError] has nothing to
    catch: no exception of that class leaves [get_session]. *)
Definition delete_from_table (filters : dict) : M unit :=
  get_session
    (fun rows =>
       match select_filter_by filters rows with
       | None => inr SQLAlchemyError
       | Some [] => inr (OtherException (HTTPException 404 "Record not found"))
       | Some (_ :: _) =>
           (* session.delete(row) for each row *)
           inl (tt, filter (fun r => negb (matchesb filters r)) rows)
       end).

(** ** [app/subs_db.py] *)

(** [Base.metadata.create_all]: the table exists afterwards; its rows
    are untouched. *)
Definition setup_table : M unit := ret tt.

Definition fetch_expiring_subscriptions (env : Env) : M (list Subscriptions) :=
  now <- datetime_now env ;;
  renewal_threshold <-
    of_option OverflowError
      (dt_add now (timedelta_seconds (RENEWAL_INTERVAL (config env)))) ;;
  let renewal_threshold_str := strftime renewal_threshold in
  fun w =>
    (Ok (filter (fun r => (expires r <=? renewal_threshold_str)%string) (db w)),
     w).

(** ** [app/ns.py] *)

(** [timedelta(seconds=v)] *)
Definition timedelta_of_seconds (v : pyval) : M timedelta :=
  match v with
  | PInt z =>
      if (-999999999 * 86400 <=? z) && (z <? 1000000000 * 86400)
      then ret (timedelta_seconds z)
      else raise OverflowError
  | _ => raise TypeError
  end.

(** The stamping of a token response with its absolute expiry. *)
Definition stamp_expires (env : Env) (token_data : dict) : M dict :=
  let expires_in := dict_get_default "expires_in" (PInt 0) token_data in
  now <- datetime_now env ;;
  delta <- timedelta_of_seconds expires_in ;;
  e <- of_option OverflowError (dt_add now delta) ;;
  ret (dict_set "expires" (PStr (strftime e)) token_data).

Definition get_token (env : Env) (username password : string) : M dict :=
  response <- http env (PostToken username password) ;;
  if status_code response =? 200 then
    let token_data := json response in
    if truthy (dict_get "access_token" token_data) then
      stamp_expires env token_data
    else raise (Exception "Oauth Failed to return an access token")
  else raise (Exception "Failed to get token").

Definition refresh_access_token (env : Env) (refresh_token : string) : M dict :=
  response <- http env (PostRefresh refresh_token) ;;
  if status_code response =? 200 then
    stamp_expires env (json response)
  else raise (Exception "Failed to refresh token").

Definition parse_iso (env : Env) (v : pyval) : M datetime :=
  match v with
  | PStr s => of_option (Exception "Invalid isoformat string") (fromisoformat env s)
  | _ => raise TypeError
  end.

Definition create_subscription (env : Env)
  (model post_url domain user : string) (token : pyval) : M dict :=
  response <- http env (PostSubscription model post_url domain user token) ;;
  if (status_code response =? 200) || (status_code response =? 201) then
    try_except
      (let subscription_data := json response in
       created <- parse_iso env
                    (dict_get "subscription-creation-datetime" subscription_data) ;;
       let subscription_data :=
         dict_set "created_at" (PStr (strftime created)) subscription_data in
       expiry <- parse_iso env
                   (dict_get "subscription-expires-datetime" subscription_data) ;;
       ret (dict_set "expires_at" (PStr (strftime expiry)) subscription_data))
      (fun _ => raise (Exception "Failed to parse subscription response"))
  else
    raise (Exception ("Failed to create subscription. Status: "
                      ++ str (PInt (status_code response)))%string).

Definition update_subscription (env : Env)
  (new_expire subscription_id token domain : string) : M unit :=
  response <- http env (PutSubscription new_expire subscription_id token domain) ;;
  if status_code response =? 202 then ret tt
  else
    raise (Exception ("Failed to update subscription. Status: "
                      ++ str (PInt (status_code response)))%string).

(** ** [app/main.py]: the renewal engine *)

(** The body of the inner loop [for sublist in expiring_subs]. *)
Definition renew_subscription (env : Env)
  (new_expire new_oauth_token : string) (new_refresh_token : pyval)
  (sublist : Subscriptions) : M unit :=
  (* update subscription via NMS API *)
  update_subscription env new_expire (subscription_id sublist)
                      new_oauth_token (domain sublist) ;;;
  (* update DB *)
  now <- datetime_now env ;;
  let update_data :=
    [("expires", PStr new_expire);
     ("last_updated", PStr (strftime now));
     ("oauth_token", PStr new_oauth_token);
     ("refresh_token", new_refresh_token)] in
  update_table [("subscription_id", PStr (subscription_id sublist))] update_data.

(** [expiring_subs[0]] *)
Definition first_of {A} (l : list A) : M A :=
  match l with x :: _ => ret x | [] => raise IndexError end.

(** The body of the outer loop [for sub in expiring_domain]. *)
Definition renew_domain (env : Env) (new_expire : string) (sub : string) : M unit :=
  (* find all the subscriptions for the current domain *)
  expiring_subs <- read_from_table [("domain", PStr sub)] ;;
  (* renew the token with the first row returned *)
  first <- first_of expiring_subs ;;
  new_token_data <- refresh_access_token env (refresh_token first) ;;
  if truthy (dict_get "access_token" new_token_data) then
    let new_oauth_token := str (dict_get "access_token" new_token_data) in
    let new_refresh_token := dict_get "refresh_token" new_token_data in
    (* update each subscription *)
    for_each expiring_subs
      (renew_subscription env new_expire new_oauth_token new_refresh_token)
  else raise (Exception "Failed to get new token for {sub.domain}").

Definition check_and_update_subscriptions (env : Env) : M unit :=
  (* find all expiring/expired subscriptions *)
  subscriptions <- fetch_expiring_subscriptions env ;;
  (* the unique domains with expiring subscriptions *)
  let expiring_domain := set_order env (map domain subscriptions) in
  match expiring_domain with
  | _ :: _ =>
      (* generate a new expiration time *)
      now <- datetime_now env ;;
      new_expire_dt_obj <-
        of_option OverflowError (dt_add now (SUBSCRIPTION_DURATION (config env))) ;;
      let new_expire := strftime new_expire_dt_obj in
      for_each expiring_domain (renew_domain env new_expire)
  | [] => ret tt
  end.

(** [while True: sleep; check], observed for [n] turns.  [Ok tt] means
    that the loop is still running after them. *)
Fixpoint renewal_loop (env : Env) (n : nat) : M unit :=
  match n with
  | O => ret tt
  | S n' =>
      sleep (RENEWAL_INTERVAL (config env)) ;;;
      check_and_update_subscriptions env ;;;
      renewal_loop env n'
  end.

Definition start (env : Env) (n : nat) : M unit :=
  setup_table ;;;
  check_and_update_subscriptions env ;;;
  renewal_loop env n.

(** ** [app/main.py]: creation *)

Definition setup_new_subscription (env : Env) (request : SubscriptionRequest)
  : M dict :=
  (* trade un/pw for tokens *)
  token_dict <-
    try_except (get_token env (rq_username request) (rq_password request))
      (fun _ => raise (HTTPException 401 "Authentication failed")) ;;
  let access_token := dict_get "access_token" token_dict in
  if negb (truthy access_token) then
    raise (HTTPException 500 "Failed to retrieve access token")
  else
    created <-
      try_except
        (subscription_response <-
           create_subscription env (rq_model request) (rq_post_url request)
             (rq_domain request) (rq_user request) access_token ;;
         let subscription_id := dict_get "subscription_id" subscription_response in
         if negb (truthy subscription_id) then
           raise (Exception "Failed to retrieve subscription ID from NS API")
         else ret (subscription_response, subscription_id))
        (fun e => raise (HTTPException 500 (exn_str e))) ;;
    let '(subscription_response, subscription_id) := created in
    let expires_value :=
      py_or (dict_get "expires_at" subscription_response)
            (dict_get "subscription-expires-datetime" subscription_response) in
    (* update database with new subscription info *)
    try_except
      (now <- datetime_now env ;;
       let update_data :=
         [("subscription_id", subscription_id);
          ("domain", PStr (rq_domain request));
          ("model", PStr (rq_model request));
          ("expires", expires_value);
          ("post_url", PStr (rq_post_url request));
          ("user", PStr (rq_user request));
          ("oauth_token", access_token);
          ("renewal_token", dict_get "refresh_token" token_dict);
          ("last_updated", PStr (strftime now))] in
       let filters := [("subscription_id", subscription_id)] in
       update_table filters update_data)
      (fun _ =>
         raise (HTTPException 500
                  "Failed to update database with subscription info")) ;;;
    ret [("status", PStr "success");
         ("subscription_id", subscription_id);
         ("expires", expires_value)].

(** ** [app/scheduler.py]: the periodic job of the scheduler *)

Module Scheduler.

(** The statement [update(Subscriptions).where(Subscriptions.id == id)
    .values(last_updated=lu)]. *)
Definition execute_update (id : Z) (lu : string) (rows : list Subscriptions)
  : list Subscriptions :=
  map (fun r =>
         if row_id r =? id then
           mkSubscriptions (row_id r) (Some lu) (domain r) (model r) (expires r)
             (subscription_id r) (post_url r) (user r) (oauth_token r)
             (refresh_token r)
         else r) rows.

(** Whatever fails between the query and the commit is logged and
    rolled back; the function then returns normally. *)
Definition update_expiring_subscriptions (env : Env) : M unit :=
  now <- datetime_now env ;;
  expiration_threshold <-
    of_option OverflowError (dt_add now (TIME_BEFORE_EXPIRATION (config env))) ;;
  let renewal_threshold_str := strftime expiration_threshold in
  try_except
    (fun w =>
       (* query subscriptions that are expiring within the threshold *)
       let expiring_subscriptions :=
         filter (fun r => (expires r <=? renewal_threshold_str)%string) (db w) in
       (* update only the last_updated field *)
       let rows :=
         fold_left
           (fun rows subscription =>
              execute_update (row_id subscription) (strftime now) rows)
           expiring_subscriptions (db w) in
       commit rows (next_id w) w)
    (fun _ => ret tt).

(** [async with get_session() as session: ...] *)
Definition check_and_update_subscriptions (env : Env) : M unit :=
  try_except (update_expiring_subscriptions env)
    (fun _ => raise unexpected_session_error).

End Scheduler.

(* ================================================================== *)
(** * Part V.  Vocabulary of the statements *)
(* ================================================================== *)

(** ** Calendar *)

Definition year_length (y : Z) : Z := if is_leap y then 366 else 365.

(** The month tables with the leap flag made explicit. *)
Definition dim (leap : bool) (m : Z) : Z :=
  if (m =? 2) && leap then 29 else table DAYS_IN_MONTH m.

Definition dbm (leap : bool) (m : Z) : Z :=
  table DAYS_BEFORE_MONTH m + (if (2 <? m) && leap then 1 else 0).

(** The search of the month inside a year, as [ord2ymd] ends. *)
Definition month_search (leap : bool) (n : Z) : Z * Z :=
  let m := Z.shiftr (n + 50) 5 in
  let preceding :=
    table DAYS_BEFORE_MONTH m + (if (2 <? m) && leap then 1 else 0) in
  if n <? preceding then
    let m := m - 1 in
    let preceding :=
      preceding
      - (table DAYS_IN_MONTH m + (if (m =? 2) && leap then 1 else 0)) in
    (m, n - preceding + 1)
  else (m, n - preceding + 1).

Definition month_search_ok (leap : bool) (n : Z) : bool :=
  let '(m, d) := month_search leap n in
  (1 <=? m) && (m <=? 12) && (1 <=? d) && (d <=? dim leap m)
  && (dbm leap m + d =? n + 1).

(** The stored [expires] of [row] is the rendering of the instant [e]. *)
Definition renders (row : Subscriptions) (e : datetime) : Prop :=
  valid e /\ four_digit_year e /\ microsecond e = 0 /\ expires row = strftime e.

(** ** One cycle *)

(** The world after one reading of the clock. *)
Definition tick (w : World) : World :=
  mkWorld (db w) (next_id w) (exchanges w) (S (ticks w)) (commits w).

(** The threshold of the scan that starts in [w]. *)
Definition scan_threshold (env : Env) (w : World) : option datetime :=
  dt_add (clock env (ticks w)) (timedelta_seconds (RENEWAL_INTERVAL (config env))).

Definition expiring (thr : datetime) (rows : list Subscriptions)
  : list Subscriptions :=
  filter (fun r => (expires r <=? strftime thr)%string) rows.

(** The domains that the cycle starting in [w] goes through, in order. *)
Definition expiring_domain (env : Env) (w : World) : list string :=
  match scan_threshold env w with
  | Some thr => set_order env (map domain (expiring thr (db w)))
  | None => []
  end.

(** The expiry that the cycle starting in [w] grants. *)
Definition cycle_expiry (env : Env) (w : World) : option datetime :=
  dt_add (clock env (S (ticks w))) (SUBSCRIPTION_DURATION (config env)).

(** The [new_expire] string of that cycle (empty when the cycle computes
    none). *)
Definition new_expire_of (env : Env) (w : World) : string :=
  match cycle_expiry env w with
  | Some new_dt => strftime new_dt
  | None => ""
  end.

(** ** The write of the renewal path *)

(** The row after a renewal write: [expires], [last_updated],
    [oauth_token] and [refresh_token] change together, the other
    columns stay. *)
Definition renewed (new_expire lu tok rtok : string) (row : Subscriptions)
  : Subscriptions :=
  mkSubscriptions (row_id row) (Some lu) (domain row) (model row) new_expire
    (subscription_id row) (post_url row) (user row) tok rtok.

Definition renewal_data (new_expire lu tok : string) (rt : pyval) : dict :=
  [("expires", PStr new_expire);
   ("last_updated", PStr lu);
   ("oauth_token", PStr tok);
   ("refresh_token", rt)].

Definition has_id (sid : string) (row : Subscriptions) : bool :=
  String.eqb (subscription_id row) sid.

Definition put_call (ne tok : string) (sublist : Subscriptions) : RemoteCall :=
  PutSubscription ne (subscription_id sublist) tok (domain sublist).

Definition update_failed (status : Z) : exn :=
  Exception ("Failed to update subscription. Status: " ++ str (PInt status))%string.

Definition refresh_failed : exn := Exception "Failed to refresh token".

Definition no_access_token : exn :=
  Exception "Failed to get new token for {sub.domain}".

(** ** What a cycle may do to the world *)

(** The credential pair that a successful refresh exchange carries. *)
Definition token_pair (ev : Event) (tok rtok : string) : Prop :=
  exists rt,
    fst ev = PostRefresh rt
    /\ status_code (snd ev) = 200
    /\ truthy (dict_get "access_token" (json (snd ev))) = true
    /\ tok = str (dict_get "access_token" (json (snd ev)))
    /\ dict_get "refresh_token" (json (snd ev)) = PStr rtok.

(** The requests of an exchange stay within the domains [D]. *)
Definition push_within (D : string -> Prop) (ev : Event) : Prop :=
  match fst ev with
  | PutSubscription _ _ _ d => D d
  | PostRefresh _ => True
  | _ => False
  end.

(** A row of the table is as it was, or it belongs to a domain of [D] and
    carries the new expiry together with the pair of one refresh among
    the exchanges [evs]. *)
Definition row_step (new_expire : string) (D : string -> Prop)
  (evs : list Event) (row row' : Subscriptions) : Prop :=
  row' = row
  \/ (D (domain row)
      /\ exists lu tok rtok,
           row' = renewed new_expire lu tok rtok row
           /\ exists ev, In ev evs /\ token_pair ev tok rtok).

Definition rows_step (new_expire : string) (D : string -> Prop) (w0 : World)
  (evs : list Event) (rows : list Subscriptions) : Prop :=
  Forall2 (row_step new_expire D evs) (db w0) rows.

(** The world [w] comes from [w0] by exchanges and commits of a cycle
    that grants [new_expire] and works on the domains [D]. *)
Definition evolves (new_expire : string) (D : string -> Prop) (w0 w : World)
  : Prop :=
  exists evs snaps,
    exchanges w = exchanges w0 ++ evs
    /\ commits w = commits w0 ++ snaps
    /\ Forall (push_within D) evs
    /\ rows_step new_expire D w0 evs (db w)
    /\ Forall (rows_step new_expire D w0 evs) snaps
    /\ db w = last snaps (db w0).

(** A refresh since [w0] has delivered the pair. *)
Definition pair_available (w0 w : World) (tok rtok : string) : Prop :=
  exists pre ev post,
    exchanges w = exchanges w0 ++ pre ++ ev :: post /\ token_pair ev tok rtok.

Definition ready (new_expire : string) (D : string -> Prop) (w0 : World)
  (tok : string) (rt : pyval) (w : World) : Prop :=
  evolves new_expire D w0 w
  /\ forall rtok, rt = PStr rtok -> pair_available w0 w tok rtok.

(** A push for a subscription of domain [d]. *)
Definition push_for (d : string) (ev : Event) : Prop :=
  exists ne sid tok, fst ev = PutSubscription ne sid tok d.


(** The token refresh of domain [d] fails in world [w]: the platform
    refuses it, its response cannot be stamped, or it carries no access
    token. *)
Definition refresh_fails (env : Env) (d : string) (w : World) : Prop :=
  match filter (fun row => String.eqb (domain row) d) (db w) with
  | first :: _ =>
      match refresh_access_token env (refresh_token first) w with
      | (Ok td, _) => truthy (dict_get "access_token" td) = false
      | (Raise _, _) => True
      end
  | [] => False
  end.

(** An operation that leaves the [refresh_token] column of every row, and
    the number of rows, as they are. *)
Definition keeps_refresh_tokens {A} (m : M A) : Prop :=
  forall w, map refresh_token (db (snd (m w))) = map refresh_token (db w).

(** ** Vocabulary of the further properties *)

(** The names that the table stores a value under: the attributes of the
    model except [created_at], which the database server assigns. *)
Definition is_column (k : string) : bool :=
  is_attribute k && negb (String.eqb k "created_at").

(** What a row is apart from its [last_updated]. *)
Definition without_last_updated (r : Subscriptions) : Subscriptions :=
  mkSubscriptions (row_id r) None (domain r) (model r) (expires r)
    (subscription_id r) (post_url r) (user r) (oauth_token r) (refresh_token r).

(** The columns that identify a subscription and its delivery; no
    renewal writes them. *)
Definition identity (r : Subscriptions)
  : Z * string * string * string * string * string :=
  (row_id r, domain r, model r, subscription_id r, post_url r, user r).

(** The status of the response that an exception of a request handler
    is answered with. *)
Definition is_http (status : Z) (e : exn) : Prop :=
  exists detail, e = HTTPException status detail.

(** A row with its [last_updated] set. *)
Definition with_last_updated (lu : string) (r : Subscriptions) : Subscriptions :=
  mkSubscriptions (row_id r) (Some lu) (domain r) (model r) (expires r)
    (subscription_id r) (post_url r) (user r) (oauth_token r) (refresh_token r).

(** The threshold of the job of the scheduler that starts in [w]. *)
Definition job_threshold (env : Env) (w : World) : option datetime :=
  dt_add (clock env (ticks w)) (TIME_BEFORE_EXPIRATION (config env)).

(** The exchange of a push for row [r] that the platform accepted. *)
Definition accepted_push (ne tok : string) (r : Subscriptions) (ev : Event) : Prop :=
  fst ev = put_call ne tok r /\ status_code (snd ev) = 202.

(** What a successful renewal of the rows selected by [sel] leaves of a
    row: the selected rows renewed as a whole, the others as they
    were. *)
Definition renewed_where (sel : Subscriptions -> bool) (ne : string)
  (r r' : Subscriptions) : Prop :=
  if sel r then exists lu tok rtok, r' = renewed ne lu tok rtok r else r' = r.

(** The [update_data] of the creation flow. *)
Definition creation_data (request : SubscriptionRequest)
  (subscription_id expires_value access_token refresh : pyval) (lu : string)
  : dict :=
  [("subscription_id", subscription_id);
   ("domain", PStr (rq_domain request));
   ("model", PStr (rq_model request));
   ("expires", expires_value);
   ("post_url", PStr (rq_post_url request));
   ("user", PStr (rq_user request));
   ("oauth_token", access_token);
   ("renewal_token", refresh);
   ("last_updated", PStr lu)].

(** The request for a token and the request for a subscription of the
    creation flow. *)
Definition token_call (request : SubscriptionRequest) : RemoteCall :=
  PostToken (rq_username request) (rq_password request).

Definition creation_call (request : SubscriptionRequest) (token : pyval)
  : RemoteCall :=
  PostSubscription (rq_model request) (rq_post_url request) (rq_domain request)
    (rq_user request) token.

(** The errors that the creation flow answers a request with. *)
Definition creation_error (e : exn) : Prop :=
  e = HTTPException 401 "Authentication failed"
  \/ e = HTTPException 500 "Failed to parse subscription response"
  \/ (exists status,
        status <> 200 /\ status <> 201
        /\ e = HTTPException 500
                 ("Failed to create subscription. Status: " ++ str (PInt status))%string)
  \/ e = HTTPException 500 "Failed to retrieve subscription ID from NS API"
  \/ e = HTTPException 500 "Failed to update database with subscription info".

(* ================================================================== *)
(** * Part VI.  Scenarios *)
(* ================================================================== *)

(** Concrete tables, platforms and environments on which the service is
    run in the examples below. *)

Module Scenario.

Definition clock0 (n : nat) : datetime :=
  mkdatetime 2024 2 28 23 59 30 (123456 + Z.of_nat n).

Definition row (i : Z) (d sid e rt : string) : Subscriptions :=
  mkSubscriptions i None d "call" e sid "https://example.com/callback" "1001"
    "token-0" rt.

(** Two domains; in [a.com] the refresh tokens differ and [s2] is far
    from its expiry. *)
Definition table0 : list Subscriptions :=
  [row 1 "a.com" "s1" "2024-02-28 23:00:00" "ra";
   row 2 "a.com" "s2" "2024-03-20 00:00:00" "rb";
   row 3 "b.com" "s3" "2024-02-29 00:10:00" "rc"].

Definition world0 : World := mkWorld table0 4 [] 0 [].

Definition token_body (a r : string) : dict :=
  [("access_token", PStr a); ("refresh_token", PStr r); ("expires_in", PInt 3600)].

(** A platform that accepts every request. *)
Definition platform_ok (_ : list Event) (c : RemoteCall) : Response :=
  match c with
  | PostToken _ _ => mkResponse 200 (token_body "AT" "RT")
  | PostRefresh rt => mkResponse 200 (token_body ("A-" ++ rt) ("R-" ++ rt))
  | PostSubscription _ _ _ _ _ =>
      mkResponse 201
        [("subscription_id", PStr "s9");
         ("subscription-creation-datetime", PStr "2024-02-28T23:59:30");
         ("subscription-expires-datetime", PStr "2024-02-29T23:59:30")]
  | PutSubscription _ _ _ _ => mkResponse 202 []
  end.

(** A platform that refuses every token refresh. *)
Definition platform_refresh_down (h : list Event) (c : RemoteCall) : Response :=
  match c with
  | PostRefresh _ => mkResponse 401 []
  | _ => platform_ok h c
  end.

(** A platform that refuses the push for subscription [s1]. *)
Definition platform_push_down (h : list Event) (c : RemoteCall) : Response :=
  match c with
  | PutSubscription _ "s1" _ _ => mkResponse 500 []
  | _ => platform_ok h c
  end.

(** A platform that refuses the refresh of the token [rc] of [b.com]. *)
Definition platform_rc_down (h : list Event) (c : RemoteCall) : Response :=
  match c with
  | PostRefresh "rc" => mkResponse 401 []
  | _ => platform_ok h c
  end.

Definition env_of (p : list Event -> RemoteCall -> Response) : Env :=
  mkEnv (load_config None None) p clock0 (nodup string_dec)
        (fun _ => Some (clock0 0)).

(** The table of the scenario with one more row, which already bears the
    identifier [s9] that the platform assigns at creation. *)
Definition table9 : list Subscriptions :=
  table0 ++ [row 4 "c.com" "s9" "2024-02-28 23:30:00" "r9"].

Definition world9 : World := mkWorld table9 5 [] 0 [].

Definition request0 : SubscriptionRequest :=
  mkSubscriptionRequest "c.com" "call" "https://example.com/callback" "1001"
    "apiuser" "secret".

Definition stored_instant : datetime := mkdatetime 2024 2 29 0 10 0 0.
Definition threshold_instant : datetime := mkdatetime 2024 2 29 0 59 30 123456.

Definition granted_instant : datetime := mkdatetime 2024 2 29 23 59 30 123457.

Definition s1_row : Subscriptions := row 1 "a.com" "s1" "2024-02-28 23:00:00" "ra".
Definition s2_row : Subscriptions := row 2 "a.com" "s2" "2024-03-20 00:00:00" "rb".

(** The refresh of domain [a.com] in the cycle that starts in [world0]:
    the token data it returns and the world it leaves. *)
Definition stamped_token : dict :=
  [("access_token", PStr "A-ra"); ("refresh_token", PStr "R-ra");
   ("expires_in", PInt 3600); ("expires", PStr "2024-02-29 00:59:30")].

Definition refreshed : World :=
  mkWorld table0 4 [(PostRefresh "ra", mkResponse 200 (token_body "A-ra" "R-ra"))]
          3 [].

(** The upsert of a subscription that the table does not hold yet. *)
Definition new_filters : dict := [("subscription_id", PStr "s9")].

Definition new_data : dict :=
  [("domain", PStr "c.com"); ("model", PStr "call");
   ("expires", PStr "2024-02-29 23:59:30");
   ("post_url", PStr "https://example.com/callback"); ("user", PStr "1001");
   ("oauth_token", PStr "AT"); ("refresh_token", PStr "RT");
   ("last_updated", PStr "2024-02-28 23:59:30")].

(** A platform whose token refresh returns an access token and no
    refresh token. *)
Definition platform_no_rotation (h : list Event) (c : RemoteCall) : Response :=
  match c with
  | PostRefresh _ => mkResponse 200 [("access_token", PStr "AT2"); ("expires_in", PInt 3600)]
  | _ => platform_ok h c
  end.

(** A platform whose token responses carry an [expires_in] that is no
    number. *)
Definition platform_bad_expires_in (_ : list Event) (_ : RemoteCall) : Response :=
  mkResponse 200 [("access_token", PStr "AT"); ("expires_in", PStr "soon")].

End Scenario.

Import Scenario.

(* ================================================================== *)
(** * Part VII.  Calendar arithmetic *)
(* ================================================================== *)

Lemma is_leap_spec y :
  is_leap y = true <-> (y mod 4 = 0 /\ (y mod 100 <> 0 \/ y mod 400 = 0)).
Proof.
  unfold is_leap.
  rewrite andb_true_iff, orb_true_iff, negb_true_iff.
  rewrite !Z.eqb_eq, Z.eqb_neq. tauto.
Qed.

Lemma days_before_year_succ y :
  days_before_year (y + 1) = days_before_year y + year_length y.
Proof.
  unfold days_before_year, year_length.
  destruct (is_leap y) eqn:E.
  - apply is_leap_spec in E. Z.div_mod_to_equations. lia.
  - assert (H : ~ (y mod 4 = 0 /\ (y mod 100 <> 0 \/ y mod 400 = 0))).
    { rewrite <- is_leap_spec. congruence. }
    Z.div_mod_to_equations. lia.
Qed.

Lemma days_before_year_mono a b :
  a <= b -> days_before_year a <= days_before_year b.
Proof.
  unfold days_before_year. intros H. Z.div_mod_to_equations. lia.
Qed.

Lemma month_cases m :
  1 <= m <= 12 ->
  m = 1 \/ m = 2 \/ m = 3 \/ m = 4 \/ m = 5 \/ m = 6 \/
  m = 7 \/ m = 8 \/ m = 9 \/ m = 10 \/ m = 11 \/ m = 12.
Proof. lia. Qed.

Ltac each_month m H :=
  let C := fresh "C" in
  pose proof (month_cases m H) as C;
  repeat (destruct C as [C | C]); subst m.

Lemma dim_bounds leap m : 1 <= m <= 12 -> 28 <= dim leap m <= 31.
Proof. intros H. each_month m H; destruct leap; vm_compute; intuition discriminate. Qed.

Lemma dbm_mono leap a b :
  1 <= a -> a < b -> b <= 12 -> dbm leap a + dim leap a <= dbm leap b.
Proof.
  intros Ha Hab Hb.
  assert (H1 : 1 <= a <= 12) by lia. assert (H2 : 1 <= b <= 12) by lia.
  each_month a H1; each_month b H2; try lia; destruct leap; vm_compute; discriminate.
Qed.

Lemma dbm_year leap m : 1 <= m <= 12 -> dbm leap m + dim leap m <= if leap then 366 else 365.
Proof. intros H. each_month m H; destruct leap; vm_compute; discriminate. Qed.

Lemma dbm_nonneg leap m : 1 <= m <= 12 -> 0 <= dbm leap m.
Proof. intros H. each_month m H; destruct leap; vm_compute; discriminate. Qed.

Lemma ymd2ord_unfold y m d :
  ymd2ord y m d = days_before_year y + dbm (is_leap y) m + d.
Proof. reflexivity. Qed.

Lemma valid_date_unfold y m d :
  valid_date y m d <-> (1 <= y <= 9999 /\ 1 <= m <= 12 /\ 1 <= d <= dim (is_leap y) m).
Proof. reflexivity. Qed.

(** [ymd2ord] is strictly increasing for the order of the triples. *)
Lemma ymd2ord_lt y1 m1 d1 y2 m2 d2 :
  valid_date y1 m1 d1 -> valid_date y2 m2 d2 ->
  (y1 < y2 \/ (y1 = y2 /\ (m1 < m2 \/ (m1 = m2 /\ d1 < d2)))) ->
  ymd2ord y1 m1 d1 < ymd2ord y2 m2 d2.
Proof.
  rewrite !valid_date_unfold, !ymd2ord_unfold.
  intros (Hy1 & Hm1 & Hd1) (Hy2 & Hm2 & Hd2) H.
  destruct H as [H | [-> [H | [-> H]]]].
  - pose proof (days_before_year_mono (y1 + 1) y2 ltac:(lia)) as Hm.
    rewrite days_before_year_succ in Hm. unfold year_length in Hm.
    pose proof (dbm_year (is_leap y1) m1 Hm1).
    pose proof (dbm_nonneg (is_leap y2) m2 Hm2).
    destruct (is_leap y1); lia.
  - pose proof (dbm_mono (is_leap y2) m1 m2 ltac:(lia) H ltac:(lia)). lia.
  - lia.
Qed.

Lemma month_search_table :
  forallb (fun k => month_search_ok true (Z.of_nat k)
                    && month_search_ok false (Z.of_nat k)) (seq 0 365) = true.
Proof. vm_compute. reflexivity. Qed.

Lemma month_search_spec leap n :
  0 <= n < 365 ->
  let '(m, d) := month_search leap n in
  1 <= m <= 12 /\ 1 <= d <= dim leap m /\ dbm leap m + d = n + 1.
Proof.
  intros H.
  pose proof month_search_table as T.
  rewrite forallb_forall in T.
  specialize (T (Z.to_nat n)).
  rewrite in_seq, Z2Nat.id in T by lia.
  specialize (T ltac:(lia)).
  apply andb_true_iff in T.
  assert (K : month_search_ok leap n = true) by (destruct leap; tauto).
  unfold month_search_ok in K.
  destruct (month_search leap n) as [m d].
  rewrite !andb_true_iff in K.
  rewrite !Z.leb_le, Z.eqb_eq in K. lia.
Qed.

Lemma ord2ymd_unfold n :
  ord2ymd n =
  let n0 := n - 1 in
  let n400 := n0 / 146097 in
  let r400 := n0 mod 146097 in
  let n100 := r400 / 36524 in
  let r100 := r400 mod 36524 in
  let n4 := r100 / 1461 in
  let r4 := r100 mod 1461 in
  let n1 := r4 / 365 in
  let r1 := r4 mod 365 in
  let y := n400 * 400 + 1 + n100 * 100 + n4 * 4 + n1 in
  if (n1 =? 4) || (n100 =? 4) then (y - 1, 12, 31)
  else
    let '(m, d) := month_search ((n1 =? 3) && (negb (n4 =? 24) || (n100 =? 3))) r1 in
    (y, m, d).
Proof.
  unfold ord2ymd, month_search, DI400Y, DI100Y, DI4Y. cbv zeta.
  destruct ((_ =? 4) || (_ =? 4)); [reflexivity|].
  match goal with |- (if ?c then _ else _) = _ => destruct c end; reflexivity.
Qed.

Lemma ord2ymd_spec n :
  1 <= n <= MAXORDINAL ->
  let '(y, m, d) := ord2ymd n in
  valid_date y m d /\ ymd2ord y m d = n.
Proof.
  unfold MAXORDINAL. intros Hn.
  rewrite ord2ymd_unfold. cbv zeta.
  pose proof (Z.div_mod (n - 1) 146097 ltac:(lia)) as E400.
  pose proof (Z.mod_pos_bound (n - 1) 146097 ltac:(lia)) as B400.
  set (n400 := (n - 1) / 146097) in *.
  set (r400 := (n - 1) mod 146097) in *.
  pose proof (Z.div_mod r400 36524 ltac:(lia)) as E100.
  pose proof (Z.mod_pos_bound r400 36524 ltac:(lia)) as B100.
  set (n100 := r400 / 36524) in *.
  set (r100 := r400 mod 36524) in *.
  pose proof (Z.div_mod r100 1461 ltac:(lia)) as E4.
  pose proof (Z.mod_pos_bound r100 1461 ltac:(lia)) as B4.
  set (n4 := r100 / 1461) in *.
  set (r4 := r100 mod 1461) in *.
  pose proof (Z.div_mod r4 365 ltac:(lia)) as E1.
  pose proof (Z.mod_pos_bound r4 365 ltac:(lia)) as B1.
  set (n1 := r4 / 365) in *.
  set (r1 := r4 mod 365) in *.
  clearbody n400 r400 n100 r100 n4 r4 n1 r1.
  assert (Q400 : 0 <= n400 <= 24) by lia.
  assert (Q100 : 0 <= n100 <= 4) by lia.
  assert (Q4 : 0 <= n4 <= 24) by lia.
  assert (Q1 : 0 <= n1 <= 4) by lia.
  set (y := n400 * 400 + 1 + n100 * 100 + n4 * 4 + n1).
  destruct ((n1 =? 4) || (n100 =? 4)) eqn:Last.
  - (* the last day of a leap year *)
    apply orb_true_iff in Last. rewrite !Z.eqb_eq in Last.
    assert (L : is_leap (y - 1) = true).
    { apply is_leap_spec. subst y. Z.div_mod_to_equations. lia. }
    rewrite valid_date_unfold, ymd2ord_unfold, L.
    change (dim true 12) with 31. change (dbm true 12) with 335.
    unfold days_before_year. subst y.
    split; [lia|]. Z.div_mod_to_equations. lia.
  - apply orb_false_iff in Last. rewrite !Z.eqb_neq in Last.
    assert (L : is_leap y = (n1 =? 3) && (negb (n4 =? 24) || (n100 =? 3))).
    { apply eq_true_iff_eq. rewrite is_leap_spec.
      rewrite andb_true_iff, orb_true_iff, negb_true_iff, !Z.eqb_eq, Z.eqb_neq.
      subst y. Z.div_mod_to_equations. lia. }
    rewrite <- L.
    pose proof (month_search_spec (is_leap y) r1 B1) as S.
    destruct (month_search (is_leap y) r1) as [m d].
    rewrite valid_date_unfold, ymd2ord_unfold.
    destruct S as (Sm & Sd & Se).
    assert (D : days_before_year y = n - 1 - r1).
    { unfold days_before_year. subst y. Z.div_mod_to_equations. lia. }
    split; [|lia].
    split; [|tauto]. subst y. lia.
Qed.

Lemma date_compare y1 m1 d1 y2 m2 d2 :
  valid_date y1 m1 d1 -> valid_date y2 m2 d2 ->
  lex (y1 ?= y2) (lex (m1 ?= m2) (d1 ?= d2))
  = (ymd2ord y1 m1 d1 ?= ymd2ord y2 m2 d2).
Proof.
  intros V1 V2.
  pose proof (ymd2ord_lt y1 m1 d1 y2 m2 d2 V1 V2) as L.
  pose proof (ymd2ord_lt y2 m2 d2 y1 m1 d1 V2 V1) as G.
  symmetry.
  destruct (Z.compare_spec y1 y2) as [Hy | Hy | Hy]; simpl.
  - destruct (Z.compare_spec m1 m2) as [Hm | Hm | Hm]; simpl.
    + destruct (Z.compare_spec d1 d2) as [Hd | Hd | Hd].
      * subst. apply Z.compare_refl.
      * apply Z.compare_lt_iff. apply L. lia.
      * apply Z.compare_gt_iff. apply G. lia.
    + apply Z.compare_lt_iff. apply L. lia.
    + apply Z.compare_gt_iff. apply G. lia.
  - apply Z.compare_lt_iff. apply L. lia.
  - apply Z.compare_gt_iff. apply G. lia.
Qed.

Lemma lex_regroup a b c r : lex a (lex b (lex c r)) = lex (lex a (lex b c)) r.
Proof. destruct a, b; reflexivity. Qed.

(** The fields order the values as their microsecond counts do. *)
Lemma dt_compare_microseconds a b :
  valid a -> valid b ->
  dt_compare a b = (to_microseconds a ?= to_microseconds b).
Proof.
  intros [Da Ta] [Db Tb].
  unfold dt_compare.
  rewrite lex_regroup, (date_compare _ _ _ _ _ _ Da Db).
  unfold to_microseconds, valid_time, US_PER_SECOND in *.
  set (oa := ymd2ord (year a) (month a) (day a)).
  set (ob := ymd2ord (year b) (month b) (day b)).
  clearbody oa ob. symmetry.
  destruct (Z.compare_spec oa ob); simpl;
    [|apply Z.compare_lt_iff; lia|apply Z.compare_gt_iff; lia].
  destruct (Z.compare_spec (hour a) (hour b)); simpl;
    [|apply Z.compare_lt_iff; lia|apply Z.compare_gt_iff; lia].
  destruct (Z.compare_spec (minute a) (minute b)); simpl;
    [|apply Z.compare_lt_iff; lia|apply Z.compare_gt_iff; lia].
  destruct (Z.compare_spec (second a) (second b)); simpl;
    [|apply Z.compare_lt_iff; lia|apply Z.compare_gt_iff; lia].
  destruct (Z.compare_spec (microsecond a) (microsecond b)); simpl;
    [apply Z.compare_eq_iff|apply Z.compare_lt_iff|apply Z.compare_gt_iff]; lia.
Qed.

Lemma of_microseconds_spec u t :
  of_microseconds u = Some t -> valid t /\ to_microseconds t = u.
Proof.
  unfold of_microseconds.
  destruct ((0 <? u / US_PER_DAY) && (u / US_PER_DAY <=? MAXORDINAL)) eqn:R;
    [|discriminate].
  apply andb_true_iff in R. rewrite Z.ltb_lt, Z.leb_le in R.
  pose proof (ord2ymd_spec (u / US_PER_DAY) ltac:(lia)) as S.
  destruct (ord2ymd (u / US_PER_DAY)) as [[y m] d].
  destruct S as [V O].
  intros [= <-]. unfold valid, to_microseconds, valid_time. simpl.
  rewrite O. unfold US_PER_DAY, US_PER_SECOND in *.
  split; [split; [exact V|]|]; Z.div_mod_to_equations; lia.
Qed.

Lemma dt_add_spec t delta t' :
  dt_add t delta = Some t' ->
  valid t' /\ to_microseconds t' = to_microseconds t + delta.
Proof. apply of_microseconds_spec. Qed.

Lemma whole_second_valid t : valid t -> valid (whole_second t).
Proof.
  unfold valid, valid_time, whole_second, US_PER_SECOND. simpl. intuition lia.
Qed.

Lemma whole_second_microseconds t :
  valid t ->
  to_microseconds (whole_second t)
  = to_microseconds t / US_PER_SECOND * US_PER_SECOND.
Proof.
  intros [_ (_ & _ & _ & U)].
  unfold to_microseconds, whole_second, US_PER_SECOND in *. simpl.
  Z.div_mod_to_equations. lia.
Qed.

Lemma validb_valid t : validb t = true <-> valid t.
Proof.
  unfold validb, valid, valid_date, valid_time.
  rewrite !andb_true_iff, !Z.leb_le, !Z.ltb_lt. tauto.
Qed.

(** ** Rendering and order *)

Lemma digit_cases x :
  0 <= x < 10 ->
  x = 0 \/ x = 1 \/ x = 2 \/ x = 3 \/ x = 4 \/ x = 5 \/ x = 6 \/ x = 7 \/
  x = 8 \/ x = 9.
Proof. lia. Qed.

Lemma digit_compare x y :
  0 <= x < 10 -> 0 <= y < 10 ->
  Ascii.compare (digit x) (digit y) = (x ?= y).
Proof.
  intros Hx Hy.
  pose proof (digit_cases x Hx) as Cx. pose proof (digit_cases y Hy) as Cy.
  repeat (destruct Cx as [Cx | Cx]); subst x;
    repeat (destruct Cy as [Cy | Cy]); subst y; reflexivity.
Qed.

Lemma digit_mod x : digit (x mod 10) = digit x.
Proof. unfold digit. rewrite Z.mod_mod by lia. reflexivity. Qed.

Lemma two_digits_compare a b r :
  0 <= a < 100 -> 0 <= b < 100 ->
  lex (a / 10 ?= b / 10) (lex (a mod 10 ?= b mod 10) r) = lex (a ?= b) r.
Proof.
  intros Ha Hb.
  destruct (Z.compare_spec (a / 10) (b / 10)) as [E | L | G]; simpl.
  - destruct (Z.compare_spec (a mod 10) (b mod 10)) as [E' | L' | G']; simpl.
    + replace b with a by (Z.div_mod_to_equations; lia).
      rewrite Z.compare_refl. reflexivity.
    + replace (a ?= b) with Lt; [reflexivity|].
      symmetry. apply Z.compare_lt_iff. Z.div_mod_to_equations. lia.
    + replace (a ?= b) with Gt; [reflexivity|].
      symmetry. apply Z.compare_gt_iff. Z.div_mod_to_equations. lia.
  - replace (a ?= b) with Lt; [reflexivity|].
    symmetry. apply Z.compare_lt_iff. Z.div_mod_to_equations. lia.
  - replace (a ?= b) with Gt; [reflexivity|].
    symmetry. apply Z.compare_gt_iff. Z.div_mod_to_equations. lia.
Qed.

Lemma pad2_compare a b s t :
  0 <= a < 100 -> 0 <= b < 100 ->
  String.compare (pad2 a ++ s) (pad2 b ++ t)
  = lex (a ?= b) (String.compare s t).
Proof.
  intros Ha Hb. unfold pad2. cbn [String.append String.compare].
  rewrite <- (digit_mod a), <- (digit_mod b).
  rewrite !digit_compare by (Z.div_mod_to_equations; lia).
  rewrite <- two_digits_compare by assumption.
  destruct (a / 10 ?= b / 10); try reflexivity.
  destruct (a mod 10 ?= b mod 10); reflexivity.
Qed.

Lemma separator_compare c s t :
  String.compare (String c s) (String c t) = String.compare s t.
Proof.
  cbn [String.compare].
  replace (Ascii.compare c c) with Eq; [reflexivity|].
  unfold Ascii.compare. symmetry. apply N.compare_refl.
Qed.

Lemma str_of_Z_four_digits y :
  1000 <= y <= 9999 ->
  str_of_Z y = (pad2 (y / 100) ++ pad2 (y mod 100))%string.
Proof.
  intros H. unfold str_of_Z, pad2.
  assert (L : Z.log2 1000 <= Z.log2 y) by (apply Z.log2_le_mono; lia).
  change (Z.log2 1000) with 9 in L.
  destruct (Z.to_nat (Z.log2 y)) as [| [| [| fuel]]] eqn:F; try lia.
  cbn [decimal String.append].
  assert (E1 : (y <? 10) = false) by (apply Z.ltb_ge; lia).
  assert (E2 : (y / 10 <? 10) = false)
    by (apply Z.ltb_ge; Z.div_mod_to_equations; lia).
  assert (E3 : (y / 10 / 10 <? 10) = false)
    by (apply Z.ltb_ge; Z.div_mod_to_equations; lia).
  assert (E4 : (y / 10 / 10 / 10 <? 10) = true)
    by (apply Z.ltb_lt; Z.div_mod_to_equations; lia).
  rewrite E1, E2, E3, E4.
  assert (D : forall a b, a mod 10 = b mod 10 -> digit a = digit b).
  { intros a b E. unfold digit. rewrite E. reflexivity. }
  f_equal; [apply D; Z.div_mod_to_equations; lia|].
  f_equal; [apply D; Z.div_mod_to_equations; lia|].
  f_equal; [apply D; Z.div_mod_to_equations; lia|].
  f_equal. apply D. Z.div_mod_to_equations. lia.
Qed.

Lemma strftime_shape t :
  four_digit_year t ->
  strftime t =
  (pad2 (year t / 100) ++ pad2 (year t mod 100) ++ "-" ++ pad2 (month t)
   ++ "-" ++ pad2 (day t) ++ " " ++ pad2 (hour t) ++ ":" ++ pad2 (minute t)
   ++ ":" ++ pad2 (second t) ++ "")%string.
Proof.
  intros H. unfold strftime. rewrite (str_of_Z_four_digits _ H).
  unfold pad2. reflexivity.
Qed.

(** The strings compare as the values do once their sub-second parts are
    dropped. *)
Lemma strftime_compare a b :
  valid a -> valid b -> four_digit_year a -> four_digit_year b ->
  String.compare (strftime a) (strftime b)
  = dt_compare (whole_second a) (whole_second b).
Proof.
  intros [Da Ta] [Db Tb] Ya Yb.
  rewrite (strftime_shape a Ya), (strftime_shape b Yb).
  unfold four_digit_year in *.
  rewrite valid_date_unfold in Da, Db.
  pose proof (dim_bounds (is_leap (year a)) (month a) ltac:(tauto)).
  pose proof (dim_bounds (is_leap (year b)) (month b) ltac:(tauto)).
  unfold valid_time in *.
  rewrite pad2_compare by (Z.div_mod_to_equations; lia).
  rewrite pad2_compare by (Z.div_mod_to_equations; lia).
  change ("-" ++ ?s)%string with (String "-" s). rewrite separator_compare.
  rewrite pad2_compare by lia.
  change ("-" ++ ?s)%string with (String "-" s). rewrite separator_compare.
  rewrite pad2_compare by lia.
  change (" " ++ ?s)%string with (String " " s). rewrite separator_compare.
  rewrite pad2_compare by lia.
  change (":" ++ ?s)%string with (String ":" s). rewrite separator_compare.
  rewrite pad2_compare by lia.
  change (":" ++ ?s)%string with (String ":" s). rewrite separator_compare.
  rewrite pad2_compare by lia.
  assert (Y : forall r,
             lex (year a / 100 ?= year b / 100)
                 (lex (year a mod 100 ?= year b mod 100) r)
             = lex (year a ?= year b) r).
  { intros r.
    destruct (Z.compare_spec (year a / 100) (year b / 100)) as [E | L | G]; simpl.
    - destruct (Z.compare_spec (year a mod 100) (year b mod 100)) as [E' | L' | G']; simpl.
      + replace (year b) with (year a) by (Z.div_mod_to_equations; lia).
        rewrite Z.compare_refl. reflexivity.
      + replace (year a ?= year b) with Lt; [reflexivity|].
        symmetry. apply Z.compare_lt_iff. Z.div_mod_to_equations. lia.
      + replace (year a ?= year b) with Gt; [reflexivity|].
        symmetry. apply Z.compare_gt_iff. Z.div_mod_to_equations. lia.
    - replace (year a ?= year b) with Lt; [reflexivity|].
      symmetry. apply Z.compare_lt_iff. Z.div_mod_to_equations. lia.
    - replace (year a ?= year b) with Gt; [reflexivity|].
      symmetry. apply Z.compare_gt_iff. Z.div_mod_to_equations. lia. }
  rewrite Y. unfold dt_compare, whole_second. simpl. reflexivity.
Qed.

(* ================================================================== *)
(** * Part VIII.  The engine, step by step *)
(* ================================================================== *)

(** ** The monad *)

Lemma bind_ok {A B} (m : M A) (k : A -> M B) w a w1 :
  m w = (Ok a, w1) -> bind m k w = k a w1.
Proof. unfold bind. intros ->. reflexivity. Qed.

Lemma bind_raise {A B} (m : M A) (k : A -> M B) w e w1 :
  m w = (Raise e, w1) -> bind m k w = (Raise e, w1).
Proof. unfold bind. intros ->. reflexivity. Qed.

Lemma bind_inv {A B} (m : M A) (k : A -> M B) w r w' :
  bind m k w = (r, w') ->
  (exists a w1, m w = (Ok a, w1) /\ k a w1 = (r, w'))
  \/ (exists e, m w = (Raise e, w') /\ r = Raise e).
Proof.
  unfold bind. destruct (m w) as [[a | e] w1]; intros H.
  - left. eauto.
  - right. inversion H; subst. eauto.
Qed.

(** A failure inside a loop ends the loop where it happens. *)
Lemma for_each_raise {A} (body : A -> M unit) pre x post w w1 e w2 :
  for_each pre body w = (Ok tt, w1) ->
  body x w1 = (Raise e, w2) ->
  for_each (pre ++ x :: post) body w = (Raise e, w2).
Proof.
  revert w. induction pre as [| y pre IH]; intros w Hpre Hx; simpl in *.
  - inversion Hpre; subst. apply bind_raise. exact Hx.
  - apply bind_inv in Hpre. destruct Hpre as [(u & wy & Hy & Hrest) | (e' & _ & He)];
      [|discriminate].
    rewrite (bind_ok _ _ _ _ _ Hy). apply IH; assumption.
Qed.

(** ** The write of the renewal path *)

Lemma matchesb_subscription_id sid row :
  matchesb [("subscription_id", PStr sid)] row = has_id sid row.
Proof. unfold matchesb, has_id. simpl. apply andb_true_r. Qed.

Lemma matchesb_domain d row :
  matchesb [("domain", PStr d)] row = String.eqb (domain row) d.
Proof. unfold matchesb. simpl. apply andb_true_r. Qed.

Lemma apply_renewal_data ne lu tok rt row :
  apply_update (renewal_data ne lu tok rt) row
  = match rt with
    | PStr rtok => Some (renewed ne lu tok rtok row)
    | _ => None
    end.
Proof. destruct row, rt; reflexivity. Qed.

Lemma update_rows_renewal sid ne lu tok rtok rows :
  update_rows [("subscription_id", PStr sid)] (renewal_data ne lu tok (PStr rtok)) rows
  = Some (map (fun row => if has_id sid row then renewed ne lu tok rtok row else row)
              rows).
Proof.
  induction rows as [| row rows IH]; [reflexivity|].
  cbn [update_rows map]. rewrite IH, matchesb_subscription_id, apply_renewal_data.
  destruct (has_id sid row); reflexivity.
Qed.

Lemma update_rows_rejected sid ne lu tok rt rows :
  (forall rtok, rt <> PStr rtok) ->
  existsb (has_id sid) rows = true ->
  update_rows [("subscription_id", PStr sid)] (renewal_data ne lu tok rt) rows = None.
Proof.
  intros Hrt. induction rows as [| row rows IH]; [discriminate|].
  cbn [update_rows existsb]. rewrite matchesb_subscription_id, apply_renewal_data.
  destruct (has_id sid row) eqn:E; simpl.
  - intros _. destruct rt; try reflexivity. exfalso. eapply Hrt. reflexivity.
  - intros H. rewrite (IH H). reflexivity.
Qed.

Lemma filter_nil_existsb {A} (p : A -> bool) l :
  filter p l = [] <-> existsb p l = false.
Proof.
  induction l as [| x l IH]; simpl; [tauto|].
  destruct (p x); simpl; [split; discriminate|exact IH].
Qed.

(** A renewal write changes the table in one commit, or not at all. *)
Lemma update_table_renewal sid ne lu tok rt w :
  update_table [("subscription_id", PStr sid)] (renewal_data ne lu tok rt) w
  = match rt with
    | PStr rtok =>
        let rows' :=
          map (fun row => if has_id sid row then renewed ne lu tok rtok row else row)
              (db w) in
        if existsb (has_id sid) (db w) && constraints_hold rows'
        then (Ok tt, set_db rows' (next_id w) w)
        else (Raise session_error, w)
    | _ => (Raise session_error, w)
    end.
Proof.
  unfold update_table, select_filter_by.
  change (forallb filter_ok [("subscription_id", PStr sid)]) with true. cbv iota.
  rewrite (filter_ext _ _ (matchesb_subscription_id sid)).
  destruct (filter (has_id sid) (db w)) as [| row0 sel] eqn:F.
  - apply filter_nil_existsb in F. rewrite F. simpl.
    destruct rt; reflexivity.
  - assert (E : existsb (has_id sid) (db w) = true).
    { destruct (existsb (has_id sid) (db w)) eqn:E; [reflexivity|].
      apply filter_nil_existsb in E. congruence. }
    rewrite E. simpl.
    destruct rt as [| rtok | z].
    + rewrite update_rows_rejected; [reflexivity|discriminate|exact E].
    + rewrite update_rows_renewal. unfold commit.
      destruct (constraints_hold _); reflexivity.
    + rewrite update_rows_rejected; [reflexivity|discriminate|exact E].
Qed.

(** ** What a cycle may do to the world *)

Section Evolution.

Variable env : Env.
Variable new_expire : string.
Variable D : string -> Prop.
Variable w0 : World.

Lemma row_step_mono evs evs' row row' :
  row_step new_expire D evs row row' -> row_step new_expire D (evs ++ evs') row row'.
Proof.
  intros [-> | (HD & lu & tok & rtok & -> & ev & Hin & Hp)]; [left; reflexivity|].
  right. split; [exact HD|]. exists lu, tok, rtok. split; [reflexivity|].
  exists ev. split; [apply in_or_app; left; exact Hin|exact Hp].
Qed.

Lemma rows_step_mono evs evs' rows :
  rows_step new_expire D w0 evs rows -> rows_step new_expire D w0 (evs ++ evs') rows.
Proof.
  unfold rows_step. intros H. eapply Forall2_impl; [|exact H].
  intros. apply row_step_mono. assumption.
Qed.

Lemma evolves_refl : evolves new_expire D w0 w0.
Proof.
  exists [], []. rewrite !app_nil_r. repeat split; try constructor.
  unfold rows_step. induction (db w0); constructor; [left; reflexivity|assumption].
Qed.

Lemma evolves_now w :
  evolves new_expire D w0 w -> evolves new_expire D w0 (snd (datetime_now env w)).
Proof. intros (evs & snaps & H). exists evs, snaps. exact H. Qed.

Lemma evolves_http c w :
  push_within D (c, platform env (exchanges w) c) ->
  evolves new_expire D w0 w -> evolves new_expire D w0 (snd (http env c w)).
Proof.
  intros Hc (evs & snaps & He & Hs & Hp & Hr & Hss & Hl).
  exists (evs ++ [(c, platform env (exchanges w) c)]), snaps. simpl.
  rewrite He, app_assoc. repeat split; try assumption.
  - apply Forall_app. split; [assumption|]. constructor; [exact Hc|constructor].
  - apply rows_step_mono. assumption.
  - eapply Forall_impl; [|exact Hss]. intros. apply rows_step_mono. assumption.
Qed.

Lemma row_step_domain evs row row' :
  row_step new_expire D evs row row' ->
  domain row' = domain row /\ subscription_id row' = subscription_id row.
Proof.
  intros [-> | (_ & lu & tok & rtok & -> & _)]; split; reflexivity.
Qed.

(** The rows after one more renewal write. *)
Lemma rows_step_write evs sid lu tok rtok rows :
  (forall row, In row (db w0) -> subscription_id row = sid -> D (domain row)) ->
  (exists ev, In ev evs /\ token_pair ev tok rtok) ->
  rows_step new_expire D w0 evs rows ->
  rows_step new_expire D w0 evs
    (map (fun row => if has_id sid row then renewed new_expire lu tok rtok row
                     else row) rows).
Proof.
  intros HD Hpair. unfold rows_step.
  generalize (db w0) HD. clear HD.
  intros rows0 HD H. induction H as [| row row' rows0' rows' Hrow Hrows IH];
    [constructor|].
  simpl. constructor.
  - destruct (has_id sid row') eqn:E; [|exact Hrow].
    pose proof (row_step_domain _ _ _ Hrow) as [Hd Hs].
    apply String.eqb_eq in E.
    right. split.
    + apply HD; [left; reflexivity|congruence].
    + exists lu, tok, rtok. split; [|exact Hpair].
      destruct Hrow as [-> | (_ & lu0 & tok0 & rtok0 & -> & _)]; reflexivity.
  - apply IH. intros r Hr. apply HD. right. exact Hr.
Qed.

End Evolution.

Lemma dict_lookup_set_other k k' v d :
  String.eqb k k' = false ->
  dict_lookup k (dict_set k' v d) = dict_lookup k d.
Proof.
  intros Hk. induction d as [| [k0 v0] d IH]; simpl.
  - rewrite Hk. reflexivity.
  - destruct (String.eqb k' k0) eqn:E; simpl.
    + apply String.eqb_eq in E. subst k0. rewrite Hk. reflexivity.
    + rewrite IH. reflexivity.
Qed.

Lemma dict_get_set_other k k' v d :
  String.eqb k k' = false -> dict_get k (dict_set k' v d) = dict_get k d.
Proof. intros H. unfold dict_get. rewrite dict_lookup_set_other by exact H. reflexivity. Qed.

(** ** The operations, unfolded once *)

Lemma renew_subscription_unfold env ne tok rt sublist w :
  renew_subscription env ne tok rt sublist w
  = let c := put_call ne tok sublist in
    let w1 := snd (http env c w) in
    let status := status_code (platform env (exchanges w) c) in
    if status =? 202 then
      update_table [("subscription_id", PStr (subscription_id sublist))]
        (renewal_data ne (strftime (clock env (ticks w1))) tok rt)
        (snd (datetime_now env w1))
    else (Raise (update_failed status), w1).
Proof.
  unfold renew_subscription, update_subscription, bind, http, datetime_now, put_call.
  cbn [snd fst status_code].
  destruct (status_code _ =? 202); reflexivity.
Qed.

Lemma read_domain d w :
  read_from_table [("domain", PStr d)] w
  = (Ok (filter (fun row => String.eqb (domain row) d) (db w)), w).
Proof.
  unfold read_from_table, select_filter_by.
  change (forallb filter_ok [("domain", PStr d)]) with true. cbv iota.
  rewrite (filter_ext _ _ (matchesb_domain d)). reflexivity.
Qed.

Lemma stamp_expires_world env td w :
  snd (stamp_expires env td w) = snd (datetime_now env w).
Proof.
  unfold stamp_expires, bind, timedelta_of_seconds, of_option, ret, raise.
  cbn [datetime_now snd].
  destruct (dict_get_default "expires_in" (PInt 0) td); try reflexivity.
  destruct (_ && _); try reflexivity.
  destruct (dt_add _ _); reflexivity.
Qed.

Lemma stamp_expires_ok env td w td' w' :
  stamp_expires env td w = (Ok td', w') ->
  forall k, String.eqb k "expires" = false -> dict_get k td' = dict_get k td.
Proof.
  unfold stamp_expires, bind, timedelta_of_seconds, of_option, ret, raise.
  cbn [datetime_now].
  destruct (dict_get_default "expires_in" (PInt 0) td); try discriminate.
  destruct (_ && _); try discriminate.
  destruct (dt_add _ _); try discriminate.
  intros [= <- _] k Hk. apply dict_get_set_other. exact Hk.
Qed.

Lemma refresh_access_token_unfold env rt w :
  refresh_access_token env rt w
  = let c := PostRefresh rt in
    let resp := platform env (exchanges w) c in
    let w1 := snd (http env c w) in
    if status_code resp =? 200 then stamp_expires env (json resp) w1
    else (Raise refresh_failed, w1).
Proof.
  unfold refresh_access_token, bind, http. cbn [snd].
  destruct (status_code _ =? 200); reflexivity.
Qed.

Lemma renew_domain_unfold env ne d w :
  renew_domain env ne d w
  = match filter (fun row => String.eqb (domain row) d) (db w) with
    | [] => (Raise IndexError, w)
    | first :: rest =>
        match refresh_access_token env (refresh_token first) w with
        | (Ok td, w1) =>
            if truthy (dict_get "access_token" td) then
              for_each (first :: rest)
                (renew_subscription env ne (str (dict_get "access_token" td))
                   (dict_get "refresh_token" td)) w1
            else (Raise no_access_token, w1)
        | (Raise e, w1) => (Raise e, w1)
        end
    end.
Proof.
  unfold renew_domain. unfold bind at 1. rewrite read_domain.
  destruct (filter _ (db w)) as [| first rest]; [reflexivity|].
  unfold bind at 1. cbn [first_of ret]. unfold bind at 1.
  destruct (refresh_access_token env (refresh_token first) w) as [[td | e] w1];
    [|reflexivity].
  destruct (truthy _); reflexivity.
Qed.

Lemma for_each_preserves {A} (I : World -> Prop) (body : A -> M unit) l :
  (forall x w, In x l -> I w -> I (snd (body x w))) ->
  forall w, I w -> I (snd (for_each l body w)).
Proof.
  induction l as [| x l IH]; intros Hbody w HI; simpl; [exact HI|].
  unfold bind.
  pose proof (Hbody x w (or_introl eq_refl) HI) as H1.
  destruct (body x w) as [[u | e] w1]; simpl in *; [|exact H1].
  apply IH; [|exact H1]. intros y w' Hy. apply Hbody. right. exact Hy.
Qed.

Section EvolutionSteps.

Variable env : Env.
Variable new_expire : string.
Variable D : string -> Prop.
Variable w0 : World.

(** Rows that share a [subscription_id] are in [D] together. *)
Hypothesis D_closed :
  forall r1 r2, In r1 (db w0) -> In r2 (db w0) ->
    subscription_id r1 = subscription_id r2 -> D (domain r2) -> D (domain r1).

Lemma rows_step_origin evs rows sub :
  rows_step new_expire D w0 evs rows -> In sub rows ->
  exists row, In row (db w0) /\ domain row = domain sub
              /\ subscription_id row = subscription_id sub.
Proof.
  clear D_closed.
  unfold rows_step. intros H. induction H as [| r r' l l' Hr Hl IH]; intros Hin.
  - destruct Hin.
  - destruct Hin as [<- | Hin].
    + exists r. apply row_step_domain in Hr. destruct Hr. auto with datatypes.
    + destruct (IH Hin) as (row & H1 & H2). exists row. auto with datatypes.
Qed.

Lemma evolves_renew_subscription tok rt sublist w :
  D (domain sublist) ->
  (exists row, In row (db w0) /\ domain row = domain sublist
               /\ subscription_id row = subscription_id sublist) ->
  ready new_expire D w0 tok rt w ->
  ready new_expire D w0 tok rt (snd (renew_subscription env new_expire tok rt sublist w)).
Proof.
  intros HD (row0 & Hin0 & Hd0 & Hs0) [Hev Hpair].
  rewrite renew_subscription_unfold. cbv zeta.
  set (c := put_call new_expire tok sublist).
  assert (Hev1 : evolves new_expire D w0 (snd (http env c w))).
  { apply evolves_http; [|exact Hev]. exact HD. }
  assert (Hpair1 : forall rtok, rt = PStr rtok ->
                     pair_available w0 (snd (http env c w)) tok rtok).
  { intros rtok E. destruct (Hpair rtok E) as (pre & ev & post & Hex & Hp).
    exists pre, ev, (post ++ [(c, platform env (exchanges w) c)]).
    simpl. rewrite Hex, <- !app_assoc. simpl. auto. }
  destruct (status_code _ =? 202); [|split; assumption].
  rewrite update_table_renewal.
  set (w1 := snd (http env c w)) in *. clearbody w1.
  destruct rt as [| rtok |]; try (split; [apply evolves_now; exact Hev1|exact Hpair1]).
  cbv zeta.
  destruct (_ && _); [|split; [apply evolves_now; exact Hev1|exact Hpair1]].
  cbn [snd]. split; [|intros ? E; exact (Hpair1 _ E)].
  destruct Hev1 as (evs & snaps & He & Hs & Hp & Hr & Hss & Hl).
  assert (Hnew : rows_step new_expire D w0 evs
                   (map (fun row => if has_id (subscription_id sublist) row
                                    then renewed new_expire
                                           (strftime (clock env (ticks w1))) tok rtok row
                                    else row) (db w1))).
  { apply rows_step_write; [| |exact Hr].
    - intros row Hin Hsid. apply (D_closed row row0 Hin Hin0); congruence.
    - destruct (Hpair1 rtok eq_refl) as (pre & ev & post & Hex & Hpr).
      exists ev. split; [|exact Hpr].
      rewrite He in Hex. apply app_inv_head in Hex. subst evs.
      apply in_or_app. right. left. reflexivity. }
  exists evs, (snaps ++ [map (fun row => if has_id (subscription_id sublist) row
                                    then renewed new_expire
                                           (strftime (clock env (ticks w1))) tok rtok row
                                    else row) (db w1)]).
  simpl. repeat split; try assumption.
  - rewrite Hs, app_assoc. reflexivity.
  - apply Forall_app. split; [exact Hss|]. constructor; [exact Hnew|constructor].
  - rewrite last_last. reflexivity.
Qed.

Lemma evolves_renew_domain d w :
  D d -> evolves new_expire D w0 w ->
  evolves new_expire D w0 (snd (renew_domain env new_expire d w)).
Proof.
  intros HD Hev. rewrite renew_domain_unfold.
  destruct (filter _ (db w)) as [| first rest] eqn:F; [exact Hev|].
  rewrite refresh_access_token_unfold. cbv zeta.
  set (c := PostRefresh (refresh_token first)).
  set (resp := platform env (exchanges w) c).
  assert (Hev1 : evolves new_expire D w0 (snd (http env c w))).
  { apply evolves_http; [exact I|exact Hev]. }
  destruct (status_code resp =? 200) eqn:St; [|exact Hev1].
  destruct (stamp_expires env (json resp) (snd (http env c w))) as [[td | e] w1] eqn:S.
  2:{ pose proof (stamp_expires_world env (json resp) (snd (http env c w))) as W.
      rewrite S in W. cbn [snd] in W. cbn [snd]. rewrite W.
      apply evolves_now. exact Hev1. }
  pose proof (stamp_expires_world env (json resp) (snd (http env c w))) as W.
  rewrite S in W. cbn [snd] in W.
  assert (Hev2 : evolves new_expire D w0 w1).
  { rewrite W. apply evolves_now. exact Hev1. }
  pose proof (stamp_expires_ok _ _ _ _ _ S) as G.
  destruct (truthy (dict_get "access_token" td)) eqn:T; [|exact Hev2].
  set (tok := str (dict_get "access_token" td)).
  set (rt := dict_get "refresh_token" td).
  assert (R : ready new_expire D w0 tok rt w1).
  { split; [exact Hev2|]. intros rtok E.
    destruct Hev as (evs & snaps & He & _).
    exists evs, (c, resp), []. split.
    - rewrite W. simpl. unfold resp. rewrite He, <- app_assoc. reflexivity.
    - exists (refresh_token first). cbn [fst snd].
      apply Z.eqb_eq in St.
      rewrite <- (G "access_token" eq_refl), <- (G "refresh_token" eq_refl).
      auto. }
  refine (proj1 (for_each_preserves (ready new_expire D w0 tok rt) _ (first :: rest) _ w1 R)).
  intros sub w' Hin Hready.
  assert (Hsub : In sub (db w) /\ String.eqb (domain sub) d = true).
  { pose proof (proj1 (filter_In (fun row => String.eqb (domain row) d) sub (db w))) as K.
    rewrite F in K. exact (K Hin). }
  destruct Hsub as [Hsub Hd]. apply String.eqb_eq in Hd.
  apply evolves_renew_subscription; [congruence| |exact Hready].
  destruct Hev as (evs & snaps & _ & _ & _ & Hr & _).
  eapply rows_step_origin; eassumption.
Qed.

End EvolutionSteps.

(** ** One cycle, unfolded *)

Lemma expiring_domain_eq env w :
  expiring_domain env w
  = match scan_threshold env w with
    | Some thr => set_order env (map domain (expiring thr (db w)))
    | None => []
    end.
Proof. reflexivity. Qed.

Lemma fetch_unfold env w :
  fetch_expiring_subscriptions env w
  = match scan_threshold env w with
    | Some thr => (Ok (expiring thr (db w)), tick w)
    | None => (Raise OverflowError, tick w)
    end.
Proof.
  unfold fetch_expiring_subscriptions, scan_threshold, bind, datetime_now, of_option.
  destruct (dt_add _ _); reflexivity.
Qed.

Lemma cycle_unfold env w :
  check_and_update_subscriptions env w
  = match scan_threshold env w with
    | None => (Raise OverflowError, tick w)
    | Some _ =>
        match expiring_domain env w with
        | [] => (Ok tt, tick w)
        | doms =>
            match cycle_expiry env w with
            | Some new_dt =>
                for_each doms (renew_domain env (strftime new_dt)) (tick (tick w))
            | None => (Raise OverflowError, tick (tick w))
            end
        end
    end.
Proof.
  unfold check_and_update_subscriptions, expiring_domain, cycle_expiry.
  unfold bind at 1. rewrite fetch_unfold.
  destruct (scan_threshold env w) as [thr|]; [|reflexivity].
  destruct (set_order env _) as [| d doms]; [reflexivity|].
  unfold bind, datetime_now, of_option, tick. cbn [ticks].
  destruct (dt_add _ _); reflexivity.
Qed.

Lemma evolves_tick ne D w0 w :
  evolves ne D w0 w -> evolves ne D w0 (tick w).
Proof. intros (evs & snaps & H). exists evs, snaps. exact H. Qed.

Lemma evolves_domains env ne (D : string -> Prop) w0 doms w :
  (forall r1 r2, In r1 (db w0) -> In r2 (db w0) ->
     subscription_id r1 = subscription_id r2 -> D (domain r2) -> D (domain r1)) ->
  (forall d, In d doms -> D d) ->
  evolves ne D w0 w ->
  evolves ne D w0 (snd (for_each doms (renew_domain env ne) w)).
Proof.
  intros HD Hdoms. apply for_each_preserves.
  intros d w' Hd. apply evolves_renew_domain; auto.
Qed.

(** Whatever its outcome, a cycle leaves every row untouched or renewed
    as a whole. *)
Lemma new_expire_of_some env w new_dt :
  cycle_expiry env w = Some new_dt -> new_expire_of env w = strftime new_dt.
Proof. unfold new_expire_of. intros ->. reflexivity. Qed.

Lemma evolves_cycle env w :
  evolves (new_expire_of env w) (fun _ => True) w
    (snd (check_and_update_subscriptions env w)).
Proof.
  rewrite cycle_unfold.
  assert (R : forall ne, evolves ne (fun _ => True) w (tick w))
    by (intros; apply evolves_tick, evolves_refl).
  assert (R2 : forall ne, evolves ne (fun _ => True) w (tick (tick w)))
    by (intros; apply evolves_tick, R).
  destruct (scan_threshold env w) as [thr|]; [|apply R].
  destruct (expiring_domain env w) as [| d doms]; [apply R|].
  unfold new_expire_of.
  destruct (cycle_expiry env w) as [new_dt|]; [|apply R2].
  apply evolves_domains; auto.
Qed.

(** ** The requests of one domain renewal *)


Lemma refresh_exchanges env rt w :
  exchanges (snd (refresh_access_token env rt w))
  = exchanges w ++ [(PostRefresh rt, platform env (exchanges w) (PostRefresh rt))].
Proof.
  rewrite refresh_access_token_unfold. cbv zeta.
  destruct (status_code _ =? 200); [|reflexivity].
  rewrite stamp_expires_world. reflexivity.
Qed.



(** ** The domains of the table are fixed *)




Lemma distinct_injective {A} (f : A -> string) l a b :
  distinct String.eqb (map f l) = true ->
  In a l -> In b l -> f a = f b -> a = b.
Proof.
  induction l as [| x l IH]; simpl; [tauto|].
  rewrite andb_true_iff, negb_true_iff. intros [Hx Hl] Ha Hb Hf.
  assert (N : forall y, In y l -> f x <> f y).
  { intros y Hy E.
    assert (K : existsb (String.eqb (f x)) (map f l) = true).
    { apply existsb_exists. exists (f y). split; [apply in_map; exact Hy|].
      apply String.eqb_eq. exact E. }
    congruence. }
  destruct Ha as [<- | Ha], Hb as [<- | Hb].
  - reflexivity.
  - exfalso. exact (N b Hb Hf).
  - exfalso. exact (N a Ha (eq_sym Hf)).
  - apply IH; assumption.
Qed.

Lemma refresh_keeps_table env rt w :
  db (snd (refresh_access_token env rt w)) = db w
  /\ commits (snd (refresh_access_token env rt w)) = commits w.
Proof.
  rewrite refresh_access_token_unfold. cbv zeta.
  destruct (status_code _ =? 200); [|split; reflexivity].
  rewrite stamp_expires_world. split; reflexivity.
Qed.

(** A domain whose refresh fails is left after the refresh exchange. *)
Lemma renew_domain_refresh_fails env ne d w :
  refresh_fails env d w ->
  exists e rt resp w',
    renew_domain env ne d w = (Raise e, w')
    /\ db w' = db w
    /\ commits w' = commits w
    /\ exchanges w' = exchanges w ++ [(PostRefresh rt, resp)].
Proof.
  unfold refresh_fails. rewrite renew_domain_unfold.
  destruct (filter _ (db w)) as [| first rest]; [intros []|].
  pose proof (refresh_keeps_table env (refresh_token first) w) as [K1 K2].
  pose proof (refresh_exchanges env (refresh_token first) w) as K3.
  destruct (refresh_access_token env (refresh_token first) w) as [[td | e] w1];
    cbn [snd] in *.
  - intros ->. eexists _, _, _, w1. repeat split; eassumption.
  - intros _. eexists _, _, _, w1. repeat split; eassumption.
Qed.

(** ** Creation: what reaches the [refresh_token] column *)

Lemma setattr_other_column row k v row' :
  String.eqb k "refresh_token" = false ->
  setattr row k v = Stored row' ->
  refresh_token row' = refresh_token row.
Proof.
  intros Hk. destruct row. unfold setattr, set_str. rewrite Hk.
  repeat match goal with
         | |- context [if String.eqb k ?s then _ else _] =>
             destruct (String.eqb k s)
         end;
    destruct v; try discriminate; intros [= <-]; reflexivity.
Qed.

Lemma apply_update_other_columns ud :
  dict_lookup "refresh_token" ud = None ->
  forall row row', apply_update ud row = Some row' ->
    refresh_token row' = refresh_token row.
Proof.
  induction ud as [| [k v] ud IH]; intros Hud row row'; simpl.
  - intros [= <-]. reflexivity.
  - cbn [dict_lookup] in Hud.
    destruct (String.eqb "refresh_token" k) eqn:Ek; [discriminate Hud|].
    rewrite String.eqb_sym in Ek.
    destruct (setattr row k v) as [r1 | |] eqn:S; try discriminate.
    + intros H. rewrite (IH Hud _ _ H). eapply setattr_other_column; eassumption.
    + apply IH. exact Hud.
Qed.

Lemma update_rows_other_columns filters ud :
  dict_lookup "refresh_token" ud = None ->
  forall rows rows', update_rows filters ud rows = Some rows' ->
    map refresh_token rows' = map refresh_token rows.
Proof.
  intros Hud. induction rows as [| row rows IH]; intros rows'; simpl.
  - intros [= <-]. reflexivity.
  - destruct (matchesb filters row).
    + destruct (apply_update ud row) as [r1|] eqn:A; try discriminate.
      destruct (update_rows filters ud rows) as [rest|]; try discriminate.
      intros [= <-]. simpl. rewrite (IH rest eq_refl).
      rewrite (apply_update_other_columns ud Hud _ _ A). reflexivity.
    + destruct (update_rows filters ud rows) as [rest|]; try discriminate.
      intros [= <-]. simpl. rewrite (IH rest eq_refl). reflexivity.
Qed.

Lemma dict_lookup_set k k' v d :
  dict_lookup k (dict_set k' v d)
  = if String.eqb k k' then Some v else dict_lookup k d.
Proof.
  induction d as [| [k0 v0] d IH]; simpl.
  - reflexivity.
  - destruct (String.eqb k' k0) eqn:E; simpl.
    + apply String.eqb_eq in E. subst k0. destruct (String.eqb k k'); reflexivity.
    + rewrite IH. destruct (String.eqb k k') eqn:E'; [|reflexivity].
      apply String.eqb_eq in E'. subst k'. rewrite E. reflexivity.
Qed.

Lemma dict_lookup_merge_none k a b :
  dict_lookup k a = None -> dict_lookup k b = None ->
  dict_lookup k (dict_merge a b) = None.
Proof.
  unfold dict_merge. revert a. induction b as [| [k0 v0] b IH]; intros a Ha Hb; simpl.
  - exact Ha.
  - simpl in Hb. destruct (String.eqb k k0) eqn:E; [discriminate Hb|].
    apply IH; [|exact Hb]. rewrite dict_lookup_set, E. exact Ha.
Qed.

(** Without a [refresh_token] key no row can be inserted. *)
Lemma construct_needs_refresh_token next data :
  dict_lookup "refresh_token" data = None ->
  forall r, construct next data <> Constructed r.
Proof.
  intros Hd r. unfold construct.
  destruct (negb (forallb _ data)); [discriminate|].
  unfold required_columns. cbn [forallb]. rewrite Hd.
  rewrite !andb_false_r. cbn [negb]. discriminate.
Qed.

(** A write that names no [refresh_token] leaves the column as it is,
    in every row, and adds no row. *)
Lemma update_table_other_columns filters ud w :
  dict_lookup "refresh_token" filters = None ->
  dict_lookup "refresh_token" ud = None ->
  map refresh_token (db (snd (update_table filters ud w)))
  = map refresh_token (db w).
Proof.
  intros Hf Hud. unfold update_table.
  destruct (select_filter_by filters (db w)) as [[| row sel]|]; try reflexivity.
  - pose proof (construct_needs_refresh_token (next_id w) (dict_merge filters ud)
                  (dict_lookup_merge_none _ _ _ Hf Hud)) as N.
    destruct (construct _ _) as [r | |]; try reflexivity.
    exfalso. exact (N r eq_refl).
  - destruct (update_rows filters ud (db w)) as [rows'|] eqn:U; [|reflexivity].
    unfold commit. destruct (constraints_hold rows'); [|reflexivity].
    cbn [snd set_db db]. eapply update_rows_other_columns; eassumption.
Qed.

Create HintDb keeps.

Lemma keeps_ret {A} (a : A) : keeps_refresh_tokens (ret a).
Proof. intros w. reflexivity. Qed.

Lemma keeps_raise {A} (e : exn) : keeps_refresh_tokens (@raise A e).
Proof. intros w. reflexivity. Qed.

Lemma keeps_bind {A B} (m : M A) (k : A -> M B) :
  keeps_refresh_tokens m -> (forall a, keeps_refresh_tokens (k a)) ->
  keeps_refresh_tokens (bind m k).
Proof.
  intros Hm Hk w. unfold bind. specialize (Hm w).
  destruct (m w) as [[a | e] w1]; cbn [snd] in *; [|exact Hm].
  rewrite (Hk a w1). exact Hm.
Qed.

Lemma keeps_try_except {A} (m : M A) (h : exn -> M A) :
  keeps_refresh_tokens m -> (forall e, keeps_refresh_tokens (h e)) ->
  keeps_refresh_tokens (try_except m h).
Proof.
  intros Hm Hh w. unfold try_except. specialize (Hm w).
  destruct (m w) as [[a | e] w1]; cbn [snd] in *; [exact Hm|].
  rewrite (Hh e w1). exact Hm.
Qed.

Lemma keeps_if {A} (b : bool) (m1 m2 : M A) :
  keeps_refresh_tokens m1 -> keeps_refresh_tokens m2 ->
  keeps_refresh_tokens (if b then m1 else m2).
Proof. destruct b; auto. Qed.

Lemma keeps_of_option {A} e (o : option A) : keeps_refresh_tokens (of_option e o).
Proof. destruct o; intros w; reflexivity. Qed.

Lemma keeps_now env : keeps_refresh_tokens (datetime_now env).
Proof. intros w. reflexivity. Qed.

Lemma keeps_http env c : keeps_refresh_tokens (http env c).
Proof. intros w. reflexivity. Qed.

Lemma keeps_timedelta v : keeps_refresh_tokens (timedelta_of_seconds v).
Proof.
  destruct v; try (intros w; reflexivity).
  unfold timedelta_of_seconds. destruct (_ && _); intros w; reflexivity.
Qed.

Lemma keeps_parse_iso env v : keeps_refresh_tokens (parse_iso env v).
Proof. destruct v; try (intros w; reflexivity). apply keeps_of_option. Qed.

#[local] Hint Resolve keeps_ret keeps_raise keeps_bind keeps_try_except keeps_if
  keeps_of_option keeps_now keeps_http keeps_timedelta keeps_parse_iso : keeps.

Lemma keeps_stamp env td : keeps_refresh_tokens (stamp_expires env td).
Proof. unfold stamp_expires. auto 10 with keeps. Qed.

#[local] Hint Resolve keeps_stamp : keeps.

Lemma keeps_get_token env u p : keeps_refresh_tokens (get_token env u p).
Proof. unfold get_token. auto 10 with keeps. Qed.

Lemma keeps_create_subscription env m p d u t :
  keeps_refresh_tokens (create_subscription env m p d u t).
Proof. unfold create_subscription. auto 12 with keeps. Qed.

Lemma keeps_update_table filters ud :
  dict_lookup "refresh_token" filters = None ->
  dict_lookup "refresh_token" ud = None ->
  keeps_refresh_tokens (update_table filters ud).
Proof. intros Hf Hud w. apply update_table_other_columns; assumption. Qed.

#[local] Hint Resolve keeps_get_token keeps_create_subscription : keeps.

Lemma keeps_setup_new_subscription env request :
  keeps_refresh_tokens (setup_new_subscription env request).
Proof.
  unfold setup_new_subscription.
  apply keeps_bind; [auto with keeps|]. intros token_dict.
  apply keeps_if; [auto with keeps|].
  apply keeps_bind; [auto 10 with keeps|]. intros [subscription_response subscription_id].
  apply keeps_bind; [|auto with keeps].
  apply keeps_try_except; [|auto with keeps].
  apply keeps_bind; [auto with keeps|]. intros now.
  apply keeps_update_table; reflexivity.
Qed.

(** ** A renewal that succeeds *)

Lemma renew_subscription_ok env ne tok rt sub w w' :
  renew_subscription env ne tok rt sub w = (Ok tt, w') ->
  exists rtok rows',
    rt = PStr rtok
    /\ rows' = map (fun row => if has_id (subscription_id sub) row
                               then renewed ne (strftime (clock env (ticks w)))
                                      tok rtok row
                               else row) (db w)
    /\ db w' = rows'
    /\ commits w' = commits w ++ [rows']
    /\ exists resp,
         exchanges w' = exchanges w ++ [(put_call ne tok sub, resp)]
         /\ status_code resp = 202.
Proof.
  rewrite renew_subscription_unfold. cbv zeta.
  destruct (status_code _ =? 202) eqn:S; [|discriminate].
  rewrite update_table_renewal.
  destruct rt as [| rtok |]; try discriminate.
  cbv zeta. cbn [db next_id snd http datetime_now].
  destruct (existsb _ _ && constraints_hold _); [|discriminate].
  intros [= <-]. exists rtok. eexists. split; [reflexivity|].
  split; [reflexivity|]. cbn [db set_db commits exchanges].
  split; [reflexivity|]. split; [reflexivity|].
  eexists. split; [reflexivity|]. apply Z.eqb_eq. exact S.
Qed.

Lemma Forall2_same {A} (R : A -> A -> Prop) l :
  (forall x, R x x) -> Forall2 R l l.
Proof. intros H. induction l; constructor; auto. Qed.

Lemma Forall2_map_l {A B C} (R : B -> C -> Prop) (f : A -> B) l l' :
  Forall2 R (map f l) l' <-> Forall2 (fun x y => R (f x) y) l l'.
Proof.
  revert l'. induction l as [| x l IH]; intros l'; simpl.
  - split; intros H; inversion H; constructor.
  - split; intros H; inversion H; subst; constructor; try assumption;
      apply IH; assumption.
Qed.

Lemma existsb_pointwise {A} (f g : A -> bool) l :
  (forall x, f x = g x) -> existsb f l = existsb g l.
Proof. intros H. induction l as [| x l IH]; simpl; [reflexivity|]. rewrite H, IH. reflexivity. Qed.

(** The pushes and the writes of an inner loop that ends normally. *)
Lemma inner_loop_ok env ne tok rtok subs :
  forall w w',
    for_each subs (renew_subscription env ne tok (PStr rtok)) w = (Ok tt, w') ->
    exists pushes snaps,
      exchanges w' = exchanges w ++ pushes
      /\ Forall2 (accepted_push ne tok) subs pushes
      /\ commits w' = commits w ++ snaps
      /\ List.length snaps = List.length subs
      /\ Forall2
           (fun r r' =>
              if existsb (fun s => has_id (subscription_id s) r) subs
              then exists lu, r' = renewed ne lu tok rtok r
              else r' = r)
           (db w) (db w').
Proof.
  induction subs as [| s subs IH]; intros w w'.
  - intros [= <-]. exists [], []. rewrite !app_nil_r.
    repeat split; try constructor. apply Forall2_same. reflexivity.
  - cbn [for_each]. intros H.
    apply bind_inv in H as [([] & w1 & H1 & H2) | (e & _ & [=])].
    apply renew_subscription_ok in H1
      as (rtok' & rows' & [= <-] & Hrows & Hdb & Hc & resp & He & Hs).
    destruct (IH _ _ H2) as (pushes & snaps & He' & Hp & Hc' & Hl & Hr).
    exists ((put_call ne tok s, resp) :: pushes), (rows' :: snaps).
    split; [rewrite He', He, <- app_assoc; reflexivity|].
    split; [constructor; [split; [reflexivity|exact Hs]|exact Hp]|].
    split; [rewrite Hc', Hc, <- app_assoc; reflexivity|].
    split; [simpl; rewrite Hl; reflexivity|].
    rewrite Hdb, Hrows in Hr. apply Forall2_map_l in Hr.
    eapply Forall2_impl; [|exact Hr].
    intros r r' K. cbn beta in K. cbn [existsb].
    assert (E : forall x, has_id x (if has_id (subscription_id s) r
                                     then renewed ne (strftime (clock env (ticks w)))
                                            tok rtok r
                                     else r) = has_id x r).
    { intros x. destruct (has_id (subscription_id s) r); reflexivity. }
    rewrite (existsb_pointwise _ (fun s0 => has_id (subscription_id s0) r) subs
               (fun x => E (subscription_id x))) in K.
    destruct (has_id (subscription_id s) r) eqn:Hs1; cbn [orb].
    + destruct (existsb _ subs).
      * destruct K as [lu ->]. exists lu. reflexivity.
      * subst r'. eexists. reflexivity.
    + exact K.
Qed.

Lemma refresh_access_token_ok env rt w td w1 :
  refresh_access_token env rt w = (Ok td, w1) ->
  let resp := platform env (exchanges w) (PostRefresh rt) in
  status_code resp = 200
  /\ exchanges w1 = exchanges w ++ [(PostRefresh rt, resp)]
  /\ db w1 = db w /\ commits w1 = commits w
  /\ forall k, String.eqb k "expires" = false -> dict_get k td = dict_get k (json resp).
Proof.
  intros H. cbv zeta.
  pose proof (refresh_exchanges env rt w) as He.
  pose proof (refresh_keeps_table env rt w) as [Hd Hc].
  rewrite H in He, Hd, Hc. cbn [snd] in He, Hd, Hc.
  rewrite refresh_access_token_unfold in H. cbv zeta in H.
  destruct (status_code _ =? 200) eqn:S; [|discriminate].
  apply Z.eqb_eq in S.
  repeat split; try assumption.
  exact (stamp_expires_ok _ _ _ _ _ H).
Qed.

Lemma selected_by_subscription_id (p : Subscriptions -> bool) rows r :
  distinct String.eqb (map subscription_id rows) = true -> In r rows ->
  existsb (fun s => has_id (subscription_id s) r) (filter p rows) = p r.
Proof.
  intros Hd Hr. destruct (p r) eqn:E.
  - apply existsb_exists. exists r.
    split; [apply filter_In; auto|apply String.eqb_refl].
  - apply not_true_is_false. intros H. apply existsb_exists in H as (s & Hs & Hid).
    apply filter_In in Hs as [Hs Hp]. apply String.eqb_eq in Hid.
    rewrite (distinct_injective subscription_id rows s r Hd Hs Hr (eq_sym Hid)) in Hp.
    congruence.
Qed.

Lemma Forall2_impl_in {A B} (P Q : A -> B -> Prop) l l' :
  (forall x y, In x l -> P x y -> Q x y) -> Forall2 P l l' -> Forall2 Q l l'.
Proof.
  intros H F. induction F as [| x y l l' Hxy _ IH]; constructor.
  - apply H; [left; reflexivity|exact Hxy].
  - apply IH. intros a b Ha. apply H. right. exact Ha.
Qed.

(** The exchanges and the writes of a renewal of a domain that ends
    normally. *)
Lemma renew_domain_ok
  (env : Env) (new_expire d : string) (w w' : World) :
  distinct String.eqb (map subscription_id (db w)) = true ->
  renew_domain env new_expire d w = (Ok tt, w') ->
  exists first rest refresh tok rtok pushes snaps,
    filter (fun row => String.eqb (domain row) d) (db w) = first :: rest
    /\ fst refresh = PostRefresh (refresh_token first)
    /\ token_pair refresh tok rtok
    /\ exchanges w' = exchanges w ++ refresh :: pushes
    /\ Forall2 (accepted_push new_expire tok) (first :: rest) pushes
    /\ commits w' = commits w ++ snaps
    /\ List.length snaps = List.length (first :: rest)
    /\ Forall2
         (fun r r' =>
            if String.eqb (domain r) d
            then exists lu, r' = renewed new_expire lu tok rtok r
            else r' = r)
         (db w) (db w').
Proof.
  intros Hd H. rewrite renew_domain_unfold in H.
  destruct (filter _ (db w)) as [| first rest] eqn:F; [discriminate|].
  destruct (refresh_access_token env (refresh_token first) w) as [[td | e] w1] eqn:R;
    [|discriminate].
  destruct (truthy (dict_get "access_token" td)) eqn:T; [|discriminate].
  apply refresh_access_token_ok in R as (S & He & Hdb & Hc & Hk). cbv zeta in *.
  set (resp := platform env (exchanges w) (PostRefresh (refresh_token first))) in *.
  assert (Hrt : exists rtok, dict_get "refresh_token" td = PStr rtok).
  { cbn [for_each] in H.
    apply bind_inv in H as [([] & w2 & H1 & _) | (e & _ & [=])].
    apply renew_subscription_ok in H1 as (rtok & _ & E & _). eauto. }
  destruct Hrt as [rtok Hrt]. rewrite Hrt in H.
  destruct (inner_loop_ok _ _ _ _ _ _ _ H)
    as (pushes & snaps & He' & Hp & Hc' & Hl & Hr).
  exists first, rest, (PostRefresh (refresh_token first), resp),
    (str (dict_get "access_token" td)), rtok, pushes, snaps.
  split; [reflexivity|]. split; [reflexivity|].
  split.
  { exists (refresh_token first). cbn [fst snd].
    rewrite <- !Hk by reflexivity. auto. }
  split; [rewrite He', He, <- app_assoc; reflexivity|].
  split; [exact Hp|].
  split; [rewrite Hc', Hc; reflexivity|].
  split; [exact Hl|].
  rewrite Hdb in Hr. eapply Forall2_impl_in; [|exact Hr].
  intros r r' Hin K. cbn beta in K.
  rewrite <- F, (selected_by_subscription_id _ _ _ Hd Hin) in K. exact K.
Qed.

Lemma Forall2_compose {A B C} (P : A -> B -> Prop) (Q : B -> C -> Prop) l1 l2 l3 :
  Forall2 P l1 l2 -> Forall2 Q l2 l3 ->
  Forall2 (fun x z => exists y, P x y /\ Q y z) l1 l3.
Proof.
  intros H. revert l3. induction H as [| x y l1 l2 Hxy _ IH]; intros l3 H2;
    inversion H2; subst; constructor; eauto.
Qed.

Lemma Forall2_map_eq {A B C} (f : A -> C) (g : B -> C) (R : A -> B -> Prop) l l' :
  (forall x y, R x y -> g y = f x) -> Forall2 R l l' -> map g l' = map f l.
Proof.
  intros H F. induction F as [| x y l l' Hxy _ IH]; simpl; [reflexivity|].
  rewrite IH, (H _ _ Hxy). reflexivity.
Qed.

(** The rows after an outer loop that ends normally. *)
Lemma domains_ok env ne doms :
  forall w w',
    distinct String.eqb (map subscription_id (db w)) = true ->
    for_each doms (renew_domain env ne) w = (Ok tt, w') ->
    Forall2 (renewed_where (fun r => existsb (String.eqb (domain r)) doms) ne)
      (db w) (db w').
Proof.
  induction doms as [| d doms IH]; intros w w' Hd.
  - intros [= <-]. apply Forall2_same. intros r. reflexivity.
  - cbn [for_each]. intros H.
    apply bind_inv in H as [([] & w1 & H1 & H2) | (e & _ & [=])].
    destruct (renew_domain_ok _ _ _ _ _ Hd H1)
      as (first & rest & refresh & tok & rtok & pushes & snaps
          & _ & _ & _ & _ & _ & _ & _ & Hr).
    assert (Hd1 : distinct String.eqb (map subscription_id (db w1)) = true).
    { erewrite (Forall2_map_eq subscription_id subscription_id);
        [exact Hd| |exact Hr].
      intros x y K. cbn beta in K.
      destruct (String.eqb (domain x) d); [destruct K as [lu ->]|subst y];
        reflexivity. }
    pose proof (Forall2_compose _ _ _ _ _ Hr (IH _ _ Hd1 H2)) as F.
    eapply Forall2_impl; [|exact F].
    intros r r' (r1 & K1 & K2). unfold renewed_where in *. cbn [existsb].
    destruct (String.eqb (domain r) d); cbn [orb].
    + destruct K1 as [lu ->]. cbn [renewed domain] in K2.
      destruct (existsb _ doms).
      * destruct K2 as (lu' & tok' & rtok' & ->). eexists _, _, _. reflexivity.
      * subst r'. eexists _, _, _. reflexivity.
    + subst r1. exact K2.
Qed.

(** ** A renewal, whatever its outcome *)



(* ================================================================== *)
(** * Part IX.  The properties of the specification *)
(* ================================================================== *)

(** ** Order of the rendered timestamps *)

Lemma dt_leb_microseconds a b :
  valid a -> valid b ->
  dt_leb a b = (to_microseconds a <=? to_microseconds b).
Proof.
  intros Va Vb. unfold dt_leb, Z.leb.
  rewrite (dt_compare_microseconds a b Va Vb). reflexivity.
Qed.

Lemma whole_second_le t :
  valid t -> to_microseconds (whole_second t) <= to_microseconds t
             < to_microseconds (whole_second t) + US_PER_SECOND.
Proof.
  intros V. rewrite (whole_second_microseconds t V).
  unfold US_PER_SECOND. Z.div_mod_to_equations. lia.
Qed.

Lemma whole_second_id t : microsecond t = 0 -> whole_second t = t.
Proof. destruct t. simpl. intros ->. reflexivity. Qed.

Lemma whole_second_multiple t :
  valid t -> to_microseconds (whole_second t) mod US_PER_SECOND = 0.
Proof.
  intros V. rewrite (whole_second_microseconds t V). apply Z.mod_mul.
  unfold US_PER_SECOND. lia.
Qed.

Lemma strftime_leb a b :
  valid a -> valid b -> four_digit_year a -> four_digit_year b ->
  (strftime a <=? strftime b)%string
  = (to_microseconds (whole_second a) <=? to_microseconds (whole_second b)).
Proof.
  intros Va Vb Ya Yb. unfold String.leb.
  rewrite (strftime_compare a b Va Vb Ya Yb).
  rewrite (dt_compare_microseconds _ _ (whole_second_valid a Va) (whole_second_valid b Vb)).
  unfold Z.leb. reflexivity.
Qed.

Lemma strftime_ltb a b :
  valid a -> valid b -> four_digit_year a -> four_digit_year b ->
  (strftime a <? strftime b)%string
  = (to_microseconds (whole_second a) <? to_microseconds (whole_second b)).
Proof.
  intros Va Vb Ya Yb. unfold String.ltb.
  rewrite (strftime_compare a b Va Vb Ya Yb).
  rewrite (dt_compare_microseconds _ _ (whole_second_valid a Va) (whole_second_valid b Vb)).
  unfold Z.ltb. reflexivity.
Qed.

Lemma strftime_leb_mono a b :
  valid a -> valid b -> four_digit_year a -> four_digit_year b ->
  dt_leb a b = true -> (strftime a <=? strftime b)%string = true.
Proof.
  intros Va Vb Ya Yb.
  rewrite (strftime_leb a b Va Vb Ya Yb), (dt_leb_microseconds a b Va Vb), !Z.leb_le.
  pose proof (whole_second_le a Va) as La.
  pose proof (whole_second_le b Vb) as Lb.
  pose proof (whole_second_multiple a Va) as Ma.
  pose proof (whole_second_multiple b Vb) as Mb.
  unfold US_PER_SECOND in *. intros H.
  Z.div_mod_to_equations. lia.
Qed.

Lemma strftime_leb_exact a b :
  valid a -> valid b -> four_digit_year a -> four_digit_year b ->
  microsecond a = 0 -> (strftime a <=? strftime b)%string = dt_leb a b.
Proof.
  intros Va Vb Ya Yb U.
  rewrite (strftime_leb a b Va Vb Ya Yb), (dt_leb_microseconds a b Va Vb).
  pose proof (whole_second_le b Vb) as Lb.
  pose proof (whole_second_multiple a Va) as Ma.
  pose proof (whole_second_multiple b Vb) as Mb.
  rewrite (whole_second_id a U) in *.
  apply eq_true_iff_eq. rewrite !Z.leb_le.
  unfold US_PER_SECOND in *. Z.div_mod_to_equations. lia.
Qed.

(** C10, the statement as the claim has it, at two instants of one
    second: the strings are equal while the first instant is the later
    one. *)
Lemma strftime_order_counterexample :
  let a := mkdatetime 2024 1 1 0 0 0 1 in
  let b := mkdatetime 2024 1 1 0 0 0 0 in
  valid a /\ valid b /\ four_digit_year a /\ four_digit_year b
  /\ (strftime a <=? strftime b)%string = true
  /\ dt_leb a b = false
  /\ String.compare (strftime a) (strftime b) <> dt_compare a b.
Proof.
  cbv zeta. repeat split; try (vm_compute; congruence); vm_compute; lia.
Qed.

(** C10 (amended).  For two well-formed UTC datetimes with four-digit
    years, the lexicographic comparison of their renderings
    [YYYY-MM-DD HH:MM:SS] is the chronological comparison of the two
    datetimes cut to whole seconds; rendering is therefore
    order-preserving, and when the first datetime has no sub-second part
    (as every stored [expires] has) the test [rendered <= rendered] is
    exactly the chronological test [<=]. *)
Theorem strftime_order_preserving (a b : datetime) :
  valid a -> valid b -> four_digit_year a -> four_digit_year b ->
  String.compare (strftime a) (strftime b)
    = dt_compare (whole_second a) (whole_second b)
  /\ (dt_leb a b = true -> (strftime a <=? strftime b)%string = true)
  /\ (microsecond a = 0 -> (strftime a <=? strftime b)%string = dt_leb a b).
Proof.
  intros Va Vb Ya Yb. split; [|split].
  - apply strftime_compare; assumption.
  - apply strftime_leb_mono; assumption.
  - intros U. apply strftime_leb_exact; assumption.
Qed.

Lemma strftime_order_preserving_witness :
  (valid stored_instant /\ valid threshold_instant
   /\ four_digit_year stored_instant /\ four_digit_year threshold_instant)
  /\ (String.compare (strftime stored_instant) (strftime threshold_instant)
        = dt_compare (whole_second stored_instant) (whole_second threshold_instant)
      /\ (dt_leb stored_instant threshold_instant = true ->
          (strftime stored_instant <=? strftime threshold_instant)%string = true)
      /\ (microsecond stored_instant = 0 ->
          (strftime stored_instant <=? strftime threshold_instant)%string
          = dt_leb stored_instant threshold_instant)).
Proof.
  assert (Va : valid stored_instant) by (apply validb_valid; vm_compute; reflexivity).
  assert (Vb : valid threshold_instant) by (apply validb_valid; vm_compute; reflexivity).
  assert (Ya : four_digit_year stored_instant) by (vm_compute; split; discriminate).
  assert (Yb : four_digit_year threshold_instant) by (vm_compute; split; discriminate).
  split; [tauto|].
  apply (strftime_order_preserving stored_instant threshold_instant Va Vb Ya Yb).
Defined.

(** ** The scan *)

Lemma scan_threshold_valid env w thr :
  scan_threshold env w = Some thr -> valid thr.
Proof.
  unfold scan_threshold. intros H.
  exact (proj1 (dt_add_spec _ _ _ H)).
Qed.

Lemma cycle_expiry_valid env w new_dt :
  cycle_expiry env w = Some new_dt -> valid new_dt.
Proof.
  unfold cycle_expiry. intros H.
  exact (proj1 (dt_add_spec _ _ _ H)).
Qed.

(** C7.  The scan returns exactly the stored subscriptions whose
    [expires] timestamp is at or before the current time plus the lead
    window, which is [RENEWAL_INTERVAL] seconds; it reads the clock and
    the table only: no row is written and no request is sent. *)
Theorem fetch_expiring_subscriptions_exact (env : Env) (w : World) (thr : datetime) :
  dt_add (clock env (ticks w))
         (timedelta_seconds (RENEWAL_INTERVAL (config env))) = Some thr ->
  four_digit_year thr ->
  exists subs,
    fetch_expiring_subscriptions env w = (Ok subs, tick w)
    /\ db (tick w) = db w
    /\ commits (tick w) = commits w
    /\ exchanges (tick w) = exchanges w
    /\ (forall row, In row subs -> In row (db w))
    /\ (forall row e, In row (db w) -> renders row e ->
          (In row subs <-> dt_leb e thr = true)).
Proof.
  intros Hthr Ythr.
  exists (expiring thr (db w)).
  rewrite fetch_unfold. unfold scan_threshold. rewrite Hthr.
  split; [reflexivity|]. split; [reflexivity|]. split; [reflexivity|].
  split; [reflexivity|]. split.
  - intros row H. apply filter_In in H. tauto.
  - intros row e Hin (Ve & Ye & Ue & Ee).
    pose proof (scan_threshold_valid env w thr Hthr) as Vt.
    rewrite <- (strftime_leb_exact e thr Ve Vt Ye Ythr Ue), <- Ee.
    unfold expiring. rewrite filter_In. tauto.
Qed.

Lemma fetch_expiring_subscriptions_exact_witness :
  (dt_add (clock (env_of platform_ok) (ticks world0))
          (timedelta_seconds (RENEWAL_INTERVAL (config (env_of platform_ok))))
   = Some threshold_instant
   /\ four_digit_year threshold_instant)
  /\ exists subs,
       fetch_expiring_subscriptions (env_of platform_ok) world0
       = (Ok subs, tick world0)
       /\ db (tick world0) = db world0
       /\ commits (tick world0) = commits world0
       /\ exchanges (tick world0) = exchanges world0
       /\ (forall row, In row subs -> In row (db world0))
       /\ (forall row e, In row (db world0) -> renders row e ->
             (In row subs <-> dt_leb e threshold_instant = true)).
Proof.
  assert (H1 : dt_add (clock (env_of platform_ok) (ticks world0))
                 (timedelta_seconds (RENEWAL_INTERVAL (config (env_of platform_ok))))
               = Some threshold_instant) by (vm_compute; reflexivity).
  assert (H2 : four_digit_year threshold_instant) by (vm_compute; split; discriminate).
  split; [split; assumption|].
  apply (fetch_expiring_subscriptions_exact (env_of platform_ok) world0
           threshold_instant H1 H2).
Defined.

(** ** The expiry that a cycle grants *)

Lemma ascii_compare_lt a b :
  Ascii.compare a b = Lt <-> (N_of_ascii a < N_of_ascii b)%N.
Proof. unfold Ascii.compare. apply N.compare_lt_iff. Qed.

Lemma string_compare_lt_trans s t u :
  String.compare s t = Lt -> String.compare t u = Lt -> String.compare s u = Lt.
Proof.
  revert t u. induction s as [| a s IH]; intros [| b t] [| c u]; simpl;
    try discriminate; try reflexivity.
  destruct (Ascii.compare a b) eqn:Eab; try discriminate;
    destruct (Ascii.compare b c) eqn:Ebc; try discriminate; intros H1 H2.
  - apply Ascii.compare_eq_iff in Eab, Ebc. subst.
    replace (Ascii.compare c c) with Eq
      by (symmetry; unfold Ascii.compare; apply N.compare_refl).
    eapply IH; eassumption.
  - apply Ascii.compare_eq_iff in Eab. subst. rewrite Ebc. reflexivity.
  - apply Ascii.compare_eq_iff in Ebc. subst. rewrite Eab. reflexivity.
  - apply ascii_compare_lt in Eab. apply ascii_compare_lt in Ebc.
    replace (Ascii.compare a c) with Lt; [reflexivity|].
    symmetry. apply ascii_compare_lt. eapply N.lt_trans; eassumption.
Qed.

Lemma string_leb_ltb_trans s t u :
  (s <=? t)%string = true -> (t <? u)%string = true -> (s <? u)%string = true.
Proof.
  unfold String.leb, String.ltb.
  destruct (String.compare s t) eqn:Est; try discriminate;
    destruct (String.compare t u) eqn:Etu; try discriminate; intros _ _.
  - apply String.compare_eq_iff in Est. subst. rewrite Etu. reflexivity.
  - rewrite (string_compare_lt_trans s t u Est Etu). reflexivity.
Qed.

(** The threshold of the scan is rendered strictly before the expiry
    that the cycle grants, when the interval is shorter than the
    duration. *)
Lemma threshold_before_expiry env w thr new_dt days :
  scan_threshold env w = Some thr ->
  cycle_expiry env w = Some new_dt ->
  SUBSCRIPTION_DURATION (config env) = timedelta_days days ->
  RENEWAL_INTERVAL (config env) < days * 86400 ->
  valid (clock env (ticks w)) -> valid (clock env (S (ticks w))) ->
  dt_leb (clock env (ticks w)) (clock env (S (ticks w))) = true ->
  four_digit_year thr -> four_digit_year new_dt ->
  (strftime thr <? strftime new_dt)%string = true.
Proof.
  unfold scan_threshold, cycle_expiry.
  intros Hthr Hnew Hd Hlt V0 V1 Hmono Ythr Ynew.
  destruct (dt_add_spec _ _ _ Hthr) as [Vt Et].
  destruct (dt_add_spec _ _ _ Hnew) as [Vn En].
  rewrite (strftime_ltb thr new_dt Vt Vn Ythr Ynew), Z.ltb_lt.
  rewrite (dt_leb_microseconds _ _ V0 V1), Z.leb_le in Hmono.
  rewrite (whole_second_microseconds thr Vt), (whole_second_microseconds new_dt Vn).
  rewrite Et, En, Hd.
  unfold timedelta_seconds, timedelta_days, US_PER_DAY, US_PER_SECOND.
  set (c0 := to_microseconds (clock env (ticks w))) in *.
  set (c1 := to_microseconds (clock env (S (ticks w)))) in *.
  set (i := RENEWAL_INTERVAL (config env)) in *.
  clearbody c0 c1 i.
  Z.div_mod_to_equations. nia.
Qed.

(** C4, the statement as the claim has it, on the table of the
    scenario: [s2] shares the domain of the expiring [s1], is renewed
    with it (pushed with status 202 and written), and its [expires] goes
    back from 2024-03-20 to 2024-02-29 although the interval (one hour)
    is shorter than the duration (one day). *)
Lemma renewal_expiry_counterexample :
  let w' := snd (check_and_update_subscriptions (env_of platform_ok) world0) in
  timedelta_seconds (RENEWAL_INTERVAL (config (env_of platform_ok)))
    < SUBSCRIPTION_DURATION (config (env_of platform_ok))
  /\ fst (check_and_update_subscriptions (env_of platform_ok) world0) = Ok tt
  /\ In (PutSubscription "2024-02-29 23:59:30" "s2" "A-ra" "a.com",
         mkResponse 202 []) (exchanges w')
  /\ map (fun r => (subscription_id r, expires r)) (db world0)
     = [("s1", "2024-02-28 23:00:00"); ("s2", "2024-03-20 00:00:00");
        ("s3", "2024-02-29 00:10:00")]
  /\ map (fun r => (subscription_id r, expires r)) (db w')
     = [("s1", "2024-02-29 23:59:30"); ("s2", "2024-02-29 23:59:30");
        ("s3", "2024-02-29 23:59:30")]
  /\ ("2024-02-29 23:59:30" <? "2024-03-20 00:00:00")%string = true.
Proof.
  cbv zeta. split; [vm_compute; reflexivity|].
  split; [vm_compute; reflexivity|].
  split; [vm_compute; tauto|].
  split; [vm_compute; reflexivity|].
  split; vm_compute; reflexivity.
Qed.

Lemma nodup_string_ok : set_order_ok (nodup string_dec).
Proof.
  intros l. split; [apply NoDup_nodup|]. intros x. apply nodup_In.
Qed.

(** Every row that the cycle leaves written bears the rendering of the
    expiry that the cycle grants. *)
Lemma written_expiry env w :
  Forall2
    (fun row row' =>
       row' = row
       \/ exists new_dt,
            cycle_expiry env w = Some new_dt /\ expires row' = strftime new_dt)
    (db w) (db (snd (check_and_update_subscriptions env w))).
Proof.
  destruct (cycle_expiry env w) as [new_dt|] eqn:E.
  - pose proof (evolves_cycle env w) as Hev.
    rewrite (new_expire_of_some env w new_dt E) in Hev.
    destruct Hev as (evs & snaps & _ & _ & _ & Hrows & _).
    eapply Forall2_impl; [|exact Hrows].
    intros row row' [-> | (_ & lu & tok & rtok & -> & _)]; [left; reflexivity|].
    right. exists new_dt. split; reflexivity.
  - rewrite cycle_unfold, E.
    destruct (scan_threshold env w) as [thr|];
      [destruct (expiring_domain env w) as [| d0 doms]|];
      apply Forall2_same; intros r; left; reflexivity.
Qed.

(** The rows after a cycle that ends normally: the rows of the domains
    that have an expiring row are written, the others are as they
    were. *)
Lemma successful_cycle_rows env w thr :
  set_order_ok (set_order env) ->
  distinct String.eqb (map subscription_id (db w)) = true ->
  scan_threshold env w = Some thr ->
  fst (check_and_update_subscriptions env w) = Ok tt ->
  Forall2
    (fun row row' =>
       ((exists sibling,
           In sibling (db w) /\ domain sibling = domain row
           /\ (expires sibling <=? strftime thr)%string = true)
        /\ exists new_dt,
             cycle_expiry env w = Some new_dt /\ expires row' = strftime new_dt)
       \/ ((forall sibling,
              In sibling (db w) -> domain sibling = domain row ->
              (expires sibling <=? strftime thr)%string = false)
           /\ row' = row))
    (db w) (db (snd (check_and_update_subscriptions env w))).
Proof.
  intros Hord Hd Hthr Hok.
  assert (Hdom : forall d, In d (expiring_domain env w)
                   <-> exists sibling,
                         In sibling (db w) /\ domain sibling = d
                         /\ (expires sibling <=? strftime thr)%string = true).
  { intros d. rewrite expiring_domain_eq, Hthr.
    rewrite (proj2 (Hord _) d), in_map_iff. unfold expiring.
    split.
    - intros (s & E & Hin). apply filter_In in Hin as [Hin Hs]. exists s. auto.
    - intros (s & Hin & E & Hs). exists s. split; [exact E|].
      apply filter_In. auto. }
  assert (Hrows : Forall2
            (fun row row' =>
               if existsb (String.eqb (domain row)) (expiring_domain env w)
               then exists new_dt,
                      cycle_expiry env w = Some new_dt
                      /\ expires row' = strftime new_dt
               else row' = row)
            (db w) (db (snd (check_and_update_subscriptions env w)))).
  { clear Hdom. rewrite cycle_unfold in Hok |- *. rewrite Hthr in Hok |- *.
    destruct (expiring_domain env w) as [| d0 doms].
    - apply Forall2_same. intros r. reflexivity.
    - destruct (cycle_expiry env w) as [new_dt|] eqn:E; [|discriminate Hok].
      destruct (for_each (d0 :: doms) (renew_domain env (strftime new_dt))
                  (tick (tick w))) as [[[] | e] w'] eqn:F; [|discriminate Hok].
      pose proof (domains_ok env _ _ (tick (tick w)) w' Hd F) as R.
      cbn [snd]. eapply Forall2_impl; [|exact R].
      intros r r' K. unfold renewed_where in K.
      destruct (existsb _ _); [|exact K].
      destruct K as (lu & tok & rtok & ->).
      exists new_dt. split; reflexivity. }
  eapply Forall2_impl; [|exact Hrows].
  intros row row' K. cbn beta in K.
  destruct (existsb (String.eqb (domain row)) (expiring_domain env w)) eqn:X.
  - left. split; [|exact K]. apply Hdom.
    apply existsb_exists in X as (d & Hin & E).
    apply String.eqb_eq in E. rewrite E. exact Hin.
  - right. split; [|exact K]. intros s Hin E.
    destruct (expires s <=? strftime thr)%string eqn:L; [|reflexivity].
    exfalso.
    assert (In (domain row) (expiring_domain env w)) as Hin'
      by (apply Hdom; exists s; auto).
    assert (existsb (String.eqb (domain row)) (expiring_domain env w) = true)
      as Y.
    { apply existsb_exists. exists (domain row).
      split; [exact Hin'|apply String.eqb_refl]. }
    rewrite X in Y. discriminate Y.
Qed.

(** The new expiry is later than the stored one of a row that the scan
    selected. *)
Lemma later_expiry env w thr new_dt days :
  scan_threshold env w = Some thr ->
  cycle_expiry env w = Some new_dt ->
  SUBSCRIPTION_DURATION (config env) = timedelta_days days ->
  RENEWAL_INTERVAL (config env) < days * 86400 ->
  valid (clock env (ticks w)) -> valid (clock env (S (ticks w))) ->
  dt_leb (clock env (ticks w)) (clock env (S (ticks w))) = true ->
  four_digit_year thr -> four_digit_year new_dt ->
  forall row,
    (expires row <=? strftime thr)%string = true ->
    (expires row <? strftime new_dt)%string = true
    /\ forall e, renders row e -> dt_ltb e (whole_second new_dt) = true.
Proof.
  intros Hthr Hnew Hd Hlt V0 V1 Hmono Ythr Ynew row Hsel.
  pose proof (threshold_before_expiry env w thr new_dt days
                Hthr Hnew Hd Hlt V0 V1 Hmono Ythr Ynew) as Hbefore.
  assert (L : (expires row <? strftime new_dt)%string = true)
    by (eapply string_leb_ltb_trans; eassumption).
  split; [exact L|].
  intros e (Ve & Ye & Ue & Ee).
  pose proof (cycle_expiry_valid env w new_dt Hnew) as Vn.
  rewrite Ee, (strftime_ltb e new_dt Ve Vn Ye Ynew), (whole_second_id e Ue) in L.
  unfold dt_ltb.
  rewrite (dt_compare_microseconds e _ Ve (whole_second_valid _ Vn)).
  exact L.
Qed.

(** C4 (amended).  Every row that a cycle leaves written bears as
    [expires] the rendering of exactly the cycle's renewal time plus
    [SUBSCRIPTION_DURATION].  When the cycle ends normally (the
    [subscription_id] being distinct), every row of a domain that has an
    expiring row is written so, a row that was not expiring itself
    included, whatever its previous value, and every row of another
    domain is as it was.  For a row that the scan selected as expiring,
    and with an interval shorter than the duration on a clock that does
    not go back, the value written is strictly later than the row's
    previous [expires], in the order of the store and, for a well-formed
    previous value, in time. *)
Theorem renewal_expiry (env : Env) (w : World) :
  Forall2
    (fun row row' =>
       row' = row
       \/ exists new_dt,
            cycle_expiry env w = Some new_dt /\ expires row' = strftime new_dt)
    (db w) (db (snd (check_and_update_subscriptions env w)))
  /\ (forall thr,
        set_order_ok (set_order env) ->
        distinct String.eqb (map subscription_id (db w)) = true ->
        scan_threshold env w = Some thr ->
        fst (check_and_update_subscriptions env w) = Ok tt ->
        Forall2
          (fun row row' =>
             ((exists sibling,
                 In sibling (db w) /\ domain sibling = domain row
                 /\ (expires sibling <=? strftime thr)%string = true)
              /\ exists new_dt,
                   cycle_expiry env w = Some new_dt
                   /\ expires row' = strftime new_dt)
             \/ ((forall sibling,
                    In sibling (db w) -> domain sibling = domain row ->
                    (expires sibling <=? strftime thr)%string = false)
                 /\ row' = row))
          (db w) (db (snd (check_and_update_subscriptions env w))))
  /\ (forall thr new_dt days,
        scan_threshold env w = Some thr ->
        cycle_expiry env w = Some new_dt ->
        SUBSCRIPTION_DURATION (config env) = timedelta_days days ->
        RENEWAL_INTERVAL (config env) < days * 86400 ->
        valid (clock env (ticks w)) -> valid (clock env (S (ticks w))) ->
        dt_leb (clock env (ticks w)) (clock env (S (ticks w))) = true ->
        four_digit_year thr -> four_digit_year new_dt ->
        Forall2
          (fun row row' =>
             row' = row
             \/ (expires row' = strftime new_dt
                 /\ ((expires row <=? strftime thr)%string = true ->
                     (expires row <? expires row')%string = true
                     /\ forall e, renders row e ->
                          dt_ltb e (whole_second new_dt) = true)))
          (db w) (db (snd (check_and_update_subscriptions env w)))).
Proof.
  split; [apply written_expiry|].
  split; [intros thr; apply successful_cycle_rows|].
  intros thr new_dt days Hthr Hnew Hd Hlt V0 V1 Hmono Ythr Ynew.
  eapply Forall2_impl; [|apply written_expiry].
  intros row row' [-> | (new_dt' & E & Hx)]; [left; reflexivity|].
  right. rewrite Hnew in E. injection E as <-.
  split; [exact Hx|]. intros Hsel. rewrite Hx.
  exact (later_expiry env w thr new_dt days Hthr Hnew Hd Hlt V0 V1 Hmono Ythr Ynew
           row Hsel).
Qed.

Lemma renewal_expiry_witness :
  let env := env_of platform_ok in
  let w' := snd (check_and_update_subscriptions env world0) in
  (set_order_ok (set_order env)
   /\ distinct String.eqb (map subscription_id (db world0)) = true
   /\ fst (check_and_update_subscriptions env world0) = Ok tt
   /\ scan_threshold env world0 = Some threshold_instant
   /\ cycle_expiry env world0 = Some granted_instant
   /\ SUBSCRIPTION_DURATION (config env) = timedelta_days 1
   /\ RENEWAL_INTERVAL (config env) < 1 * 86400
   /\ valid (clock env (ticks world0))
   /\ valid (clock env (S (ticks world0)))
   /\ dt_leb (clock env (ticks world0)) (clock env (S (ticks world0))) = true
   /\ four_digit_year threshold_instant
   /\ four_digit_year granted_instant)
  /\ Forall2
       (fun row row' =>
          row' = row
          \/ exists new_dt,
               cycle_expiry env world0 = Some new_dt
               /\ expires row' = strftime new_dt)
       (db world0) (db w')
  /\ Forall2
       (fun row row' =>
          ((exists sibling,
              In sibling (db world0) /\ domain sibling = domain row
              /\ (expires sibling <=? strftime threshold_instant)%string = true)
           /\ exists new_dt,
                cycle_expiry env world0 = Some new_dt
                /\ expires row' = strftime new_dt)
          \/ ((forall sibling,
                 In sibling (db world0) -> domain sibling = domain row ->
                 (expires sibling <=? strftime threshold_instant)%string = false)
              /\ row' = row))
       (db world0) (db w')
  /\ Forall2
       (fun row row' =>
          row' = row
          \/ (expires row' = strftime granted_instant
              /\ ((expires row <=? strftime threshold_instant)%string = true ->
                  (expires row <? expires row')%string = true
                  /\ forall e, renders row e ->
                       dt_ltb e (whole_second granted_instant) = true)))
       (db world0) (db w').
Proof.
  cbv zeta.
  assert (H0 : set_order_ok (set_order (env_of platform_ok)))
    by (simpl; exact nodup_string_ok).
  assert (Hd : distinct String.eqb (map subscription_id (db world0)) = true)
    by (vm_compute; reflexivity).
  assert (Hok : fst (check_and_update_subscriptions (env_of platform_ok) world0)
                = Ok tt) by (vm_compute; reflexivity).
  assert (H1 : scan_threshold (env_of platform_ok) world0 = Some threshold_instant)
    by (vm_compute; reflexivity).
  assert (H2 : cycle_expiry (env_of platform_ok) world0 = Some granted_instant)
    by (vm_compute; reflexivity).
  assert (H3 : SUBSCRIPTION_DURATION (config (env_of platform_ok)) = timedelta_days 1)
    by (vm_compute; reflexivity).
  assert (H4 : RENEWAL_INTERVAL (config (env_of platform_ok)) < 1 * 86400)
    by (vm_compute; reflexivity).
  assert (H5 : valid (clock (env_of platform_ok) (ticks world0)))
    by (apply validb_valid; vm_compute; reflexivity).
  assert (H6 : valid (clock (env_of platform_ok) (S (ticks world0))))
    by (apply validb_valid; vm_compute; reflexivity).
  assert (H7 : dt_leb (clock (env_of platform_ok) (ticks world0))
                 (clock (env_of platform_ok) (S (ticks world0))) = true)
    by (vm_compute; reflexivity).
  assert (H8 : four_digit_year threshold_instant) by (vm_compute; split; discriminate).
  assert (H9 : four_digit_year granted_instant) by (vm_compute; split; discriminate).
  split;
    [exact (conj H0 (conj Hd (conj Hok (conj H1 (conj H2 (conj H3 (conj H4
              (conj H5 (conj H6 (conj H7 (conj H8 H9)))))))))))|].
  destruct (renewal_expiry (env_of platform_ok) world0) as (A & B & C).
  split; [exact A|].
  split; [exact (B threshold_instant H0 Hd H1 Hok)|].
  exact (C threshold_instant granted_instant 1 H1 H2 H3 H4 H5 H6 H7 H8 H9).
Defined.

(** ** Failures inside a cycle *)

Lemma cycle_of_domains env w d doms new_dt :
  expiring_domain env w = d :: doms ->
  cycle_expiry env w = Some new_dt ->
  check_and_update_subscriptions env w
  = for_each (d :: doms) (renew_domain env (strftime new_dt)) (tick (tick w)).
Proof.
  intros Hdoms Hnew. rewrite cycle_unfold, Hdoms, Hnew.
  rewrite expiring_domain_eq in Hdoms.
  destruct (scan_threshold env w); [reflexivity|discriminate].
Qed.

Lemma start_raise env w e w' n :
  check_and_update_subscriptions env w = (Raise e, w') ->
  start env n w = (Raise e, w').
Proof.
  intros H. unfold start, setup_table. unfold bind at 1. cbn [ret].
  apply bind_raise. exact H.
Qed.

Lemma renewal_loop_raise env w e w' n :
  check_and_update_subscriptions env w = (Raise e, w') ->
  renewal_loop env (S n) w = (Raise e, w').
Proof.
  intros H. cbn [renewal_loop]. unfold sleep. unfold bind at 1. cbn [ret].
  apply bind_raise. exact H.
Qed.

(** C1, the statement as the claim has it, on the scenario with a
    platform that refuses the refresh: the cycle has two domains, the
    error of the first one leaves the cycle uncaught, the second domain
    gets no request at all, and the loop of [start] ends with that
    error after this one cycle. *)
Lemma renewal_error_counterexample :
  let env := env_of platform_refresh_down in
  let failed :=
    mkWorld table0 4 [(PostRefresh "ra", mkResponse 401 [])] 2 [] in
  expiring_domain env world0 = ["a.com"; "b.com"]
  /\ check_and_update_subscriptions env world0
     = (Raise (Exception "Failed to refresh token"), failed)
  /\ start env 3 world0 = (Raise (Exception "Failed to refresh token"), failed).
Proof. cbv zeta. repeat split; vm_compute; reflexivity. Qed.

(** C1 (amended).  An error raised while a domain is renewed is not
    caught: the cycle stops at that domain with that error, in the
    world that the failed renewal left (the remaining domains get no
    refresh, no push and no write), and the error leaves
    [check_and_update_subscriptions] and ends the renewal loop of
    [start], at the first check as at any later turn. *)
Theorem renewal_error_ends_the_loop
  (env : Env) (w : World) (new_dt : datetime)
  (pre : list string) (d : string) (post : list string)
  (w1 w2 : World) (e : exn) :
  expiring_domain env w = pre ++ d :: post ->
  cycle_expiry env w = Some new_dt ->
  for_each pre (renew_domain env (strftime new_dt)) (tick (tick w)) = (Ok tt, w1) ->
  renew_domain env (strftime new_dt) d w1 = (Raise e, w2) ->
  check_and_update_subscriptions env w = (Raise e, w2)
  /\ (forall n, start env n w = (Raise e, w2))
  /\ (forall n, renewal_loop env (S n) w = (Raise e, w2)).
Proof.
  intros Hdoms Hnew Hpre Hd.
  assert (C : check_and_update_subscriptions env w = (Raise e, w2)).
  { destruct (pre ++ d :: post) as [| d0 doms] eqn:E.
    - destruct pre; discriminate.
    - rewrite (cycle_of_domains env w d0 doms new_dt Hdoms Hnew), <- E.
      eapply for_each_raise; eassumption. }
  split; [exact C|]. split; intros n.
  - apply start_raise. exact C.
  - apply renewal_loop_raise. exact C.
Qed.

Lemma renewal_error_ends_the_loop_witness :
  let env := env_of platform_refresh_down in
  let failed :=
    mkWorld table0 4 [(PostRefresh "ra", mkResponse 401 [])] 2 [] in
  (expiring_domain env world0 = [] ++ "a.com" :: ["b.com"]
   /\ cycle_expiry env world0 = Some granted_instant
   /\ for_each [] (renew_domain env (strftime granted_instant)) (tick (tick world0))
      = (Ok tt, tick (tick world0))
   /\ renew_domain env (strftime granted_instant) "a.com" (tick (tick world0))
      = (Raise (Exception "Failed to refresh token"), failed))
  /\ (check_and_update_subscriptions env world0
      = (Raise (Exception "Failed to refresh token"), failed)
      /\ (forall n, start env n world0
                    = (Raise (Exception "Failed to refresh token"), failed))
      /\ (forall n, renewal_loop env (S n) world0
                    = (Raise (Exception "Failed to refresh token"), failed))).
Proof.
  cbv zeta.
  assert (H1 : expiring_domain (env_of platform_refresh_down) world0
               = [] ++ "a.com" :: ["b.com"]) by (vm_compute; reflexivity).
  assert (H2 : cycle_expiry (env_of platform_refresh_down) world0
               = Some granted_instant) by (vm_compute; reflexivity).
  assert (H3 : for_each [] (renew_domain (env_of platform_refresh_down)
                              (strftime granted_instant)) (tick (tick world0))
               = (Ok tt, tick (tick world0))) by reflexivity.
  assert (H4 : renew_domain (env_of platform_refresh_down)
                 (strftime granted_instant) "a.com" (tick (tick world0))
               = (Raise (Exception "Failed to refresh token"),
                  mkWorld table0 4 [(PostRefresh "ra", mkResponse 401 [])] 2 []))
    by (vm_compute; reflexivity).
  split; [exact (conj H1 (conj H2 (conj H3 H4)))|].
  apply (renewal_error_ends_the_loop (env_of platform_refresh_down) world0
           granted_instant [] "a.com" ["b.com"] _ _ _ H1 H2 H3 H4).
Defined.

(** C2, the statement as the claim has it, on the scenario with a
    platform that refuses the push of [s1]: the failure is not caught,
    the sibling [s2] of the same domain is neither pushed nor written,
    and the cycle ends with the error. *)
Lemma push_failure_counterexample :
  let env := env_of platform_push_down in
  let w' := snd (check_and_update_subscriptions env world0) in
  map subscription_id (filter (fun r => String.eqb (domain r) "a.com") table0)
  = ["s1"; "s2"]
  /\ fst (check_and_update_subscriptions env world0)
     = Raise (Exception "Failed to update subscription. Status: 500")
  /\ exchanges w'
     = [(PostRefresh "ra", mkResponse 200 (token_body "A-ra" "R-ra"));
        (PutSubscription "2024-02-29 23:59:30" "s1" "A-ra" "a.com",
         mkResponse 500 [])]
  /\ db w' = table0.
Proof. cbv zeta. repeat split; vm_compute; reflexivity. Qed.

(** C2 (amended).  When the remote push fails for one subscription of a
    domain, that subscription's local record is left unchanged, and the
    failure is not caught: the renewal of the domain stops there with
    the error of the push, so the subscriptions loaded after it are
    neither pushed nor written in this cycle, while the ones before it
    stay renewed. *)
Theorem push_failure_ends_the_domain
  (env : Env) (new_expire d : string) (w : World)
  (first : Subscriptions) (rest : list Subscriptions) (td : dict) (w1 : World)
  (pre : list Subscriptions) (s : Subscriptions) (post : list Subscriptions)
  (w2 : World) :
  let tok := str (dict_get "access_token" td) in
  let rt := dict_get "refresh_token" td in
  let call := PutSubscription new_expire (subscription_id s) tok (domain s) in
  let answer := platform env (exchanges w2) call in
  filter (fun row => String.eqb (domain row) d) (db w) = first :: rest ->
  refresh_access_token env (refresh_token first) w = (Ok td, w1) ->
  truthy (dict_get "access_token" td) = true ->
  first :: rest = pre ++ s :: post ->
  for_each pre (renew_subscription env new_expire tok rt) w1 = (Ok tt, w2) ->
  status_code answer <> 202 ->
  exists w3,
    renew_domain env new_expire d w
    = (Raise (Exception ("Failed to update subscription. Status: "
                         ++ str (PInt (status_code answer)))%string), w3)
    /\ db w3 = db w2
    /\ commits w3 = commits w2
    /\ exchanges w3 = exchanges w2 ++ [(call, answer)].
Proof.
  intros tok rt call answer Hread Hrefresh Htok Hsplit Hpre Hstatus.
  exists (snd (http env call w2)).
  split; [|split; [reflexivity|split; reflexivity]].
  rewrite renew_domain_unfold, Hread, Hrefresh, Htok, Hsplit.
  eapply for_each_raise; [exact Hpre|].
  rewrite renew_subscription_unfold. cbv zeta.
  fold tok. change (put_call new_expire tok s) with call. fold answer.
  apply Z.eqb_neq in Hstatus. rewrite Hstatus. reflexivity.
Qed.

Lemma push_failure_ends_the_domain_witness :
  let env := env_of platform_push_down in
  let new_expire := "2024-02-29 23:59:30" in
  let w := tick (tick world0) in
  let tok := str (dict_get "access_token" stamped_token) in
  let rt := dict_get "refresh_token" stamped_token in
  let call := PutSubscription new_expire (subscription_id s1_row) tok (domain s1_row) in
  let answer := platform env (exchanges refreshed) call in
  (filter (fun row => String.eqb (domain row) "a.com") (db w) = s1_row :: [s2_row]
   /\ refresh_access_token env (refresh_token s1_row) w = (Ok stamped_token, refreshed)
   /\ truthy (dict_get "access_token" stamped_token) = true
   /\ s1_row :: [s2_row] = [] ++ s1_row :: [s2_row]
   /\ for_each [] (renew_subscription env new_expire tok rt) refreshed
      = (Ok tt, refreshed)
   /\ status_code answer <> 202)
  /\ exists w3,
       renew_domain env new_expire "a.com" w
       = (Raise (Exception ("Failed to update subscription. Status: "
                            ++ str (PInt (status_code answer)))%string), w3)
       /\ db w3 = db refreshed
       /\ commits w3 = commits refreshed
       /\ exchanges w3 = exchanges refreshed ++ [(call, answer)].
Proof.
  cbv zeta.
  assert (H1 : filter (fun row => String.eqb (domain row) "a.com")
                 (db (tick (tick world0))) = s1_row :: [s2_row])
    by (vm_compute; reflexivity).
  assert (H2 : refresh_access_token (env_of platform_push_down)
                 (refresh_token s1_row) (tick (tick world0))
               = (Ok stamped_token, refreshed)) by (vm_compute; reflexivity).
  assert (H3 : truthy (dict_get "access_token" stamped_token) = true)
    by (vm_compute; reflexivity).
  assert (H4 : s1_row :: [s2_row] = [] ++ s1_row :: [s2_row]) by reflexivity.
  assert (H5 : for_each []
                 (renew_subscription (env_of platform_push_down)
                    "2024-02-29 23:59:30"
                    (str (dict_get "access_token" stamped_token))
                    (dict_get "refresh_token" stamped_token)) refreshed
               = (Ok tt, refreshed)) by reflexivity.
  assert (H6 : status_code
                 (platform (env_of platform_push_down) (exchanges refreshed)
                    (PutSubscription "2024-02-29 23:59:30" (subscription_id s1_row)
                       (str (dict_get "access_token" stamped_token))
                       (domain s1_row))) <> 202)
    by (vm_compute; discriminate).
  split; [exact (conj H1 (conj H2 (conj H3 (conj H4 (conj H5 H6)))))|].
  apply (push_failure_ends_the_domain (env_of platform_push_down)
           "2024-02-29 23:59:30" "a.com" (tick (tick world0))
           s1_row [s2_row] stamped_token refreshed [] s1_row [s2_row] refreshed
           H1 H2 H3 H4 H5 H6).
Defined.

(** ** The refresh token of a domain *)




(** ** One refresh for each domain *)


Lemma expiring_domain_NoDup env w :
  set_order_ok (set_order env) -> NoDup (expiring_domain env w).
Proof.
  intros Hord. rewrite expiring_domain_eq.
  destruct (scan_threshold env w) as [thr|]; [apply Hord|constructor].
Qed.




(** ** A failed refresh *)

(** C6.  When the token refresh of a domain fails in a cycle, the cycle
    ends with an error and, in the table it leaves, every subscription
    of that domain is the row it was before the cycle; no table state
    committed during the cycle differs on these rows, and no push for
    that domain was sent.  (The UNIQUE constraint on [subscription_id]
    is what the table guarantees.) *)
Theorem refresh_failure_leaves_domain_untouched
  (env : Env) (w : World) (new_dt : datetime)
  (pre : list string) (d : string) (post : list string) (w1 : World) :
  distinct String.eqb (map subscription_id (db w)) = true ->
  NoDup (expiring_domain env w) ->
  expiring_domain env w = pre ++ d :: post ->
  cycle_expiry env w = Some new_dt ->
  for_each pre (renew_domain env (strftime new_dt)) (tick (tick w)) = (Ok tt, w1) ->
  refresh_fails env d w1 ->
  (exists e, fst (check_and_update_subscriptions env w) = Raise e)
  /\ Forall2 (fun row row' => domain row = d -> row' = row)
       (db w) (db (snd (check_and_update_subscriptions env w)))
  /\ exists evs snaps,
       exchanges (snd (check_and_update_subscriptions env w)) = exchanges w ++ evs
       /\ Forall (fun ev => ~ push_for d ev) evs
       /\ commits (snd (check_and_update_subscriptions env w)) = commits w ++ snaps
       /\ Forall (Forall2 (fun row row' => domain row = d -> row' = row) (db w))
            snaps.
Proof.
  intros Huniq Hnodup Hdoms Hnew Hpre Hfail.
  rewrite Hdoms in Hnodup.
  assert (Hd : ~ In d pre).
  { apply NoDup_remove_2 in Hnodup. intros H. apply Hnodup.
    apply in_or_app. left. exact H. }
  set (ne := strftime new_dt) in *.
  set (D := fun x : string => In x pre).
  assert (Hev : evolves ne D w w1).
  { pose proof (evolves_domains env ne D w pre (tick (tick w))) as H.
    rewrite Hpre in H. apply H.
    - intros r1 r2 H1 H2 Hs HD.
      rewrite (distinct_injective subscription_id (db w) r1 r2 Huniq H1 H2 Hs).
      exact HD.
    - auto.
    - apply evolves_tick, evolves_tick, evolves_refl. }
  destruct (renew_domain_refresh_fails env ne d w1 Hfail)
    as (e & rt & resp & w2 & Hrun & Hdb & Hcommits & Hex).
  assert (C : check_and_update_subscriptions env w = (Raise e, w2)).
  { destruct (pre ++ d :: post) as [| d0 doms] eqn:E.
    - destruct pre; discriminate.
    - rewrite (cycle_of_domains env w d0 doms new_dt Hdoms Hnew), <- E.
      eapply for_each_raise; eassumption. }
  rewrite C. cbn [fst snd].
  destruct Hev as (evs & snaps & He & Hs & Hp & Hr & Hss & _).
  assert (Keep : forall rows, rows_step ne D w evs rows ->
                   Forall2 (fun row row' => domain row = d -> row' = row) (db w) rows).
  { intros rows H. eapply Forall2_impl; [|exact H].
    intros row row' [-> | (HD & _)] Hrow; [reflexivity|].
    exfalso. apply Hd. rewrite <- Hrow. exact HD. }
  split; [exists e; reflexivity|].
  split; [rewrite Hdb; apply Keep; exact Hr|].
  exists (evs ++ [(PostRefresh rt, resp)]), snaps.
  split; [rewrite Hex, He, app_assoc; reflexivity|].
  split; [|split; [congruence|]].
  - apply Forall_app. split.
    + eapply Forall_impl; [|exact Hp].
      intros [c r] Hw (x & sid & tok & Hc). cbn [fst] in Hc.
      unfold push_within in Hw. cbn [fst] in Hw. rewrite Hc in Hw.
      exact (Hd Hw).
    + constructor; [|constructor].
      intros (x & sid & tok & Hc). discriminate.
  - eapply Forall_impl; [|exact Hss]. exact Keep.
Qed.

Lemma refresh_failure_leaves_domain_untouched_witness :
  let env := env_of platform_rc_down in
  let w1 := snd (for_each ["a.com"] (renew_domain env (strftime granted_instant))
                   (tick (tick world0))) in
  (distinct String.eqb (map subscription_id (db world0)) = true
   /\ NoDup (expiring_domain env world0)
   /\ expiring_domain env world0 = ["a.com"] ++ "b.com" :: []
   /\ cycle_expiry env world0 = Some granted_instant
   /\ for_each ["a.com"] (renew_domain env (strftime granted_instant))
        (tick (tick world0)) = (Ok tt, w1)
   /\ refresh_fails env "b.com" w1)
  /\ ((exists e, fst (check_and_update_subscriptions env world0) = Raise e)
      /\ Forall2 (fun row row' => domain row = "b.com" -> row' = row)
           (db world0) (db (snd (check_and_update_subscriptions env world0)))
      /\ exists evs snaps,
           exchanges (snd (check_and_update_subscriptions env world0))
           = exchanges world0 ++ evs
           /\ Forall (fun ev => ~ push_for "b.com" ev) evs
           /\ commits (snd (check_and_update_subscriptions env world0))
              = commits world0 ++ snaps
           /\ Forall (Forall2 (fun row row' => domain row = "b.com" -> row' = row)
                        (db world0)) snaps).
Proof.
  cbv zeta.
  set (env := env_of platform_rc_down).
  set (w1 := snd (for_each ["a.com"] (renew_domain env (strftime granted_instant))
                    (tick (tick world0)))).
  assert (H1 : distinct String.eqb (map subscription_id (db world0)) = true)
    by (vm_compute; reflexivity).
  assert (H2 : NoDup (expiring_domain env world0))
    by (apply expiring_domain_NoDup; exact nodup_string_ok).
  assert (H3 : expiring_domain env world0 = ["a.com"] ++ "b.com" :: [])
    by (vm_compute; reflexivity).
  assert (H4 : cycle_expiry env world0 = Some granted_instant)
    by (vm_compute; reflexivity).
  assert (H5 : for_each ["a.com"] (renew_domain env (strftime granted_instant))
                 (tick (tick world0)) = (Ok tt, w1))
    by (vm_compute; reflexivity).
  assert (H6 : refresh_fails env "b.com" w1) by (vm_compute; exact I).
  split; [exact (conj H1 (conj H2 (conj H3 (conj H4 (conj H5 H6)))))|].
  apply (refresh_failure_leaves_domain_untouched env world0 granted_instant
           ["a.com"] "b.com" [] w1 H1 H2 H3 H4 H5 H6).
Defined.

(** ** Writes of the renewal path *)

(** C9.  Every table state committed during a cycle, and the table the
    cycle leaves, differs from the table before the cycle only by rows
    renewed as a whole: such a row carries the [new_expire] of the
    cycle together with the [oauth_token] and [refresh_token] of one
    and the same successful refresh exchange of the cycle (and its
    [last_updated]); no state holds a new token with the old expiry or
    a new expiry with an old token. *)
Theorem renewal_writes_are_whole (env : Env) (w : World) :
  exists evs snaps,
    exchanges (snd (check_and_update_subscriptions env w)) = exchanges w ++ evs
    /\ commits (snd (check_and_update_subscriptions env w)) = commits w ++ snaps
    /\ db (snd (check_and_update_subscriptions env w)) = last snaps (db w)
    /\ Forall
         (Forall2
            (fun row row' =>
               row' = row
               \/ exists lu tok rtok,
                    row' = renewed (new_expire_of env w) lu tok rtok row
                    /\ exists ev, In ev evs /\ token_pair ev tok rtok)
            (db w))
         snaps.
Proof.
  destruct (evolves_cycle env w) as (evs & snaps & He & Hs & _ & _ & Hss & Hl).
  exists evs, snaps. repeat split; try assumption.
  eapply Forall_impl; [|exact Hss].
  intros rows H. eapply Forall2_impl; [|exact H].
  intros row row' [-> | (_ & K)]; [left; reflexivity|right; exact K].
Qed.

(** ** Creation *)

(** The creation flow on the scenario: the credential exchange succeeds
    (status 200, tokens [AT] and [RT]), the remote creation succeeds
    (status 201, identifier [s9]), and the local upsert fails: no row is
    stored and the request ends with status 500. *)
Lemma creation_failing_input :
  let run := setup_new_subscription (env_of platform_ok) request0 world0 in
  fst run
  = Raise (HTTPException 500 "Failed to update database with subscription info")
  /\ map (fun ev => status_code (snd ev)) (exchanges (snd run)) = [200; 201]
  /\ db (snd run) = table0.
Proof. cbv zeta. repeat split; vm_compute; reflexivity. Qed.

(** The same flow when a row with the identifier [s9] exists already:
    the request succeeds and the row takes the access token [AT], but
    its [refresh_token] stays [r9]; the refresh token [RT] of the
    exchange is stored nowhere. *)
Lemma creation_on_existing_row :
  let run := setup_new_subscription (env_of platform_ok) request0 world9 in
  fst run
  = Ok [("status", PStr "success"); ("subscription_id", PStr "s9");
        ("expires", PStr "2024-02-28 23:59:30")]
  /\ map (fun r => (subscription_id r, oauth_token r, refresh_token r))
         (db (snd run))
     = [("s1", "token-0", "ra"); ("s2", "token-0", "rb"); ("s3", "token-0", "rc");
        ("s9", "AT", "r9")].
Proof. cbv zeta. repeat split; vm_compute; reflexivity. Qed.

(** C8 (the code at fault).  Whatever the platform answers, the creation
    flow leaves the [refresh_token] column of the table as it was, row
    for row, and adds no row: the upsert names the refresh token of the
    exchange [renewal_token], which is no column of the model. *)
Theorem creation_drops_refresh_token
  (env : Env) (request : SubscriptionRequest) (w : World) :
  map refresh_token (db (snd (setup_new_subscription env request w)))
  = map refresh_token (db w).
Proof. apply keeps_setup_new_subscription. Qed.

(* ================================================================== *)
(** * Part X.  Further properties of the code *)
(* ================================================================== *)

(** ** Dictionaries *)

Lemma dict_set_keys k v d x :
  In x (map fst (dict_set k v d)) <-> x = k \/ In x (map fst d).
Proof.
  induction d as [| [k' v'] d IH]; simpl.
  - intuition congruence.
  - destruct (String.eqb_spec k k') as [-> | Hk]; simpl.
    + intuition congruence.
    + rewrite IH. intuition congruence.
Qed.

Lemma dict_set_NoDup k v d :
  NoDup (map fst d) -> NoDup (map fst (dict_set k v d)).
Proof.
  induction d as [| [k' v'] d IH]; simpl; intros H.
  - constructor; [intros []|constructor].
  - inversion H as [| ? ? Hn Hd]; subst.
    destruct (String.eqb_spec k k') as [-> | Hk]; simpl.
    + constructor; assumption.
    + constructor; [|apply IH; exact Hd].
      rewrite dict_set_keys. intros [E | E]; [congruence|contradiction].
Qed.

Lemma dict_merge_NoDup a b :
  NoDup (map fst a) -> NoDup (map fst (dict_merge a b)).
Proof.
  unfold dict_merge. revert a.
  induction b as [| [k v] b IH]; intros a H; simpl; [exact H|].
  apply IH, dict_set_NoDup, H.
Qed.

Lemma dict_lookup_absent k d :
  ~ In k (map fst d) -> dict_lookup k d = None.
Proof.
  induction d as [| [k' v'] d IH]; simpl; intros H; [reflexivity|].
  destruct (String.eqb_spec k k') as [-> | Hk]; [tauto|].
  apply IH. tauto.
Qed.

(** In [{**a, **b}] the entries of [b] win. *)
Lemma dict_lookup_merge k a b :
  NoDup (map fst b) ->
  dict_lookup k (dict_merge a b)
  = match dict_lookup k b with
    | Some v => Some v
    | None => dict_lookup k a
    end.
Proof.
  unfold dict_merge. revert a.
  induction b as [| [k' v'] b IH]; intros a H; simpl; [reflexivity|].
  inversion H as [| ? ? Hn Hd]; subst.
  rewrite (IH _ Hd), dict_lookup_set.
  destruct (String.eqb_spec k k') as [-> | Hk]; [|reflexivity].
  rewrite (dict_lookup_absent _ _ Hn). reflexivity.
Qed.

Lemma dict_filter_keys (p : string * pyval -> bool) d x :
  In x (map fst (filter p d)) -> In x (map fst d).
Proof.
  intros H. apply in_map_iff in H as (kv & <- & Hin).
  apply filter_In in Hin as [Hin _]. apply in_map. exact Hin.
Qed.

Lemma dict_filter_NoDup (p : string * pyval -> bool) d :
  NoDup (map fst d) -> NoDup (map fst (filter p d)).
Proof.
  induction d as [| [k v] d IH]; simpl; intros H; [constructor|].
  inversion H as [| ? ? Hn Hd]; subst.
  destruct (p (k, v)); simpl; [|exact (IH Hd)].
  constructor; [|exact (IH Hd)].
  intros Hin. apply Hn. eapply dict_filter_keys. exact Hin.
Qed.

Lemma dict_lookup_filter (p : string * pyval -> bool) k v d :
  NoDup (map fst d) -> dict_lookup k d = Some v -> p (k, v) = true ->
  dict_lookup k (filter p d) = Some v.
Proof.
  induction d as [| [k' v'] d IH]; simpl; intros Hnd Hk Hp; [discriminate|].
  inversion Hnd as [| ? ? Hn Hd]; subst.
  destruct (String.eqb_spec k k') as [-> | Hne].
  - injection Hk as ->. rewrite Hp. simpl. rewrite String.eqb_refl. reflexivity.
  - destruct (p (k', v')); simpl.
    + apply String.eqb_neq in Hne. rewrite Hne. exact (IH Hd Hk Hp).
    + exact (IH Hd Hk Hp).
Qed.

(** ** Rows and their columns *)

Ltac column_cases k :=
  repeat match goal with
         | |- context [if String.eqb k ?s then _ else _] =>
             destruct (String.eqb_spec k s); [subst k|]
         end.

Lemma setattr_get k v r r' :
  setattr r k v = Stored r' -> get_column k r' = Some v.
Proof.
  destruct r. unfold setattr, set_str, get_column.
  repeat match goal with
         | |- context [if String.eqb k ?s then _ else _] =>
             destruct (String.eqb k s)
         end;
    destruct v; try discriminate; intros [= <-]; reflexivity.
Qed.

Lemma setattr_get_other k k' v r r' :
  setattr r k v = Stored r' -> String.eqb k' k = false ->
  get_column k' r' = get_column k' r.
Proof.
  destruct r. unfold setattr, set_str.
  column_cases k; try discriminate;
    destruct v; try discriminate; intros [= <-] Hk;
    unfold get_column; rewrite Hk; reflexivity.
Qed.

Lemma setattr_transient k v r :
  setattr r k v = Transient -> is_column k = false.
Proof.
  destruct r. unfold setattr, set_str, is_column, is_attribute. cbn [existsb].
  column_cases k; try discriminate; try (destruct v; discriminate);
    intros _; reflexivity.
Qed.

(** The columns that [update_data] does not name keep their value. *)
Lemma apply_update_absent ud :
  forall r r', apply_update ud r = Some r' ->
  forall k, dict_lookup k ud = None -> get_column k r' = get_column k r.
Proof.
  induction ud as [| [k0 v0] ud IH]; intros r r'; simpl.
  - intros [= <-] k _. reflexivity.
  - intros H k Hk.
    destruct (String.eqb k k0) eqn:E; [discriminate Hk|].
    destruct (setattr r k0 v0) as [r1 | |] eqn:S; try discriminate.
    + rewrite (IH _ _ H k Hk). eapply setattr_get_other; eassumption.
    + exact (IH _ _ H k Hk).
Qed.

(** The columns that [update_data] names take its value. *)
Lemma apply_update_lookup ud :
  NoDup (map fst ud) ->
  forall r r', apply_update ud r = Some r' ->
  forall k v, is_column k = true -> dict_lookup k ud = Some v ->
    get_column k r' = Some v.
Proof.
  induction ud as [| [k0 v0] ud IH]; intros Hnd r r'; simpl.
  - intros _ k v _ [=].
  - inversion Hnd as [| ? ? Hn Hd]; subst.
    intros H k v Hc Hk.
    destruct (String.eqb_spec k k0) as [-> | Hne].
    + injection Hk as <-.
      destruct (setattr r k0 v0) as [r1 | |] eqn:S; try discriminate.
      * rewrite (apply_update_absent _ _ _ H k0 (dict_lookup_absent _ _ Hn)).
        eapply setattr_get; eassumption.
      * apply setattr_transient in S. congruence.
    + destruct (setattr r k0 v0) as [r1 | |] eqn:S; try discriminate;
        exact (IH Hd _ _ H k v Hc Hk).
Qed.

Lemma pyval_eqb_refl v : pyval_eqb v v = true.
Proof. destruct v; simpl; [reflexivity|apply String.eqb_refl|apply Z.eqb_refl]. Qed.

Lemma pyval_eqb_eq a b : pyval_eqb a b = true <-> a = b.
Proof.
  destruct a, b; simpl; try (split; [discriminate|congruence]).
  - tauto.
  - rewrite String.eqb_eq. split; congruence.
  - rewrite Z.eqb_eq. split; congruence.
Qed.

Lemma dict_lookup_Some_In k v d : dict_lookup k d = Some v -> In (k, v) d.
Proof.
  induction d as [| [k' v'] d IH]; simpl; [discriminate|].
  destruct (String.eqb_spec k k') as [-> | _].
  - intros [= ->]. left. reflexivity.
  - intros H. right. exact (IH H).
Qed.

(** A row is selected when it bears the value of every filter. *)
Lemma matchesb_spec filters r :
  matchesb filters r = true
  <-> forall k v, In (k, v) filters -> get_column k r = Some v.
Proof.
  unfold matchesb. rewrite forallb_forall. split.
  - intros H k v Hin. specialize (H _ Hin). cbn [fst snd] in H.
    destruct (get_column k r) as [c|]; [|discriminate].
    apply pyval_eqb_eq in H. congruence.
  - intros H [k v] Hin. cbn [fst snd]. rewrite (H _ _ Hin).
    apply pyval_eqb_refl.
Qed.

Lemma filter_ok_column k v :
  filter_ok (k, v) = true -> server_side (k, v) = false -> is_column k = true.
Proof.
  unfold filter_ok, server_side, is_column. cbn [fst snd].
  destruct (String.eqb_spec k "id") as [-> | _]; [reflexivity|].
  destruct (String.eqb k "created_at").
  - destruct v; discriminate.
  - rewrite andb_true_iff. intros [-> _] _. reflexivity.
Qed.

(** No row has a NULL [id] or [created_at]. *)
Lemma server_side_matches_nothing filters k v r :
  dict_lookup k filters = Some v -> server_side (k, v) = true ->
  matchesb filters r = false.
Proof.
  intros Hk Hs. apply not_true_is_false. intros Hm.
  apply dict_lookup_Some_In in Hk.
  pose proof (proj1 (matchesb_spec filters r) Hm k v Hk) as G.
  unfold server_side in Hs. cbn [fst snd] in Hs.
  destruct v; try discriminate Hs.
  apply orb_true_iff in Hs as [E | E]; apply String.eqb_eq in E; subst k;
    discriminate G.
Qed.

Lemma dict_lookup_In k v d :
  NoDup (map fst d) -> In (k, v) d -> dict_lookup k d = Some v.
Proof.
  induction d as [| [k' v'] d IH]; simpl; intros Hnd Hin; [contradiction|].
  inversion Hnd as [| ? ? Hn Hd]; subst.
  destruct Hin as [[= -> ->] | Hin].
  - rewrite String.eqb_refl. reflexivity.
  - destruct (String.eqb_spec k k') as [-> | Hk].
    + exfalso. apply Hn. apply (in_map fst) in Hin. exact Hin.
    + exact (IH Hd Hin).
Qed.

Lemma select_filter_by_inv filters rows sel :
  select_filter_by filters rows = Some sel ->
  forallb filter_ok filters = true /\ sel = filter (matchesb filters) rows.
Proof.
  unfold select_filter_by. destruct (forallb filter_ok filters); [|discriminate].
  intros [= <-]. split; reflexivity.
Qed.

Lemma read_from_table_inv filters w rows w' :
  read_from_table filters w = (Ok rows, w') ->
  w' = w /\ select_filter_by filters (db w) = Some rows.
Proof.
  unfold read_from_table.
  destruct (select_filter_by filters (db w)); [|discriminate].
  intros [= <- <-]. split; reflexivity.
Qed.

Lemma commit_inv rows next w r w' :
  commit rows next w = (r, w') ->
  (r = Ok tt /\ constraints_hold rows = true /\ w' = set_db rows next w)
  \/ (r = Raise session_error /\ w' = w).
Proof.
  unfold commit. destruct (constraints_hold rows); intros [= <- <-]; auto.
Qed.

Lemma filter_app_nil {A} (p : A -> bool) l x :
  filter p l = [] -> p x = true -> filter p (l ++ [x]) = [x].
Proof. intros H Hx. rewrite filter_app, H. simpl. rewrite Hx. reflexivity. Qed.

(** ** [update_table]: the insertion *)

Lemma update_table_insert_inv filters ud w w' :
  select_filter_by filters (db w) = Some [] ->
  update_table filters ud w = (Ok tt, w') ->
  exists r next,
    construct (next_id w) (dict_merge filters ud) = Constructed r
    /\ constraints_hold (db w ++ [r]) = true
    /\ w' = set_db (db w ++ [r]) next w.
Proof.
  intros Hsel Hup. unfold update_table in Hup. rewrite Hsel in Hup.
  destruct (construct (next_id w) (dict_merge filters ud)) as [r | |];
    try discriminate.
  apply commit_inv in Hup as [(_ & Hc & ->) | [[=] _]].
  eexists r, _. repeat split. exact Hc.
Qed.

Lemma construct_columns next data r :
  NoDup (map fst data) ->
  construct next data = Constructed r ->
  forall k v, is_column k = true -> dict_lookup k data = Some v ->
    server_side (k, v) = false -> get_column k r = Some v.
Proof.
  intros Hnd C. unfold construct in C.
  destruct (negb (forallb _ data)); [discriminate|].
  destruct (negb (forallb _ required_columns)); [discriminate|].
  destruct (apply_update _ _) as [r0|] eqn:A; [|discriminate].
  injection C as ->. intros k v Hc Hk Hs.
  apply (apply_update_lookup _ (dict_filter_NoDup _ _ Hnd) _ _ A k v Hc).
  apply dict_lookup_filter; [exact Hnd|exact Hk|].
  rewrite Hs. reflexivity.
Qed.

(** The values of an inserted row: those of [update_data], and those of
    the filters for the columns that [update_data] leaves out; an [id]
    or a [created_at] that is [None] is left to the server. *)
Lemma inserted_row_columns filters ud next r :
  NoDup (map fst filters) -> NoDup (map fst ud) ->
  forallb filter_ok filters = true ->
  construct next (dict_merge filters ud) = Constructed r ->
  (forall k v, is_column k = true -> dict_lookup k ud = Some v ->
     server_side (k, v) = false -> get_column k r = Some v)
  /\ (forall k v, dict_lookup k ud = None -> dict_lookup k filters = Some v ->
        server_side (k, v) = false -> get_column k r = Some v).
Proof.
  intros Hf Hu Hok C.
  pose proof (construct_columns _ _ _ (dict_merge_NoDup filters ud Hf) C) as L.
  split.
  - intros k v Hc Hk Hs. apply L; [exact Hc| |exact Hs].
    rewrite (dict_lookup_merge k filters ud Hu), Hk. reflexivity.
  - intros k v Hk Hv Hs.
    pose proof (dict_lookup_Some_In _ _ _ Hv) as Hin.
    rewrite forallb_forall in Hok. apply Hok in Hin.
    apply L; [exact (filter_ok_column _ _ Hin Hs)| |exact Hs].
    rewrite (dict_lookup_merge k filters ud Hu), Hk. exact Hv.
Qed.

Lemma inserted_row_matches filters ud next r :
  NoDup (map fst filters) -> NoDup (map fst ud) ->
  forallb filter_ok filters = true ->
  (forall k v, dict_lookup k filters = Some v ->
     server_side (k, v) = false
     /\ (dict_lookup k ud = None \/ dict_lookup k ud = Some v)) ->
  construct next (dict_merge filters ud) = Constructed r ->
  matchesb filters r = true.
Proof.
  intros Hf Hu Hok Hagree C.
  destruct (inserted_row_columns _ _ _ _ Hf Hu Hok C) as [L1 L2].
  apply matchesb_spec. intros k v Hin.
  pose proof (dict_lookup_In k v filters Hf Hin) as Hv.
  rewrite forallb_forall in Hok. apply Hok in Hin.
  destruct (Hagree k v Hv) as [Hs [E | E]].
  - exact (L2 k v E Hv Hs).
  - exact (L1 k v (filter_ok_column _ _ Hin Hs) E Hs).
Qed.

(** X1.  The insertion of [update_table]: when the filters select no row
    and the call succeeds, the table has one more row; the row bears
    the values of [update_data] and, for the columns that [update_data]
    leaves out, those of the filters, except an [id] or a [created_at]
    given as [None], which the server fills in.  When no filter asks
    for such a [None] and [update_data] does not contradict the
    filters, reading the table with the same filters returns exactly
    this row; when a filter asks for an [id] or a [created_at] that is
    [None], the same filters still select nothing after the insertion.
    No request is sent. *)
Theorem update_table_insert_then_read
  (filters update_data : dict) (w w' : World) :
  NoDup (map fst filters) -> NoDup (map fst update_data) ->
  read_from_table filters w = (Ok [], w) ->
  update_table filters update_data w = (Ok tt, w') ->
  exchanges w' = exchanges w
  /\ exists r,
       db w' = db w ++ [r]
       /\ (forall k v, is_column k = true ->
             dict_lookup k update_data = Some v ->
             server_side (k, v) = false -> get_column k r = Some v)
       /\ (forall k v, dict_lookup k update_data = None ->
             dict_lookup k filters = Some v ->
             server_side (k, v) = false -> get_column k r = Some v)
       /\ ((forall k v, dict_lookup k filters = Some v ->
              server_side (k, v) = false
              /\ (dict_lookup k update_data = None
                  \/ dict_lookup k update_data = Some v)) ->
           read_from_table filters w' = (Ok [r], w'))
       /\ ((exists k v, dict_lookup k filters = Some v
                        /\ server_side (k, v) = true) ->
           read_from_table filters w' = (Ok [], w')).
Proof.
  intros Hf Hu Hread Hup.
  apply read_from_table_inv in Hread as [_ Hsel].
  destruct (update_table_insert_inv _ _ _ _ Hsel Hup) as (r & next & C & _ & ->).
  apply select_filter_by_inv in Hsel as [Hok Hnone].
  destruct (inserted_row_columns _ _ _ _ Hf Hu Hok C) as [L1 L2].
  split; [reflexivity|]. exists r. cbn [db set_db].
  split; [reflexivity|]. split; [exact L1|]. split; [exact L2|].
  split.
  - intros Hagree. unfold read_from_table, select_filter_by. cbn [db set_db].
    rewrite Hok. f_equal. f_equal.
    apply filter_app_nil; [symmetry; exact Hnone|].
    eapply inserted_row_matches; eassumption.
  - intros (k & v & Hk & Hs). unfold read_from_table, select_filter_by.
    cbn [db set_db]. rewrite Hok. f_equal. f_equal.
    rewrite filter_app, <- Hnone. cbn [filter app].
    rewrite (server_side_matches_nothing filters k v r Hk Hs). reflexivity.
Qed.

Lemma update_table_insert_then_read_witness :
  let w' := snd (update_table new_filters new_data world0) in
  (NoDup (map fst new_filters) /\ NoDup (map fst new_data)
   /\ read_from_table new_filters world0 = (Ok [], world0)
   /\ update_table new_filters new_data world0 = (Ok tt, w'))
  /\ (exchanges w' = exchanges world0
      /\ exists r,
           db w' = db world0 ++ [r]
           /\ (forall k v, is_column k = true ->
                 dict_lookup k new_data = Some v ->
                 server_side (k, v) = false -> get_column k r = Some v)
           /\ (forall k v, dict_lookup k new_data = None ->
                 dict_lookup k new_filters = Some v ->
                 server_side (k, v) = false -> get_column k r = Some v)
           /\ ((forall k v, dict_lookup k new_filters = Some v ->
                  server_side (k, v) = false
                  /\ (dict_lookup k new_data = None
                      \/ dict_lookup k new_data = Some v)) ->
               read_from_table new_filters w' = (Ok [r], w'))
           /\ ((exists k v, dict_lookup k new_filters = Some v
                            /\ server_side (k, v) = true) ->
               read_from_table new_filters w' = (Ok [], w'))).
Proof.
  cbv zeta.
  set (w' := snd (update_table new_filters new_data world0)).
  assert (H1 : NoDup (map fst new_filters))
    by (apply (NoDup_nodup string_dec (map fst new_filters))).
  assert (H2 : NoDup (map fst new_data))
    by (apply (NoDup_nodup string_dec (map fst new_data))).
  assert (H3 : read_from_table new_filters world0 = (Ok [], world0))
    by (vm_compute; reflexivity).
  assert (H4 : update_table new_filters new_data world0 = (Ok tt, w'))
    by (vm_compute; reflexivity).
  split; [exact (conj H1 (conj H2 (conj H3 H4)))|].
  apply (update_table_insert_then_read new_filters new_data world0 w' H1 H2 H3 H4).
Defined.

(** ** [update_table]: the update *)

Lemma update_rows_spec filters ud :
  NoDup (map fst ud) ->
  forall rows rows', update_rows filters ud rows = Some rows' ->
  Forall2
    (fun r r' =>
       if matchesb filters r then
         (forall k v, is_column k = true ->
            dict_lookup k ud = Some v -> get_column k r' = Some v)
         /\ (forall k, dict_lookup k ud = None -> get_column k r' = get_column k r)
       else r' = r)
    rows rows'.
Proof.
  intros Hnd. induction rows as [| r rows IH]; intros rows'; simpl.
  - intros [= <-]. constructor.
  - destruct (matchesb filters r) eqn:Hm.
    + destruct (apply_update ud r) as [r1|] eqn:A; [|discriminate].
      destruct (update_rows filters ud rows) as [rest|]; [|discriminate].
      intros [= <-]. constructor; [|apply IH; reflexivity].
      rewrite Hm. split.
      * exact (apply_update_lookup _ Hnd _ _ A).
      * exact (apply_update_absent _ _ _ A).
    + destruct (update_rows filters ud rows) as [rest|]; [|discriminate].
      intros [= <-]. constructor; [|apply IH; reflexivity].
      rewrite Hm. reflexivity.
Qed.

(** X2.  The update of [update_table]: when the filters select a row and
    the call succeeds, no row is added or removed; every selected row
    bears the values of [update_data] in the columns it names and its
    former values in the others; every other row is as it was.  No
    request is sent and no [id] is drawn. *)
Theorem update_table_updates_selected
  (filters update_data : dict) (w w' : World)
  (row : Subscriptions) (rows : list Subscriptions) :
  NoDup (map fst update_data) ->
  read_from_table filters w = (Ok (row :: rows), w) ->
  update_table filters update_data w = (Ok tt, w') ->
  exchanges w' = exchanges w
  /\ next_id w' = next_id w
  /\ Forall2
       (fun r r' =>
          if matchesb filters r then
            (forall k v, is_column k = true ->
               dict_lookup k update_data = Some v -> get_column k r' = Some v)
            /\ (forall k, dict_lookup k update_data = None ->
                  get_column k r' = get_column k r)
          else r' = r)
       (db w) (db w').
Proof.
  intros Hnd Hread Hup.
  apply read_from_table_inv in Hread as [_ Hsel].
  unfold update_table in Hup. rewrite Hsel in Hup.
  destruct (update_rows filters update_data (db w)) as [rows'|] eqn:U;
    [|discriminate].
  apply commit_inv in Hup as [(_ & _ & ->) | [[=] _]].
  cbn [db exchanges next_id set_db]. repeat split.
  exact (update_rows_spec _ _ Hnd _ _ U).
Qed.

Lemma update_table_updates_selected_witness :
  let filters := [("domain", PStr "a.com")] in
  let update_data := [("oauth_token", PStr "AT"); ("last_updated", PNone)] in
  let w' := snd (update_table filters update_data world0) in
  (NoDup (map fst update_data)
   /\ read_from_table filters world0 = (Ok (s1_row :: [s2_row]), world0)
   /\ update_table filters update_data world0 = (Ok tt, w'))
  /\ (exchanges w' = exchanges world0
      /\ next_id w' = next_id world0
      /\ Forall2
           (fun r r' =>
              if matchesb filters r then
                (forall k v, is_column k = true ->
                   dict_lookup k update_data = Some v -> get_column k r' = Some v)
                /\ (forall k, dict_lookup k update_data = None ->
                      get_column k r' = get_column k r)
              else r' = r)
           (db world0) (db w')).
Proof.
  cbv zeta.
  set (filters := [("domain", PStr "a.com")]).
  set (update_data := [("oauth_token", PStr "AT"); ("last_updated", PNone)]).
  set (w' := snd (update_table filters update_data world0)).
  assert (H1 : NoDup (map fst update_data))
    by (apply (NoDup_nodup string_dec (map fst update_data))).
  assert (H2 : read_from_table filters world0 = (Ok (s1_row :: [s2_row]), world0))
    by (vm_compute; reflexivity).
  assert (H3 : update_table filters update_data world0 = (Ok tt, w'))
    by (vm_compute; reflexivity).
  split; [exact (conj H1 (conj H2 H3))|].
  apply (update_table_updates_selected filters update_data world0 w'
           s1_row [s2_row] H1 H2 H3).
Defined.

(** ** [get_session] and [delete_from_table] *)

(** Whatever is raised inside a session, the caller sees status 500 and
    the table is as it was. *)
Lemma get_session_raise {A}
  (body : list Subscriptions -> (A * list Subscriptions) + session_exn) w e w' :
  get_session body w = (Raise e, w') ->
  w' = w
  /\ match body (db w) with
     | inr (OtherException _) => e = unexpected_session_error
     | _ => e = session_error
     end.
Proof.
  unfold get_session.
  destruct (body (db w)) as [[a rows] | [| e0]].
  - destruct (constraints_hold rows); [discriminate|].
    intros [= <- <-]. split; reflexivity.
  - intros [= <- <-]. split; reflexivity.
  - intros [= <- <-]. split; reflexivity.
Qed.

Lemma get_session_ok {A}
  (body : list Subscriptions -> (A * list Subscriptions) + session_exn) w a w' :
  get_session body w = (Ok a, w') ->
  exists rows,
    body (db w) = inl (a, rows) /\ constraints_hold rows = true
    /\ w' = set_db rows (next_id w) w.
Proof.
  unfold get_session.
  destruct (body (db w)) as [[a0 rows] | [| e0]]; try discriminate.
  destruct (constraints_hold rows) eqn:C; [|discriminate].
  intros [= <- <-]. exists rows. repeat split. exact C.
Qed.

Lemma filter_filter_negb {A} (p : A -> bool) l :
  filter p (filter (fun x => negb (p x)) l) = [].
Proof.
  induction l as [| x l IH]; simpl; [reflexivity|].
  destruct (p x) eqn:E; simpl; [exact IH|]. rewrite E. exact IH.
Qed.

(** X3.  A successful [delete_from_table] removes the rows that the
    filters select, of which there is at least one, and keeps every
    other row; afterwards the same filters select nothing, and a second
    deletion with them fails and changes nothing.  No request is
    sent. *)
Theorem delete_from_table_removes_selected (filters : dict) (w w' : World) :
  delete_from_table filters w = (Ok tt, w') ->
  (exists r, In r (db w) /\ matchesb filters r = true)
  /\ (forall r, In r (db w') <-> In r (db w) /\ matchesb filters r = false)
  /\ exchanges w' = exchanges w
  /\ read_from_table filters w' = (Ok [], w')
  /\ delete_from_table filters w' = (Raise unexpected_session_error, w').
Proof.
  unfold delete_from_table at 1. intros H.
  apply get_session_ok in H as (rows & B & _ & ->).
  destruct (select_filter_by filters (db w)) as [[| r0 sel] |] eqn:Hsel;
    try discriminate.
  injection B as <-.
  apply select_filter_by_inv in Hsel as [Hok Hsel].
  cbn [db exchanges set_db].
  split.
  { exists r0. apply filter_In. rewrite <- Hsel. left. reflexivity. }
  split.
  { intros r. rewrite filter_In, negb_true_iff. reflexivity. }
  split; [reflexivity|].
  unfold delete_from_table, get_session, read_from_table, select_filter_by.
  cbn [db set_db].
  rewrite Hok, filter_filter_negb. split; reflexivity.
Qed.

Lemma delete_from_table_removes_selected_witness :
  let filters := [("domain", PStr "a.com")] in
  let w' := snd (delete_from_table filters world0) in
  delete_from_table filters world0 = (Ok tt, w')
  /\ ((exists r, In r (db world0) /\ matchesb filters r = true)
      /\ (forall r, In r (db w') <-> In r (db world0) /\ matchesb filters r = false)
      /\ exchanges w' = exchanges world0
      /\ read_from_table filters w' = (Ok [], w')
      /\ delete_from_table filters w' = (Raise unexpected_session_error, w')).
Proof.
  cbv zeta.
  set (filters := [("domain", PStr "a.com")]).
  set (w' := snd (delete_from_table filters world0)).
  assert (H1 : delete_from_table filters world0 = (Ok tt, w'))
    by (vm_compute; reflexivity).
  split; [exact H1|].
  apply (delete_from_table_removes_selected filters world0 w' H1).
Defined.

(** X4.  A failed [delete_from_table] leaves the world as it was, and
    its error is answered with status 500 in every case.  In particular,
    when the filters select no row (as do filters that ask for a NULL
    [created_at]), the [HTTPException] of status 404 that the function
    raises inside the session does not reach the caller: [get_session]
    puts the status 500 with the detail [Unexpected database session
    error] in its place. *)
Theorem delete_from_table_failure
  (filters : dict) (w w' : World) (e : exn) :
  delete_from_table filters w = (Raise e, w') ->
  w' = w
  /\ is_http 500 e
  /\ (read_from_table filters w = (Ok [], w) ->
      e = HTTPException 500 "Unexpected database session error").
Proof.
  unfold delete_from_table. intros H.
  apply get_session_raise in H as [-> H].
  split; [reflexivity|]. unfold read_from_table.
  destruct (select_filter_by filters (db w)) as [[| r0 sel] |]; subst e.
  - split; [eexists; reflexivity|]. reflexivity.
  - split; [eexists; reflexivity|]. discriminate.
  - split; [eexists; reflexivity|]. discriminate.
Qed.

Lemma delete_from_table_failure_witness :
  let filters := [("created_at", PNone)] in
  delete_from_table filters world0
  = (Raise (HTTPException 500 "Unexpected database session error"), world0)
  /\ (world0 = world0
      /\ is_http 500 (HTTPException 500 "Unexpected database session error")
      /\ (read_from_table filters world0 = (Ok [], world0) ->
          HTTPException 500 "Unexpected database session error"
          = HTTPException 500 "Unexpected database session error")).
Proof.
  cbv zeta.
  assert (H1 : delete_from_table [("created_at", PNone)] world0
               = (Raise (HTTPException 500 "Unexpected database session error"),
                  world0))
    by (vm_compute; reflexivity).
  split; [exact H1|].
  apply (delete_from_table_failure [("created_at", PNone)] world0 world0
           (HTTPException 500 "Unexpected database session error") H1).
Defined.

(** ** Insertion, then deletion *)

Lemma existsb_app_false {A} (p : A -> bool) l l' :
  existsb p (l ++ l') = false -> existsb p l = false.
Proof. rewrite existsb_app, orb_false_iff. tauto. Qed.

Lemma distinct_app_l {A} (eqb : A -> A -> bool) l l' :
  distinct eqb (l ++ l') = true -> distinct eqb l = true.
Proof.
  induction l as [| x l IH]; simpl; [reflexivity|].
  rewrite !andb_true_iff, !negb_true_iff. intros [H1 H2].
  split; [eapply existsb_app_false; exact H1|exact (IH H2)].
Qed.

Lemma constraints_hold_app_l rows rows' :
  constraints_hold (rows ++ rows') = true -> constraints_hold rows = true.
Proof.
  unfold constraints_hold. rewrite !map_app, forallb_app, !andb_true_iff.
  intros [[[H1 _] H2] H3].
  repeat split; [exact H1|eapply distinct_app_l; exact H2
                |eapply distinct_app_l; exact H3].
Qed.

Lemma filter_none {A} (p : A -> bool) l :
  filter p l = [] -> filter (fun x => negb (p x)) l = l.
Proof.
  induction l as [| x l IH]; simpl; [reflexivity|].
  destruct (p x); [discriminate|]. intros H. simpl. rewrite (IH H). reflexivity.
Qed.

(** X5.  Deleting with the filters of an insertion undoes the insertion:
    when [update_table] has inserted a row for filters that selected
    nothing, no filter asks for an [id] or a [created_at] that is
    [None], and [update_data] does not contradict the filters,
    [delete_from_table] with the same filters succeeds and leaves the
    rows that the table had before the insertion, in their order.
    (With a filter that asks for such a [None] the deletion finds no
    row and fails.) *)
Theorem delete_undoes_insert (filters update_data : dict) (w w1 : World) :
  NoDup (map fst filters) -> NoDup (map fst update_data) ->
  read_from_table filters w = (Ok [], w) ->
  update_table filters update_data w = (Ok tt, w1) ->
  ((forall k v, dict_lookup k filters = Some v ->
      server_side (k, v) = false
      /\ (dict_lookup k update_data = None \/ dict_lookup k update_data = Some v)) ->
   exists w2, delete_from_table filters w1 = (Ok tt, w2) /\ db w2 = db w)
  /\ ((exists k v, dict_lookup k filters = Some v /\ server_side (k, v) = true) ->
      delete_from_table filters w1 = (Raise unexpected_session_error, w1)).
Proof.
  intros Hf Hu Hread Hup.
  apply read_from_table_inv in Hread as [_ Hsel].
  destruct (update_table_insert_inv _ _ _ _ Hsel Hup) as (r & next & C & HC & ->).
  apply select_filter_by_inv in Hsel as [Hok Hnone]. symmetry in Hnone.
  split.
  - intros Hagree.
    pose proof (inserted_row_matches _ _ _ _ Hf Hu Hok Hagree C) as Hm.
    unfold delete_from_table, get_session, select_filter_by.
    cbn [db next_id set_db].
    rewrite Hok, (filter_app_nil _ _ _ Hnone Hm).
    rewrite filter_app, (filter_none _ _ Hnone). simpl. rewrite Hm. simpl.
    rewrite app_nil_r, (constraints_hold_app_l _ _ HC).
    eexists. split; reflexivity.
  - intros (k & v & Hk & Hs).
    unfold delete_from_table, get_session, select_filter_by.
    cbn [db next_id set_db].
    rewrite Hok, filter_app, Hnone. cbn [filter app].
    rewrite (server_side_matches_nothing filters k v r Hk Hs). reflexivity.
Qed.

Lemma delete_undoes_insert_witness :
  let w1 := snd (update_table new_filters new_data world0) in
  (NoDup (map fst new_filters) /\ NoDup (map fst new_data)
   /\ read_from_table new_filters world0 = (Ok [], world0)
   /\ update_table new_filters new_data world0 = (Ok tt, w1)
   /\ (forall k v, dict_lookup k new_filters = Some v ->
         server_side (k, v) = false
         /\ (dict_lookup k new_data = None \/ dict_lookup k new_data = Some v)))
  /\ exists w2, delete_from_table new_filters w1 = (Ok tt, w2) /\ db w2 = db world0.
Proof.
  cbv zeta.
  set (w1 := snd (update_table new_filters new_data world0)).
  assert (H1 : NoDup (map fst new_filters))
    by (apply (NoDup_nodup string_dec (map fst new_filters))).
  assert (H2 : NoDup (map fst new_data))
    by (apply (NoDup_nodup string_dec (map fst new_data))).
  assert (H3 : read_from_table new_filters world0 = (Ok [], world0))
    by (vm_compute; reflexivity).
  assert (H4 : update_table new_filters new_data world0 = (Ok tt, w1))
    by (vm_compute; reflexivity).
  assert (H5 : forall k v, dict_lookup k new_filters = Some v ->
                 server_side (k, v) = false
                 /\ (dict_lookup k new_data = None
                     \/ dict_lookup k new_data = Some v)).
  { intros k v H. unfold new_filters in H. cbn [dict_lookup] in H.
    destruct (String.eqb_spec k "subscription_id") as [-> | _]; [|discriminate H].
    injection H as <-. split; [reflexivity|]. left. reflexivity. }
  split; [exact (conj H1 (conj H2 (conj H3 (conj H4 H5))))|].
  apply (proj1 (delete_undoes_insert new_filters new_data world0 w1 H1 H2 H3 H4) H5).
Defined.

(** ** The job of the scheduler *)

Lemma execute_update_map id lu rows :
  Scheduler.execute_update id lu rows
  = map (fun r => if row_id r =? id then with_last_updated lu r else r) rows.
Proof. reflexivity. Qed.

Lemma stamping_fold lu (sel : list Subscriptions) :
  forall rows,
    fold_left (fun rows s => Scheduler.execute_update (row_id s) lu rows) sel rows
    = map (fun r => if existsb (fun s => row_id s =? row_id r) sel
                    then with_last_updated lu r else r) rows.
Proof.
  induction sel as [| s sel IH]; intros rows; simpl.
  - symmetry. apply map_id.
  - rewrite IH, execute_update_map, map_map. apply map_ext. intros r.
    rewrite (Z.eqb_sym (row_id s) (row_id r)).
    destruct (row_id r =? row_id s); simpl; [|reflexivity].
    destruct (existsb _ sel); reflexivity.
Qed.

Lemma job_unfold env w :
  Scheduler.update_expiring_subscriptions env w
  = match job_threshold env w with
    | None => (Raise OverflowError, tick w)
    | Some thr =>
        let lu := strftime (clock env (ticks w)) in
        let rows :=
          map (fun r => if existsb (fun s => row_id s =? row_id r)
                             (expiring thr (db w))
                        then with_last_updated lu r else r) (db w) in
        if constraints_hold rows then (Ok tt, set_db rows (next_id w) (tick w))
        else (Ok tt, tick w)
    end.
Proof.
  unfold Scheduler.update_expiring_subscriptions, job_threshold, bind,
    datetime_now, of_option, try_except, commit, ret, raise.
  fold (tick w).
  destruct (dt_add _ _) as [thr|]; [|reflexivity].
  cbn [db next_id tick]. rewrite stamping_fold. fold (expiring thr (db w)).
  cbv zeta. destruct (constraints_hold _); reflexivity.
Qed.

Lemma stamping_keeps_columns lu (p : Subscriptions -> bool) rows :
  map without_last_updated
    (map (fun r => if p r then with_last_updated lu r else r) rows)
  = map without_last_updated rows.
Proof.
  rewrite map_map. apply map_ext. intros r. destruct (p r); reflexivity.
Qed.

(** X6.  The job of the scheduler sends no request and changes no
    column but [last_updated]: the rows are the same in number and
    order, with their identifiers, expiries and tokens.  It logs and
    swallows a failed write; the one error that leaves it is the
    status 500 of the session, when the threshold is beyond the last
    date of the calendar, and then nothing is written. *)
Theorem scheduler_job_only_touches_last_updated (env : Env) (w : World) :
  exchanges (snd (Scheduler.check_and_update_subscriptions env w)) = exchanges w
  /\ map without_last_updated
       (db (snd (Scheduler.check_and_update_subscriptions env w)))
     = map without_last_updated (db w)
  /\ ((job_threshold env w <> None
       /\ fst (Scheduler.check_and_update_subscriptions env w) = Ok tt)
      \/ (job_threshold env w = None
          /\ Scheduler.check_and_update_subscriptions env w
             = (Raise unexpected_session_error, tick w))).
Proof.
  unfold Scheduler.check_and_update_subscriptions, try_except.
  rewrite job_unfold.
  destruct (job_threshold env w) as [thr|].
  - cbv zeta. destruct (constraints_hold _); cbn [fst snd db exchanges set_db tick].
    + rewrite stamping_keeps_columns.
      split; [reflexivity|]. split; [reflexivity|]. left. split; [discriminate|reflexivity].
    + split; [reflexivity|]. split; [reflexivity|]. left. split; [discriminate|reflexivity].
  - cbn. split; [reflexivity|]. split; [reflexivity|]. right. split; reflexivity.
Qed.

Lemma distinct_Z_injective {A} (f : A -> Z) l a b :
  distinct Z.eqb (map f l) = true ->
  In a l -> In b l -> f a = f b -> a = b.
Proof.
  induction l as [| x l IH]; simpl; [tauto|].
  rewrite andb_true_iff, negb_true_iff. intros [Hx Hl] Ha Hb Hf.
  assert (N : forall y, In y l -> f x <> f y).
  { intros y Hy E.
    assert (K : existsb (Z.eqb (f x)) (map f l) = true).
    { apply existsb_exists. exists (f y). split; [apply in_map; exact Hy|].
      apply Z.eqb_eq. exact E. }
    congruence. }
  destruct Ha as [<- | Ha], Hb as [<- | Hb].
  - reflexivity.
  - exfalso. exact (N b Hb Hf).
  - exfalso. exact (N a Ha (eq_sym Hf)).
  - apply IH; assumption.
Qed.

(** With a primary key, selecting by [id] the rows that a predicate
    selected is selecting by the predicate. *)
Lemma selected_by_id (p : Subscriptions -> bool) rows r :
  distinct Z.eqb (map row_id rows) = true -> In r rows ->
  existsb (fun s => row_id s =? row_id r) (filter p rows) = p r.
Proof.
  intros Hd Hr. destruct (p r) eqn:E.
  - apply existsb_exists. exists r. split; [apply filter_In; auto|apply Z.eqb_refl].
  - apply not_true_is_false. intros H. apply existsb_exists in H as (s & Hs & Hid).
    apply filter_In in Hs as [Hs Hp]. apply Z.eqb_eq in Hid.
    rewrite (distinct_Z_injective row_id rows s r Hd Hs Hr Hid) in Hp. congruence.
Qed.

Lemma strftime_length t : four_digit_year t -> String.length (strftime t) = 19%nat.
Proof. intros H. rewrite (strftime_shape t H). reflexivity. Qed.

Lemma stamping_keeps_constraints lu (p : Subscriptions -> bool) rows :
  fits 30 lu = true -> constraints_hold rows = true ->
  constraints_hold (map (fun r => if p r then with_last_updated lu r else r) rows)
  = true.
Proof.
  intros Hlu. unfold constraints_hold. rewrite !map_map.
  rewrite !andb_true_iff. intros [[H1 H2] H3]. repeat split.
  - rewrite forallb_forall in *. intros r' Hr'.
    apply in_map_iff in Hr' as (r & <- & Hr). specialize (H1 r Hr).
    destruct (p r); [|exact H1].
    unfold row_fits in *. cbn [with_last_updated last_updated domain model expires
      subscription_id post_url user oauth_token refresh_token].
    rewrite Hlu. destruct (last_updated r); [|exact H1].
    rewrite !andb_true_iff in *. tauto.
  - erewrite map_ext; [exact H2|]. intros r. destruct (p r); reflexivity.
  - erewrite map_ext; [exact H3|]. intros r. destruct (p r); reflexivity.
Qed.

(** X7.  On a table that satisfies its constraints, and at an instant
    of the years 1000 to 9999, the job of the scheduler succeeds and
    sets [last_updated] to the rendering of that instant on exactly the
    rows whose stored [expires] is, as a string, at most the rendering
    of the instant plus [TIME_BEFORE_EXPIRATION]; every other row is
    as it was. *)
Theorem scheduler_job_stamps_expiring (env : Env) (w : World) (thr : datetime) :
  constraints_hold (db w) = true ->
  four_digit_year (clock env (ticks w)) ->
  job_threshold env w = Some thr ->
  exists w',
    Scheduler.check_and_update_subscriptions env w = (Ok tt, w')
    /\ db w'
       = map (fun r => if (expires r <=? strftime thr)%string
                       then with_last_updated (strftime (clock env (ticks w))) r
                       else r) (db w).
Proof.
  intros HC Hy Hthr.
  unfold Scheduler.check_and_update_subscriptions, try_except.
  rewrite job_unfold, Hthr. cbv zeta.
  assert (E : map (fun r => if existsb (fun s => row_id s =? row_id r)
                                 (expiring thr (db w))
                            then with_last_updated (strftime (clock env (ticks w))) r
                            else r) (db w)
              = map (fun r => if (expires r <=? strftime thr)%string
                              then with_last_updated
                                     (strftime (clock env (ticks w))) r
                              else r) (db w)).
  { apply map_ext_in. intros r Hr. unfold expiring.
    rewrite selected_by_id; [reflexivity| |exact Hr].
    unfold constraints_hold in HC. rewrite !andb_true_iff in HC. tauto. }
  rewrite E, stamping_keeps_constraints; [| |exact HC].
  - eexists. split; reflexivity.
  - unfold fits. rewrite (strftime_length _ Hy). reflexivity.
Qed.

Lemma scheduler_job_stamps_expiring_witness :
  let env := env_of platform_ok in
  let thr := mkdatetime 2024 2 29 0 4 30 123456 in
  (constraints_hold (db world0) = true
   /\ four_digit_year (clock env (ticks world0))
   /\ job_threshold env world0 = Some thr)
  /\ exists w',
       Scheduler.check_and_update_subscriptions env world0 = (Ok tt, w')
       /\ db w'
          = map (fun r => if (expires r <=? strftime thr)%string
                          then with_last_updated
                                 (strftime (clock env (ticks world0))) r
                          else r) (db world0).
Proof.
  cbv zeta.
  assert (H1 : constraints_hold (db world0) = true) by (vm_compute; reflexivity).
  assert (H2 : four_digit_year (clock (env_of platform_ok) (ticks world0)))
    by (vm_compute; split; discriminate).
  assert (H3 : job_threshold (env_of platform_ok) world0
               = Some (mkdatetime 2024 2 29 0 4 30 123456))
    by (vm_compute; reflexivity).
  split; [exact (conj H1 (conj H2 H3))|].
  apply (scheduler_job_stamps_expiring (env_of platform_ok) world0
           (mkdatetime 2024 2 29 0 4 30 123456) H1 H2 H3).
Defined.

(** ** The renewal cycle *)

(** X8.  A cycle that finds no candidate does nothing but read the
    clock once: no request, no write, no error. *)
Theorem idle_cycle (env : Env) (w : World) (thr : datetime) :
  set_order_ok (set_order env) ->
  scan_threshold env w = Some thr ->
  expiring thr (db w) = [] ->
  check_and_update_subscriptions env w = (Ok tt, tick w).
Proof.
  intros Hord Hthr Hnone.
  rewrite cycle_unfold, expiring_domain_eq, Hthr, Hnone. cbn [map].
  destruct (set_order env []) as [| d doms] eqn:E; [reflexivity|].
  exfalso. apply (proj1 (proj2 (Hord []) d)). rewrite E. left. reflexivity.
Qed.

Lemma idle_cycle_witness :
  let env := env_of platform_ok in
  let w := mkWorld [s2_row] 4 [] 0 [] in
  (set_order_ok (set_order env)
   /\ scan_threshold env w = Some threshold_instant
   /\ expiring threshold_instant (db w) = [])
  /\ check_and_update_subscriptions env w = (Ok tt, tick w).
Proof.
  cbv zeta.
  assert (H1 : set_order_ok (set_order (env_of platform_ok)))
    by (simpl; exact nodup_string_ok).
  assert (H2 : scan_threshold (env_of platform_ok) (mkWorld [s2_row] 4 [] 0 [])
               = Some threshold_instant) by (vm_compute; reflexivity).
  assert (H3 : expiring threshold_instant (db (mkWorld [s2_row] 4 [] 0 [])) = [])
    by (vm_compute; reflexivity).
  split; [exact (conj H1 (conj H2 H3))|].
  apply (idle_cycle (env_of platform_ok) (mkWorld [s2_row] 4 [] 0 [])
           threshold_instant H1 H2 H3).
Defined.

Lemma rows_step_identity ne D w0 evs rows :
  rows_step ne D w0 evs rows -> map identity rows = map identity (db w0).
Proof.
  unfold rows_step. intros H. induction H as [| r r' l l' Hr _ IH]; [reflexivity|].
  simpl. rewrite IH. f_equal.
  destruct Hr as [-> | (_ & lu & tok & rtok & -> & _)]; reflexivity.
Qed.

Lemma cycle_identity env w :
  map identity (db (snd (check_and_update_subscriptions env w)))
  = map identity (db w).
Proof.
  destruct (evolves_cycle env w) as (evs & snaps & _ & _ & _ & Hr & _).
  exact (rows_step_identity _ _ _ _ _ Hr).
Qed.

Lemma renewal_loop_identity env n :
  forall w, map identity (db (snd (renewal_loop env n w))) = map identity (db w).
Proof.
  induction n as [| n IH]; intros w; [reflexivity|].
  cbn [renewal_loop]. unfold bind at 1, sleep, ret. unfold bind.
  pose proof (cycle_identity env w) as C.
  destruct (check_and_update_subscriptions env w) as [[[] | e] w1]; cbn [snd] in *.
  - rewrite IH. exact C.
  - exact C.
Qed.

(** X9.  However long the service runs and whatever the platform
    answers, the renewal task never adds or removes a row and never
    changes the [id], [domain], [model], [subscription_id], [post_url]
    or [user] of a row. *)
Theorem renewal_keeps_identity (env : Env) (n : nat) (w : World) :
  map identity (db (snd (start env n w))) = map identity (db w).
Proof.
  unfold start, setup_table. unfold bind at 1, ret. unfold bind.
  pose proof (cycle_identity env w) as C.
  destruct (check_and_update_subscriptions env w) as [[[] | e] w1]; cbn [snd] in *.
  - rewrite renewal_loop_identity. exact C.
  - exact C.
Qed.

(** ** A renewal that succeeds *)

(** X10.  A renewal of a domain that ends normally, on a table whose
    [subscription_id] are distinct: the exchanges are one refresh with
    the token of the first row of the domain, answered 200 with an
    access token and a refresh token, then one accepted push for each
    row of the domain, in the order of the table and all with the
    access token of that refresh; one write is committed for each row;
    every row of the domain carries the new expiry and the pair of that
    refresh, and every other row is as it was. *)
Theorem renew_domain_success
  (env : Env) (new_expire d : string) (w w' : World) :
  distinct String.eqb (map subscription_id (db w)) = true ->
  renew_domain env new_expire d w = (Ok tt, w') ->
  exists first rest refresh tok rtok pushes snaps,
    filter (fun row => String.eqb (domain row) d) (db w) = first :: rest
    /\ fst refresh = PostRefresh (refresh_token first)
    /\ token_pair refresh tok rtok
    /\ exchanges w' = exchanges w ++ refresh :: pushes
    /\ Forall2 (accepted_push new_expire tok) (first :: rest) pushes
    /\ commits w' = commits w ++ snaps
    /\ List.length snaps = List.length (first :: rest)
    /\ Forall2
         (fun r r' =>
            if String.eqb (domain r) d
            then exists lu, r' = renewed new_expire lu tok rtok r
            else r' = r)
         (db w) (db w').
Proof. exact (renew_domain_ok env new_expire d w w'). Qed.

Lemma renew_domain_success_witness :
  let env := env_of platform_ok in
  let w' := snd (renew_domain env "2024-02-29 23:59:30" "a.com" world0) in
  (distinct String.eqb (map subscription_id (db world0)) = true
   /\ renew_domain env "2024-02-29 23:59:30" "a.com" world0 = (Ok tt, w'))
  /\ exists first rest refresh tok rtok pushes snaps,
       filter (fun row => String.eqb (domain row) "a.com") (db world0)
       = first :: rest
       /\ fst refresh = PostRefresh (refresh_token first)
       /\ token_pair refresh tok rtok
       /\ exchanges w' = exchanges world0 ++ refresh :: pushes
       /\ Forall2 (accepted_push "2024-02-29 23:59:30" tok) (first :: rest) pushes
       /\ commits w' = commits world0 ++ snaps
       /\ List.length snaps = List.length (first :: rest)
       /\ Forall2
            (fun r r' =>
               if String.eqb (domain r) "a.com"
               then exists lu, r' = renewed "2024-02-29 23:59:30" lu tok rtok r
               else r' = r)
            (db world0) (db w').
Proof.
  cbv zeta.
  set (w' := snd (renew_domain (env_of platform_ok) "2024-02-29 23:59:30" "a.com"
                    world0)).
  assert (H1 : distinct String.eqb (map subscription_id (db world0)) = true)
    by (vm_compute; reflexivity).
  assert (H2 : renew_domain (env_of platform_ok) "2024-02-29 23:59:30" "a.com" world0
               = (Ok tt, w')) by (vm_compute; reflexivity).
  split; [exact (conj H1 H2)|].
  apply (renew_domain_success (env_of platform_ok) "2024-02-29 23:59:30" "a.com"
           world0 w' H1 H2).
Defined.

(** X11.  A cycle that ends normally, on a table whose
    [subscription_id] are distinct, has renewed every row of every
    domain it went through, the rows far from their expiry included:
    each carries the [new_expire] of the cycle; every row of another
    domain is as it was. *)
Theorem successful_cycle_renews_whole_domains (env : Env) (w w' : World) :
  distinct String.eqb (map subscription_id (db w)) = true ->
  check_and_update_subscriptions env w = (Ok tt, w') ->
  Forall2
    (renewed_where (fun r => existsb (String.eqb (domain r)) (expiring_domain env w))
       (new_expire_of env w))
    (db w) (db w').
Proof.
  intros Hd H. rewrite cycle_unfold in H.
  destruct (scan_threshold env w) as [thr|]; [|discriminate].
  destruct (expiring_domain env w) as [| d doms].
  - injection H as <-. apply Forall2_same. intros r. reflexivity.
  - destruct (cycle_expiry env w) as [new_dt|] eqn:E; [|discriminate].
    rewrite (new_expire_of_some _ _ _ E).
    exact (domains_ok env _ _ (tick (tick w)) w' Hd H).
Qed.

Lemma successful_cycle_renews_whole_domains_witness :
  let env := env_of platform_ok in
  let w' := snd (check_and_update_subscriptions env world0) in
  (distinct String.eqb (map subscription_id (db world0)) = true
   /\ check_and_update_subscriptions env world0 = (Ok tt, w'))
  /\ Forall2
       (renewed_where
          (fun r => existsb (String.eqb (domain r)) (expiring_domain env world0))
          (new_expire_of env world0))
       (db world0) (db w').
Proof.
  cbv zeta.
  set (w' := snd (check_and_update_subscriptions (env_of platform_ok) world0)).
  assert (H1 : distinct String.eqb (map subscription_id (db world0)) = true)
    by (vm_compute; reflexivity).
  assert (H2 : check_and_update_subscriptions (env_of platform_ok) world0 = (Ok tt, w'))
    by (vm_compute; reflexivity).
  split; [exact (conj H1 H2)|].
  apply (successful_cycle_renews_whole_domains (env_of platform_ok) world0 w' H1 H2).
Defined.

(** X12.  When the refresh of a domain returns an access token and no
    refresh token (a string), the push for the first row of the domain
    is sent, and when the platform accepts it the write of that row is
    refused: the renewal of the domain ends with the error of the
    session after exactly these two exchanges, and the table is as it
    was, although the platform holds the new expiry. *)
Theorem push_without_write
  (env : Env) (new_expire d : string) (w : World)
  (first : Subscriptions) (rest : list Subscriptions) (td : dict) (w1 : World) :
  filter (fun row => String.eqb (domain row) d) (db w) = first :: rest ->
  refresh_access_token env (refresh_token first) w = (Ok td, w1) ->
  truthy (dict_get "access_token" td) = true ->
  (forall s, dict_get "refresh_token" td <> PStr s) ->
  status_code (platform env (exchanges w1)
                 (put_call new_expire (str (dict_get "access_token" td)) first))
  = 202 ->
  exists w' refresh push,
    renew_domain env new_expire d w = (Raise session_error, w')
    /\ db w' = db w
    /\ commits w' = commits w
    /\ exchanges w' = exchanges w ++ [refresh; push]
    /\ fst refresh = PostRefresh (refresh_token first)
    /\ accepted_push new_expire (str (dict_get "access_token" td)) first push.
Proof.
  intros F R T Hrt S.
  rewrite renew_domain_unfold, F, R, T. cbn [for_each]. unfold bind.
  rewrite renew_subscription_unfold. cbv zeta. rewrite S. cbn [Z.eqb Pos.eqb].
  rewrite update_table_renewal.
  apply refresh_access_token_ok in R as (_ & He & Hdb & Hc & _). cbv zeta in He.
  eexists _, _, _. split.
  { destruct (dict_get "refresh_token" td) as [| s |]; try reflexivity.
    exfalso. exact (Hrt s eq_refl). }
  cbn [db commits exchanges snd http datetime_now].
  split; [exact Hdb|]. split; [exact Hc|].
  split; [rewrite He, <- app_assoc; reflexivity|].
  split; [reflexivity|]. split; [reflexivity|].
  cbn [snd]. rewrite <- He. exact S.
Qed.

Lemma push_without_write_witness :
  let env := env_of platform_no_rotation in
  let ne := "2024-02-29 23:59:30" in
  let td := fst (refresh_access_token env "ra" world0) in
  let w1 := snd (refresh_access_token env "ra" world0) in
  let td0 := [("access_token", PStr "AT2"); ("expires_in", PInt 3600);
              ("expires", PStr "2024-02-29 00:59:30")] in
  (filter (fun row => String.eqb (domain row) "a.com") (db world0)
   = s1_row :: [s2_row]
   /\ refresh_access_token env (refresh_token s1_row) world0 = (Ok td0, w1)
   /\ truthy (dict_get "access_token" td0) = true
   /\ (forall s, dict_get "refresh_token" td0 <> PStr s)
   /\ status_code (platform env (exchanges w1)
                     (put_call ne (str (dict_get "access_token" td0)) s1_row))
      = 202)
  /\ exists w' refresh push,
       renew_domain env ne "a.com" world0 = (Raise session_error, w')
       /\ db w' = db world0
       /\ commits w' = commits world0
       /\ exchanges w' = exchanges world0 ++ [refresh; push]
       /\ fst refresh = PostRefresh (refresh_token s1_row)
       /\ accepted_push ne (str (dict_get "access_token" td0)) s1_row push.
Proof.
  cbv zeta.
  set (env := env_of platform_no_rotation).
  set (w1 := snd (refresh_access_token env "ra" world0)).
  set (td0 := [("access_token", PStr "AT2"); ("expires_in", PInt 3600);
               ("expires", PStr "2024-02-29 00:59:30")]).
  assert (H1 : filter (fun row => String.eqb (domain row) "a.com") (db world0)
               = s1_row :: [s2_row]) by (vm_compute; reflexivity).
  assert (H2 : refresh_access_token env (refresh_token s1_row) world0 = (Ok td0, w1))
    by (vm_compute; reflexivity).
  assert (H3 : truthy (dict_get "access_token" td0) = true)
    by (vm_compute; reflexivity).
  assert (H4 : forall s, dict_get "refresh_token" td0 <> PStr s)
    by (intros s; vm_compute; discriminate).
  assert (H5 : status_code
                 (platform env (exchanges w1)
                    (put_call "2024-02-29 23:59:30"
                       (str (dict_get "access_token" td0)) s1_row)) = 202)
    by (vm_compute; reflexivity).
  split; [exact (conj H1 (conj H2 (conj H3 (conj H4 H5))))|].
  apply (push_without_write env "2024-02-29 23:59:30" "a.com" world0
           s1_row [s2_row] td0 w1 H1 H2 H3 H4 H5).
Defined.

(** ** Creation *)

Lemma try_except_inv {A} (m : M A) (h : exn -> M A) w r w' :
  try_except m h w = (r, w') ->
  (exists a, m w = (Ok a, w') /\ r = Ok a)
  \/ (exists e w1, m w = (Raise e, w1) /\ h e w1 = (r, w')).
Proof.
  unfold try_except. destruct (m w) as [[a | e] w1].
  - intros [= <- <-]. left. eauto.
  - intros H. right. eauto.
Qed.

Lemma timedelta_of_seconds_inv v w r w' :
  timedelta_of_seconds v w = (r, w') ->
  w' = w
  /\ forall delta, r = Ok delta ->
       exists seconds, v = PInt seconds /\ delta = timedelta_seconds seconds.
Proof.
  unfold timedelta_of_seconds.
  destruct v as [| s | z]; try (intros [= <- <-]; split; [reflexivity|discriminate]).
  destruct (_ && _); intros [= <- <-]; (split; [reflexivity|]);
    [intros delta [= <-]; eauto|discriminate].
Qed.

Lemma of_option_inv {A} e (o : option A) w a w' :
  of_option e o w = (Ok a, w') -> o = Some a /\ w' = w.
Proof. destruct o; simpl; [intros [= <- <-]; auto|discriminate]. Qed.

(** The token data that [stamp_expires] returns. *)
Lemma stamp_expires_inv env td0 w td w' :
  stamp_expires env td0 w = (Ok td, w') ->
  w' = tick w
  /\ exists seconds e,
       dict_get_default "expires_in" (PInt 0) td0 = PInt seconds
       /\ dt_add (clock env (ticks w)) (timedelta_seconds seconds) = Some e
       /\ td = dict_set "expires" (PStr (strftime e)) td0.
Proof.
  unfold stamp_expires. intros H.
  apply bind_inv in H as [(now & w1 & H1 & H) | (e & _ & [=])].
  injection H1 as <- <-.
  apply bind_inv in H as [(delta & w2 & H2 & H) | (e & _ & [=])].
  apply timedelta_of_seconds_inv in H2 as [-> H2].
  destruct (H2 delta eq_refl) as (seconds & Hs & ->).
  apply bind_inv in H as [(e & w3 & H3 & H) | (e & _ & [=])].
  apply of_option_inv in H3 as [E ->].
  injection H as <- <-.
  split; [reflexivity|]. exists seconds, e. auto.
Qed.

Lemma get_token_inv env u p w r w' :
  get_token env u p w = (r, w') ->
  let resp := platform env (exchanges w) (PostToken u p) in
  let w1 := snd (http env (PostToken u p) w) in
  (exists td, r = Ok td
     /\ status_code resp = 200
     /\ truthy (dict_get "access_token" (json resp)) = true
     /\ stamp_expires env (json resp) w1 = (Ok td, w'))
  \/ (exists e, r = Raise e /\ (w' = w1 \/ w' = tick w1)).
Proof.
  unfold get_token. intros H. cbv zeta.
  apply bind_inv in H as [(resp & w1 & H1 & H) | (e & [=] & _)].
  injection H1 as <- <-.
  destruct (status_code _ =? 200) eqn:S.
  - destruct (truthy _) eqn:T.
    + destruct r as [td | e].
      * left. exists td. apply Z.eqb_eq in S.
        split; [reflexivity|]. split; [exact S|]. split; [reflexivity|exact H].
      * right. exists e. split; [reflexivity|]. right.
        pose proof (stamp_expires_world env
                      (json (platform env (exchanges w) (PostToken u p)))
                      (snd (http env (PostToken u p) w))) as K.
        cbn [snd http] in *. rewrite H in K. exact K.
    + injection H as <- <-. right. eexists. split; [reflexivity|]. left. reflexivity.
  - injection H as <- <-. right. eexists. split; [reflexivity|]. left. reflexivity.
Qed.

(** X13.  The token data that [get_token] returns: the platform
    answered 200; the data carry a true [access_token]; their [expires]
    is the rendering of the instant of the call plus the [expires_in]
    of the response (0 when the response has none); every other entry
    is that of the response.  One request was sent and the clock was
    read once. *)
Theorem get_token_result
  (env : Env) (username password : string) (w w' : World) (td : dict) :
  get_token env username password w = (Ok td, w') ->
  let resp := platform env (exchanges w) (PostToken username password) in
  status_code resp = 200
  /\ truthy (dict_get "access_token" td) = true
  /\ (exists seconds e,
        dict_get_default "expires_in" (PInt 0) (json resp) = PInt seconds
        /\ dt_add (clock env (ticks w)) (timedelta_seconds seconds) = Some e
        /\ td = dict_set "expires" (PStr (strftime e)) (json resp))
  /\ exchanges w' = exchanges w ++ [(PostToken username password, resp)]
  /\ ticks w' = S (ticks w)
  /\ db w' = db w.
Proof.
  intros H. cbv zeta.
  apply get_token_inv in H as [(td' & [= <-] & S & T & H) | (e & [=] & _)].
  pose proof (stamp_expires_ok _ _ _ _ _ H "access_token" eq_refl) as K.
  apply stamp_expires_inv in H as (-> & seconds & e & H1 & H2 & H3).
  split; [exact S|]. split; [rewrite K; exact T|].
  split; [exists seconds, e; auto|].
  repeat split.
Qed.

Lemma get_token_result_witness :
  let env := env_of platform_ok in
  let td := [("access_token", PStr "AT"); ("refresh_token", PStr "RT");
             ("expires_in", PInt 3600); ("expires", PStr "2024-02-29 00:59:30")] in
  let w' := snd (get_token env "apiuser" "secret" world0) in
  let resp := platform env (exchanges world0) (PostToken "apiuser" "secret") in
  get_token env "apiuser" "secret" world0 = (Ok td, w')
  /\ (status_code resp = 200
      /\ truthy (dict_get "access_token" td) = true
      /\ (exists seconds e,
            dict_get_default "expires_in" (PInt 0) (json resp) = PInt seconds
            /\ dt_add (clock env (ticks world0)) (timedelta_seconds seconds) = Some e
            /\ td = dict_set "expires" (PStr (strftime e)) (json resp))
      /\ exchanges w' = exchanges world0 ++ [(PostToken "apiuser" "secret", resp)]
      /\ ticks w' = S (ticks world0)
      /\ db w' = db world0).
Proof.
  cbv zeta.
  set (td := [("access_token", PStr "AT"); ("refresh_token", PStr "RT");
              ("expires_in", PInt 3600); ("expires", PStr "2024-02-29 00:59:30")]).
  set (w' := snd (get_token (env_of platform_ok) "apiuser" "secret" world0)).
  assert (H1 : get_token (env_of platform_ok) "apiuser" "secret" world0 = (Ok td, w'))
    by (vm_compute; reflexivity).
  split; [exact H1|].
  apply (get_token_result (env_of platform_ok) "apiuser" "secret" world0 w' td H1).
Defined.

Lemma parse_iso_inv env v w r w' :
  parse_iso env v w = (r, w') ->
  w' = w
  /\ forall t, r = Ok t -> exists s, v = PStr s /\ fromisoformat env s = Some t.
Proof.
  unfold parse_iso, of_option.
  destruct v as [| s |]; try (intros [= <- <-]; split; [reflexivity|discriminate]).
  destruct (fromisoformat env s) as [t|] eqn:E; intros [= <- <-];
    (split; [reflexivity|]); [|discriminate].
  intros t' [= <-]. exists s. auto.
Qed.

Lemma strftime_truthy t : truthy (PStr (strftime t)) = true.
Proof. unfold strftime. destruct (str_of_Z (year t)); reflexivity. Qed.

Lemma create_subscription_inv env m p d u t w r w' :
  create_subscription env m p d u t w = (r, w') ->
  let c := PostSubscription m p d u t in
  let resp := platform env (exchanges w) c in
  w' = snd (http env c w)
  /\ ((exists sd iso expiry,
         r = Ok sd
         /\ (status_code resp = 200 \/ status_code resp = 201)
         /\ dict_get "subscription-expires-datetime" (json resp) = PStr iso
         /\ fromisoformat env iso = Some expiry
         /\ dict_get "expires_at" sd = PStr (strftime expiry)
         /\ forall k, String.eqb k "expires_at" = false ->
                      String.eqb k "created_at" = false ->
                      dict_get k sd = dict_get k (json resp))
      \/ r = Raise (Exception "Failed to parse subscription response")
      \/ (status_code resp <> 200 /\ status_code resp <> 201
          /\ r = Raise (Exception ("Failed to create subscription. Status: "
                                   ++ str (PInt (status_code resp)))%string))).
Proof.
  unfold create_subscription. intros H. cbv zeta.
  apply bind_inv in H as [(resp & w1 & H1 & H) | (e & [=] & _)].
  injection H1 as <- <-.
  destruct (_ || _) eqn:S.
  - apply try_except_inv in H as [(sd & H & ->) | (e & w2 & H & [= <- <-])].
    + apply bind_inv in H as [(created & w2 & H2 & H) | (e & _ & [=])].
      apply parse_iso_inv in H2 as [-> _].
      apply bind_inv in H as [(expiry & w3 & H3 & H) | (e & _ & [=])].
      apply parse_iso_inv in H3 as [-> H3].
      destruct (H3 expiry eq_refl) as (iso & Hiso & Hparse).
      rewrite dict_get_set_other in Hiso by reflexivity.
      injection H as <- <-.
      split; [reflexivity|]. left. eexists. exists iso, expiry.
      split; [reflexivity|]. split.
      { apply orb_true_iff in S as [S | S]; apply Z.eqb_eq in S; auto. }
      split; [exact Hiso|]. split; [exact Hparse|]. split.
      * unfold dict_get at 1. rewrite dict_lookup_set. reflexivity.
      * intros k K1 K2. rewrite !dict_get_set_other by assumption. reflexivity.
    + assert (w2 = snd (http env (PostSubscription m p d u t) w)) as ->.
      { apply bind_inv in H as [(created & w3 & H2 & H) | (e' & H2 & _)].
        - apply parse_iso_inv in H2 as [-> _].
          apply bind_inv in H as [(expiry & w4 & H3 & [=]) | (e' & H3 & _)].
          apply parse_iso_inv in H3 as [-> _]. reflexivity.
        - apply parse_iso_inv in H2 as [-> _]. reflexivity. }
      split; [reflexivity|]. right. left. reflexivity.
  - injection H as <- <-. split; [reflexivity|]. right. right.
    apply orb_false_iff in S as [S1 S2].
    apply Z.eqb_neq in S1, S2. auto.
Qed.

(** X14.  The subscription data that [create_subscription] returns:
    the platform answered 200 or 201; its
    [subscription-expires-datetime] is a string that
    [datetime.fromisoformat] reads, and [expires_at] is the rendering of
    the instant read, a true value; the entries other than [expires_at]
    and [created_at] are those of the response.  One request was sent,
    with the token that the function was given. *)
Theorem create_subscription_result
  (env : Env) (model post_url domain user : string) (token : pyval)
  (w w' : World) (sd : dict) :
  create_subscription env model post_url domain user token w = (Ok sd, w') ->
  let c := PostSubscription model post_url domain user token in
  let resp := platform env (exchanges w) c in
  (status_code resp = 200 \/ status_code resp = 201)
  /\ (exists iso expiry,
        dict_get "subscription-expires-datetime" (json resp) = PStr iso
        /\ fromisoformat env iso = Some expiry
        /\ dict_get "expires_at" sd = PStr (strftime expiry))
  /\ truthy (dict_get "expires_at" sd) = true
  /\ (forall k, String.eqb k "expires_at" = false ->
                String.eqb k "created_at" = false ->
                dict_get k sd = dict_get k (json resp))
  /\ exchanges w' = exchanges w ++ [(c, resp)]
  /\ db w' = db w.
Proof.
  intros H. cbv zeta.
  apply create_subscription_inv in H as [-> H]. cbv zeta in H.
  destruct H as [(sd' & iso & expiry & [= <-] & S & Hiso & Hp & He & Hk)
                | [[=] | (_ & _ & [=])]].
  split; [exact S|]. split; [exists iso, expiry; auto|].
  split; [rewrite He; apply strftime_truthy|].
  split; [exact Hk|]. split; reflexivity.
Qed.

Lemma create_subscription_result_witness :
  let env := env_of platform_ok in
  let c := PostSubscription "call" "https://example.com/callback" "c.com" "1001"
             (PStr "AT") in
  let resp := platform env (exchanges world0) c in
  let sd0 := [("subscription_id", PStr "s9");
              ("subscription-creation-datetime", PStr "2024-02-28T23:59:30");
              ("subscription-expires-datetime", PStr "2024-02-29T23:59:30");
              ("created_at", PStr "2024-02-28 23:59:30");
              ("expires_at", PStr "2024-02-28 23:59:30")] in
  let w' := snd (create_subscription env "call" "https://example.com/callback"
                   "c.com" "1001" (PStr "AT") world0) in
  create_subscription env "call" "https://example.com/callback" "c.com" "1001"
    (PStr "AT") world0 = (Ok sd0, w')
  /\ ((status_code resp = 200 \/ status_code resp = 201)
      /\ (exists iso expiry,
            dict_get "subscription-expires-datetime" (json resp) = PStr iso
            /\ fromisoformat env iso = Some expiry
            /\ dict_get "expires_at" sd0 = PStr (strftime expiry))
      /\ truthy (dict_get "expires_at" sd0) = true
      /\ (forall k, String.eqb k "expires_at" = false ->
                    String.eqb k "created_at" = false ->
                    dict_get k sd0 = dict_get k (json resp))
      /\ exchanges w' = exchanges world0 ++ [(c, resp)]
      /\ db w' = db world0).
Proof.
  cbv zeta.
  set (w' := snd (create_subscription (env_of platform_ok) "call"
                    "https://example.com/callback" "c.com" "1001" (PStr "AT")
                    world0)).
  assert (H1 : create_subscription (env_of platform_ok) "call"
                 "https://example.com/callback" "c.com" "1001" (PStr "AT") world0
               = (Ok [("subscription_id", PStr "s9");
                      ("subscription-creation-datetime", PStr "2024-02-28T23:59:30");
                      ("subscription-expires-datetime", PStr "2024-02-29T23:59:30");
                      ("created_at", PStr "2024-02-28 23:59:30");
                      ("expires_at", PStr "2024-02-28 23:59:30")], w'))
    by (vm_compute; reflexivity).
  split; [exact H1|].
  apply (create_subscription_result (env_of platform_ok) "call"
           "https://example.com/callback" "c.com" "1001" (PStr "AT") world0 w' _ H1).
Defined.

Lemma update_table_raise filters ud w e w' :
  update_table filters ud w = (Raise e, w') -> w' = w.
Proof.
  unfold update_table.
  destruct (select_filter_by filters (db w)) as [[| r0 sel] |].
  - destruct (construct _ _); try (intros [= _ <-]; reflexivity).
    intros H. apply commit_inv in H as [([=] & _) | [_ ->]]. reflexivity.
  - destruct (update_rows _ _ _); [|intros [= _ <-]; reflexivity].
    intros H. apply commit_inv in H as [([=] & _) | [_ ->]]. reflexivity.
  - intros [= _ <-]. reflexivity.
Qed.

(** The courses that the creation flow can take. *)
Lemma setup_new_subscription_cases env request w r w' :
  setup_new_subscription env request w = (r, w') ->
  let w1 := snd (http env (token_call request) w) in
  (r = Raise (HTTPException 401 "Authentication failed")
   /\ (w' = w1 \/ w' = tick w1)
   /\ exists e0, fst (get_token env (rq_username request) (rq_password request) w)
                 = Raise e0)
  \/ exists td,
       get_token env (rq_username request) (rq_password request) w
       = (Ok td, tick w1)
       /\ truthy (dict_get "access_token" td) = true
       /\ let access_token := dict_get "access_token" td in
          let w2 := snd (http env (creation_call request access_token) (tick w1)) in
          ((exists e1,
              r = Raise (HTTPException 500 (exn_str e1)) /\ w' = w2
              /\ (create_subscription env (rq_model request) (rq_post_url request)
                    (rq_domain request) (rq_user request) access_token (tick w1)
                  = (Raise e1, w2)
                  \/ e1 = Exception "Failed to retrieve subscription ID from NS API"))
           \/ exists sr,
                create_subscription env (rq_model request) (rq_post_url request)
                  (rq_domain request) (rq_user request) access_token (tick w1)
                = (Ok sr, w2)
                /\ truthy (dict_get "subscription_id" sr) = true
                /\ let subscription_id := dict_get "subscription_id" sr in
                   let expires_value :=
                     py_or (dict_get "expires_at" sr)
                           (dict_get "subscription-expires-datetime" sr) in
                   let run :=
                     update_table [("subscription_id", subscription_id)]
                       (creation_data request subscription_id expires_value
                          access_token (dict_get "refresh_token" td)
                          (strftime (clock env (ticks w2))))
                       (tick w2) in
                   (r = Raise (HTTPException 500
                                 "Failed to update database with subscription info")
                    /\ w' = tick w2 /\ exists e2, fst run = Raise e2)
                   \/ (r = Ok [("status", PStr "success");
                               ("subscription_id", subscription_id);
                               ("expires", expires_value)]
                       /\ run = (Ok tt, w'))).
Proof.
  unfold setup_new_subscription. intros H. cbv zeta.
  apply bind_inv in H as [(td & wa & H1 & H) | (e & H1 & ->)].
  - apply try_except_inv in H1 as [(a & G & [= <-]) | (e0 & w0 & _ & [=])].
    right. exists td.
    pose proof G as G'.
    apply get_token_inv in G' as [(td' & [= <-] & S & T & St) | (e & [=] & _)].
    pose proof (stamp_expires_ok _ _ _ _ _ St "access_token" eq_refl) as K.
    apply stamp_expires_inv in St as [-> _]. fold (token_call request) in *.
    split; [exact G|]. rewrite <- K in T. split; [exact T|].
    rewrite T in H. cbn [negb] in H.
    set (wa := tick (snd (http env (token_call request) w))) in *.
    apply bind_inv in H as [([sr sid] & wb & H2 & H) | (e & H2 & ->)].
    + right.
      apply try_except_inv in H2 as [(a & H2 & [= <-]) | (e0 & w0 & _ & [=])].
      apply bind_inv in H2 as [(sr' & wc & C & H2) | (e & _ & [=])].
      destruct (truthy (dict_get "subscription_id" sr')) eqn:Ts;
        cbn [negb] in H2; [|discriminate].
      injection H2 as <- <- <-.
      pose proof (create_subscription_inv _ _ _ _ _ _ _ _ _ C) as [Hw _].
      fold (creation_call request (dict_get "access_token" td)) in Hw. subst wc.
      exists sr'. split; [exact C|]. split; [exact Ts|].
      apply bind_inv in H as [([] & wd & U & H) | (e & U & ->)].
      * right. injection H as <- <-. split; [reflexivity|].
        apply try_except_inv in U as [([] & U & _) | (e0 & w0 & _ & [=])].
        apply bind_inv in U as [(now & we & N & U) | (e & [=] & _)].
        injection N as <- <-. exact U.
      * left. apply try_except_inv in U as [(a & _ & [=]) | (e0 & w0 & U & [= <- <-])].
        apply bind_inv in U as [(now & we & N & U) | (e' & [=] & _)].
        injection N as <- <-. split; [reflexivity|].
        pose proof (update_table_raise _ _ _ _ _ U) as ->.
        split; [reflexivity|]. exists e0. exact (f_equal fst U).
    + left.
      apply try_except_inv in H2 as [(a & _ & [=]) | (e0 & w0 & H2 & [= <- <-])].
      exists e0. split; [reflexivity|].
      apply bind_inv in H2 as [(sr' & wc & C & H2) | (e & C & [= ->])].
      * pose proof (create_subscription_inv _ _ _ _ _ _ _ _ _ C) as [Hw _].
        fold (creation_call request (dict_get "access_token" td)) in Hw. subst wc.
        destruct (truthy (dict_get "subscription_id" sr')); cbn [negb] in H2;
          [discriminate|].
        injection H2 as <- <-. split; [reflexivity|]. right. reflexivity.
      * pose proof (create_subscription_inv _ _ _ _ _ _ _ _ _ C) as [Hw _].
        fold (creation_call request (dict_get "access_token" td)) in Hw. subst w0.
        split; [reflexivity|]. left. exact C.
  - left.
    apply try_except_inv in H1 as [(a & _ & [=]) | (e0 & w0 & G & [= <- <-])].
    split; [reflexivity|].
    pose proof G as G'.
    apply get_token_inv in G' as [(td' & [=] & _) | (e' & _ & Hw)].
    split; [exact Hw|]. exists e0. rewrite G. reflexivity.
Qed.

Lemma update_table_exchanges filters ud w :
  exchanges (snd (update_table filters ud w)) = exchanges w
  /\ ticks (snd (update_table filters ud w)) = ticks w.
Proof.
  destruct (update_table filters ud w) as [[[] | e] w'] eqn:H; cbn [snd].
  - unfold update_table in H.
    destruct (select_filter_by filters (db w)) as [[| r0 sel] |]; try discriminate.
    + destruct (construct _ _); try discriminate.
      apply commit_inv in H as [(_ & _ & ->) | [[=] _]]. split; reflexivity.
    + destruct (update_rows _ _ _); try discriminate.
      apply commit_inv in H as [(_ & _ & ->) | [[=] _]]. split; reflexivity.
  - rewrite (update_table_raise _ _ _ _ _ H). split; reflexivity.
Qed.

(** X15.  The errors of the creation flow.  A creation request that
    fails is answered with status 401, detail [Authentication failed],
    or with status 500 and one of four details: the response of the
    platform could not be parsed, the platform refused the creation
    (the detail carries its status), the response bore no subscription
    identifier, or the table could not be written.  In every case the
    table is as it was and nothing was committed. *)
Theorem setup_new_subscription_errors
  (env : Env) (request : SubscriptionRequest) (w w' : World) (e : exn) :
  setup_new_subscription env request w = (Raise e, w') ->
  creation_error e /\ db w' = db w /\ commits w' = commits w.
Proof.
  intros H. apply setup_new_subscription_cases in H. cbv zeta in H.
  unfold creation_error.
  destruct H as [([= ->] & Hw & _) | (td & G & T & H)].
  - split; [left; reflexivity|]. destruct Hw as [-> | ->]; split; reflexivity.
  - destruct H as [(e1 & [= ->] & -> & H) | (sr & C & Ts & H)].
    + split; [|split; reflexivity].
      destruct H as [C | ->].
      * apply create_subscription_inv in C as [_ C]. cbv zeta in C.
        destruct C as [(sd & iso & expiry & [=] & _) | [[= ->] | (S1 & S2 & [= ->])]].
        -- right. left. reflexivity.
        -- right. right. left. eexists. split; [exact S1|]. split; [exact S2|].
           reflexivity.
      * right. right. right. left. reflexivity.
    + destruct H as [([= ->] & -> & _) | ([=] & _)].
      split; [|split; reflexivity]. right. right. right. right. reflexivity.
Qed.

Lemma setup_new_subscription_errors_witness :
  let e := HTTPException 500 "Failed to update database with subscription info" in
  let w' := snd (setup_new_subscription (env_of platform_ok) request0 world0) in
  setup_new_subscription (env_of platform_ok) request0 world0 = (Raise e, w')
  /\ (creation_error e /\ db w' = db world0 /\ commits w' = commits world0).
Proof.
  cbv zeta.
  set (w' := snd (setup_new_subscription (env_of platform_ok) request0 world0)).
  assert (H1 : setup_new_subscription (env_of platform_ok) request0 world0
               = (Raise (HTTPException 500
                           "Failed to update database with subscription info"), w'))
    by (vm_compute; reflexivity).
  split; [exact H1|].
  apply (setup_new_subscription_errors (env_of platform_ok) request0 world0 w'
           (HTTPException 500 "Failed to update database with subscription info")
           H1).
Defined.

(** X16.  When the credentials are not traded for a token
    ([get_token] raises, whatever the reason), the creation flow
    answers 401 after that single request: no subscription is created
    on the platform and the table is as it was. *)
Theorem authentication_failure_stops_creation
  (env : Env) (request : SubscriptionRequest) (w : World) (e0 : exn) :
  fst (get_token env (rq_username request) (rq_password request) w) = Raise e0 ->
  exists w',
    setup_new_subscription env request w
    = (Raise (HTTPException 401 "Authentication failed"), w')
    /\ exchanges w'
       = exchanges w
         ++ [(token_call request, platform env (exchanges w) (token_call request))]
    /\ db w' = db w
    /\ commits w' = commits w.
Proof.
  intros G.
  destruct (setup_new_subscription env request w) as [r w'] eqn:H.
  apply setup_new_subscription_cases in H. cbv zeta in H.
  destruct H as [(-> & Hw & _) | (td & G' & _)].
  - exists w'. split; [reflexivity|].
    destruct Hw as [-> | ->]; repeat split.
  - rewrite G' in G. discriminate G.
Qed.

Lemma authentication_failure_stops_creation_witness :
  let env := env_of platform_bad_expires_in in
  fst (get_token env (rq_username request0) (rq_password request0) world0)
  = Raise TypeError
  /\ exists w',
       setup_new_subscription env request0 world0
       = (Raise (HTTPException 401 "Authentication failed"), w')
       /\ exchanges w'
          = exchanges world0
            ++ [(token_call request0,
                 platform env (exchanges world0) (token_call request0))]
       /\ db w' = db world0
       /\ commits w' = commits world0.
Proof.
  cbv zeta.
  assert (H1 : fst (get_token (env_of platform_bad_expires_in)
                      (rq_username request0) (rq_password request0) world0)
               = Raise TypeError)
    by (vm_compute; reflexivity).
  split; [exact H1|].
  apply (authentication_failure_stops_creation
           (env_of platform_bad_expires_in) request0 world0 TypeError H1).
Defined.

(** X17.  The requests of the creation flow, whatever its outcome: the
    request for a token with the credentials of the request, and then
    at most one more, the creation of the subscription, which is sent
    only after the platform answered the first with status 200 and
    carries the [access_token] of that answer.  The flow refreshes no
    token and renews nothing. *)
Theorem creation_exchanges (env : Env) (request : SubscriptionRequest) (w : World) :
  let resp := platform env (exchanges w) (token_call request) in
  exchanges (snd (setup_new_subscription env request w))
  = exchanges w ++ [(token_call request, resp)]
  \/ (status_code resp = 200
      /\ exists resp2,
           exchanges (snd (setup_new_subscription env request w))
           = exchanges w
             ++ [(token_call request, resp);
                 (creation_call request (dict_get "access_token" (json resp)),
                  resp2)]).
Proof.
  cbv zeta.
  destruct (setup_new_subscription env request w) as [r w'] eqn:H. cbn [snd].
  apply setup_new_subscription_cases in H. cbv zeta in H.
  destruct H as [(_ & Hw & _) | (td & G & T & H)].
  - left. destruct Hw as [-> | ->]; reflexivity.
  - right.
    apply get_token_inv in G as [(td' & [= <-] & S & _ & St) | (e & [=] & _)].
    pose proof (stamp_expires_ok _ _ _ _ _ St "access_token" eq_refl) as K.
    fold (token_call request) in *. split; [exact S|]. rewrite <- K.
    eexists.
    assert (E : exchanges w'
                = exchanges (snd (http env (creation_call request
                                              (dict_get "access_token" td))
                                    (tick (snd (http env (token_call request) w)))))).
    { destruct H as [(e1 & _ & -> & _) | (sr & _ & _ & H)]; [reflexivity|].
      destruct H as [(_ & -> & _) | (_ & U)]; [reflexivity|].
      pose proof (update_table_exchanges
                    [("subscription_id", dict_get "subscription_id" sr)]
                    (creation_data request (dict_get "subscription_id" sr)
                       (py_or (dict_get "expires_at" sr)
                          (dict_get "subscription-expires-datetime" sr))
                       (dict_get "access_token" td) (dict_get "refresh_token" td)
                       (strftime
                          (clock env
                             (ticks
                                (snd (http env
                                        (creation_call request
                                           (dict_get "access_token" td))
                                        (tick (snd (http env (token_call request)
                                                      w))))))))) 
                    (tick (snd (http env
                                  (creation_call request (dict_get "access_token" td))
                                  (tick (snd (http env (token_call request) w)))))))
        as [X _].
      rewrite U in X. exact X. }
    rewrite E. cbn [exchanges snd http tick]. rewrite <- app_assoc. reflexivity.
Qed.

Lemma update_rows_inv filters ud :
  forall rows rows', update_rows filters ud rows = Some rows' ->
  Forall2 (fun r r' => if matchesb filters r then apply_update ud r = Some r'
                       else r' = r) rows rows'.
Proof.
  induction rows as [| r rows IH]; intros rows'; simpl.
  - intros [= <-]. constructor.
  - destruct (matchesb filters r) eqn:Hm.
    + destruct (apply_update ud r) as [r1|] eqn:A; [|discriminate].
      destruct (update_rows filters ud rows) as [rest|]; [|discriminate].
      intros [= <-]. constructor; [rewrite Hm; exact A|apply IH; reflexivity].
    + destruct (update_rows filters ud rows) as [rest|]; [|discriminate].
      intros [= <-]. constructor; [rewrite Hm; reflexivity|apply IH; reflexivity].
Qed.

Lemma Forall2_In_l {A B} (R : A -> B -> Prop) l l' x :
  Forall2 R l l' -> In x l -> exists y, In y l' /\ R x y.
Proof.
  intros F. induction F as [| a b l l' Hab _ IH]; simpl; [tauto|].
  intros [<- | Hin].
  - exists b. auto.
  - destruct (IH Hin) as (y & Hy & Hr). exists y. auto.
Qed.

(** What the [update_data] of the creation flow makes of a row. *)
Lemma apply_creation_data request vs ve vt vr lu r :
  apply_update (creation_data request vs ve vt vr lu) r
  = match vs, ve, vt with
    | PStr s, PStr e, PStr t =>
        Some (mkSubscriptions (row_id r) (Some lu) (rq_domain request)
                (rq_model request) e s (rq_post_url request) (rq_user request) t
                (refresh_token r))
    | _, _, _ => None
    end.
Proof. destruct r, vs, ve, vt; reflexivity. Qed.

(** X18.  A creation request that succeeds has overwritten a
    subscription that the table held already: the answer bears an
    identifier that a row had before the request; every row with that
    identifier now carries the domain, model, callback and user of the
    request, the expiry of the answer and a new access token, and keeps
    its [id] and its [refresh_token]; every other row is as it was, and
    there is no new row. *)
Theorem creation_success_overwrites
  (env : Env) (request : SubscriptionRequest) (w w' : World) (d : dict) :
  setup_new_subscription env request w = (Ok d, w') ->
  exists sid exp tok lu,
    d = [("status", PStr "success"); ("subscription_id", PStr sid);
         ("expires", PStr exp)]
    /\ existsb (has_id sid) (db w) = true
    /\ Forall2
         (fun r r' =>
            if has_id sid r
            then r' = mkSubscriptions (row_id r) (Some lu) (rq_domain request)
                        (rq_model request) exp sid (rq_post_url request)
                        (rq_user request) tok (refresh_token r)
            else r' = r)
         (db w) (db w').
Proof.
  intros H. apply setup_new_subscription_cases in H. cbv zeta in H.
  destruct H as [([=] & _) | (td & _ & _ & H)].
  destruct H as [(e1 & [=] & _) | (sr & _ & Ts & H)].
  destruct H as [([=] & _) | ([= ->] & U)].
  set (vs := dict_get "subscription_id" sr) in *.
  set (ve := py_or (dict_get "expires_at" sr)
                   (dict_get "subscription-expires-datetime" sr)) in *.
  set (vt := dict_get "access_token" td) in *.
  set (vr := dict_get "refresh_token" td) in *.
  set (lu := strftime _) in U.
  set (w2 := tick _) in U.
  assert (Hdb : db w2 = db w) by reflexivity.
  clearbody w2 lu vr vt ve.
  unfold update_table in U. rewrite Hdb in U.
  destruct (select_filter_by [("subscription_id", vs)] (db w)) as [sel|] eqn:Hsel;
    [|discriminate].
  apply select_filter_by_inv in Hsel as [Hok Hsel].
  destruct vs as [| sid |]; try discriminate.
  destruct sel as [| r0 sel].
  { exfalso.
    pose proof (construct_needs_refresh_token (next_id w2)
                  (dict_merge [("subscription_id", PStr sid)]
                     (creation_data request (PStr sid) ve vt vr lu))
                  (dict_lookup_merge_none "refresh_token"
                     [("subscription_id", PStr sid)]
                     (creation_data request (PStr sid) ve vt vr lu)
                     eq_refl eq_refl)) as N.
    destruct (construct _ _) as [r | |]; try discriminate U.
    exact (N r eq_refl). }
  destruct (update_rows _ _ (db w)) as [rows'|] eqn:R; [|discriminate].
  apply commit_inv in U as [(_ & _ & ->) | [[=] _]]. cbn [db set_db].
  apply update_rows_inv in R.
  assert (Hin : In r0 (filter (matchesb [("subscription_id", PStr sid)]) (db w)))
    by (rewrite <- Hsel; left; reflexivity).
  apply filter_In in Hin as [Hin Hm].
  destruct (Forall2_In_l _ _ _ _ R Hin) as (r0' & _ & A).
  cbn beta in A. rewrite Hm, apply_creation_data in A.
  destruct ve as [| exp |]; try discriminate.
  destruct vt as [| tok |]; try discriminate.
  exists sid, exp, tok, lu. split; [reflexivity|]. split.
  { apply existsb_exists. exists r0. split; [exact Hin|].
    rewrite <- matchesb_subscription_id. exact Hm. }
  eapply Forall2_impl; [|exact R].
  intros r r' K. cbn beta in K.
  rewrite matchesb_subscription_id, apply_creation_data in K.
  destruct (has_id sid r); [injection K as <-; reflexivity|exact K].
Qed.

Lemma creation_success_overwrites_witness :
  let d := [("status", PStr "success"); ("subscription_id", PStr "s9");
            ("expires", PStr "2024-02-28 23:59:30")] in
  let w' := snd (setup_new_subscription (env_of platform_ok) request0 world9) in
  setup_new_subscription (env_of platform_ok) request0 world9 = (Ok d, w')
  /\ exists sid exp tok lu,
       d = [("status", PStr "success"); ("subscription_id", PStr sid);
            ("expires", PStr exp)]
       /\ existsb (has_id sid) (db world9) = true
       /\ Forall2
            (fun r r' =>
               if has_id sid r
               then r' = mkSubscriptions (row_id r) (Some lu) (rq_domain request0)
                           (rq_model request0) exp sid (rq_post_url request0)
                           (rq_user request0) tok (refresh_token r)
               else r' = r)
            (db world9) (db w').
Proof.
  cbv zeta.
  set (d := [("status", PStr "success"); ("subscription_id", PStr "s9");
             ("expires", PStr "2024-02-28 23:59:30")]).
  set (w' := snd (setup_new_subscription (env_of platform_ok) request0 world9)).
  assert (H1 : setup_new_subscription (env_of platform_ok) request0 world9 = (Ok d, w'))
    by (vm_compute; reflexivity).
  split; [exact H1|].
  apply (creation_success_overwrites (env_of platform_ok) request0 world9 w' d H1).
Defined.

(** ** The stored timestamps *)

Lemma lex_Eq c1 c2 : lex c1 c2 = Eq -> c1 = Eq /\ c2 = Eq.
Proof. destruct c1; simpl; intros H; try discriminate. auto. Qed.

Lemma dt_compare_Eq a b : dt_compare a b = Eq -> a = b.
Proof.
  unfold dt_compare. intros H.
  repeat match type of H with
         | lex _ _ = Eq =>
             let H1 := fresh "E" in
             apply lex_Eq in H as [H1 H]; apply Z.compare_eq_iff in H1
         end.
  apply Z.compare_eq_iff in H.
  destruct a, b. simpl in *. congruence.
Qed.

Lemma string_compare_refl s : String.compare s s = Eq.
Proof.
  pose proof (String.compare_antisym s s) as H.
  destruct (String.compare s s); [reflexivity|discriminate H|discriminate H].
Qed.

(** X19.  The rendering determines the instant to the second: two valid
    instants of the years 1000 to 9999 with the same rendering differ
    at most in their microseconds.  A stored [expires] therefore stands
    for one instant only. *)
Theorem strftime_determines_second (a b : datetime) :
  valid a -> valid b -> four_digit_year a -> four_digit_year b ->
  strftime a = strftime b -> whole_second a = whole_second b.
Proof.
  intros Va Vb Ya Yb H.
  apply dt_compare_Eq. rewrite <- (strftime_compare a b Va Vb Ya Yb).
  rewrite H. apply string_compare_refl.
Qed.

Lemma strftime_determines_second_witness :
  let a := mkdatetime 2024 2 29 0 59 30 123456 in
  let b := mkdatetime 2024 2 29 0 59 30 999 in
  (valid a /\ valid b /\ four_digit_year a /\ four_digit_year b
   /\ strftime a = strftime b)
  /\ whole_second a = whole_second b.
Proof.
  cbv zeta.
  assert (H1 : valid (mkdatetime 2024 2 29 0 59 30 123456))
    by (apply validb_valid; vm_compute; reflexivity).
  assert (H2 : valid (mkdatetime 2024 2 29 0 59 30 999))
    by (apply validb_valid; vm_compute; reflexivity).
  assert (H3 : four_digit_year (mkdatetime 2024 2 29 0 59 30 123456))
    by (vm_compute; split; discriminate).
  assert (H4 : four_digit_year (mkdatetime 2024 2 29 0 59 30 999))
    by (vm_compute; split; discriminate).
  assert (H5 : strftime (mkdatetime 2024 2 29 0 59 30 123456)
               = strftime (mkdatetime 2024 2 29 0 59 30 999))
    by (vm_compute; reflexivity).
  split; [exact (conj H1 (conj H2 (conj H3 (conj H4 H5))))|].
  apply (strftime_determines_second _ _ H1 H2 H3 H4 H5).
Defined.

Lemma string_leb_trans s t u :
  (s <=? t)%string = true -> (t <=? u)%string = true -> (s <=? u)%string = true.
Proof.
  intros Hst Htu. unfold String.leb at 1 in Htu.
  destruct (String.compare t u) eqn:E; [| |discriminate Htu].
  - apply String.compare_eq_iff in E. subst u. exact Hst.
  - assert (L : (s <? u)%string = true).
    { apply (string_leb_ltb_trans s t u Hst). unfold String.ltb. rewrite E.
      reflexivity. }
    unfold String.ltb in L. unfold String.leb.
    destruct (String.compare s u); try discriminate L. reflexivity.
Qed.

(** X20.  The scan is monotone in time: a row that the scan returns is
    returned by every scan with a later threshold, as long as the row
    is in the table.  A subscription that is not renewed never leaves
    the candidates. *)
Theorem scan_is_monotone
  (env : Env) (w1 w2 : World) (thr1 thr2 : datetime) (r : Subscriptions) :
  scan_threshold env w1 = Some thr1 ->
  scan_threshold env w2 = Some thr2 ->
  four_digit_year thr1 -> four_digit_year thr2 ->
  dt_leb thr1 thr2 = true ->
  In r (db w2) ->
  (exists rows, fst (fetch_expiring_subscriptions env w1) = Ok rows /\ In r rows) ->
  exists rows, fst (fetch_expiring_subscriptions env w2) = Ok rows /\ In r rows.
Proof.
  intros H1 H2 Y1 Y2 L Hin (rows & F & Hr).
  pose proof (scan_threshold_valid _ _ _ H1) as V1.
  pose proof (scan_threshold_valid _ _ _ H2) as V2.
  rewrite fetch_unfold, H1 in F. rewrite fetch_unfold, H2. cbn [fst] in *.
  injection F as <-. eexists. split; [reflexivity|].
  unfold expiring in *. apply filter_In in Hr as [_ Hr].
  apply filter_In. split; [exact Hin|].
  exact (string_leb_trans _ _ _ Hr (strftime_leb_mono _ _ V1 V2 Y1 Y2 L)).
Qed.

Lemma scan_is_monotone_witness :
  let env := env_of platform_ok in
  let w2 := tick world0 in
  let thr1 := threshold_instant in
  let thr2 := mkdatetime 2024 2 29 0 59 30 123457 in
  (scan_threshold env world0 = Some thr1
   /\ scan_threshold env w2 = Some thr2
   /\ four_digit_year thr1 /\ four_digit_year thr2
   /\ dt_leb thr1 thr2 = true
   /\ In s1_row (db w2)
   /\ (exists rows,
         fst (fetch_expiring_subscriptions env world0) = Ok rows /\ In s1_row rows))
  /\ exists rows,
       fst (fetch_expiring_subscriptions env w2) = Ok rows /\ In s1_row rows.
Proof.
  cbv zeta.
  assert (H1 : scan_threshold (env_of platform_ok) world0 = Some threshold_instant)
    by (vm_compute; reflexivity).
  assert (H2 : scan_threshold (env_of platform_ok) (tick world0)
               = Some (mkdatetime 2024 2 29 0 59 30 123457))
    by (vm_compute; reflexivity).
  assert (H3 : four_digit_year threshold_instant) by (vm_compute; split; discriminate).
  assert (H4 : four_digit_year (mkdatetime 2024 2 29 0 59 30 123457))
    by (vm_compute; split; discriminate).
  assert (H5 : dt_leb threshold_instant (mkdatetime 2024 2 29 0 59 30 123457) = true)
    by (vm_compute; reflexivity).
  assert (H6 : In s1_row (db (tick world0))) by (left; reflexivity).
  assert (H7 : exists rows,
                 fst (fetch_expiring_subscriptions (env_of platform_ok) world0)
                 = Ok rows /\ In s1_row rows).
  { eexists. split; [vm_compute; reflexivity|]. left. reflexivity. }
  split; [exact (conj H1 (conj H2 (conj H3 (conj H4 (conj H5 (conj H6 H7))))))|].
  apply (scan_is_monotone (env_of platform_ok) world0 (tick world0)
           threshold_instant (mkdatetime 2024 2 29 0 59 30 123457) s1_row
           H1 H2 H3 H4 H5 H6 H7).
Defined.
